(** * Bonding-curve parameter search: a shallow embedding

    This development embeds the two parameter-search scripts of the
    repository,

      - [src/script/sepoliaSimulations/find_constant_product_params.py]
        (module [Sepolia]) and
      - [src/simulations/script/find_constant_product_params_with_graduation_fee.py]
        (module [GraduationFee]),

    and states the properties of their [search] routine.  The tick and
    price conversion helpers of the repository (uniswapX96Pricing.py,
    uniswapV4Settings.py, liquidity.py) and the bonding-curve plots
    compute in binary floating point and are not embedded.

    Python integers are unbounded and are embedded as [Z]; [//] on the
    positive divisors that occur is [Z.div] and [abs] is [Z.abs].  Values
    of Python's [decimal.Decimal] are embedded as a coefficient and a
    power-of-ten exponent with the context precision written out
    (section [DecimalArith]).  The [while] loop of [search] is embedded as
    an iteration with an explicit budget of rounds (section [While]);
    the budget is shown to be sufficient for all arguments that pass the
    validation of [search]. *)

From Stdlib Require Import ZArith QArith Qpower List Lia Bool String
  Permutation.
Import ListNotations.
Local Open Scope Z_scope.

(** ** Python's [decimal.Decimal], finite values

    A finite decimal is [coeff * 10 ^ expo].  The sign is carried by the
    coefficient, so the two zeros of the decimal module are one value
    here; no operation of the scripts distinguishes them.  The special
    values (NaN, infinities) and the exponent limits of the context
    (Emax, Emin) are outside this embedding: every decimal below is a
    finite number with an unbounded exponent.  The rounding mode is the
    default one, ROUND_HALF_EVEN. *)

Record Decimal : Set := mkDecimal { coeff : Z; expo : Z }.

Section DecimalArith.

(** Number of decimal digits of a natural number ([len(str(n))]); the
    budget of divisions is the number of binary digits, which is never
    smaller. *)
Fixpoint ndigits_aux (fuel : nat) (n : Z) : Z :=
  match fuel with
  | O => 1
  | S fuel' => if n <? 10 then 1 else 1 + ndigits_aux fuel' (n / 10)
  end.

Definition ndigits (n : Z) : Z :=
  ndigits_aux (S (Z.to_nat (Z.log2 (Z.abs n)))) (Z.abs n).

(** Drop the [k] last digits of [n >= 0], rounding half to even. *)
Definition round_half_even (n k : Z) : Z :=
  let q := n / 10 ^ k in
  let r := n mod 10 ^ k in
  let half := 5 * 10 ^ (k - 1) in
  if (half <? r) || ((r =? half) && Z.odd q) then q + 1 else q.

(** The context precision: [getcontext().prec]. *)
Variable prec : Z.

(** [Decimal._fix]: round the coefficient to at most [prec] digits. *)
Definition dec_fix (d : Decimal) : Decimal :=
  let n := Z.abs (coeff d) in
  let k := ndigits n - prec in
  if k <=? 0 then d
  else
    let q := round_half_even n k in
    if prec <? ndigits q
    then mkDecimal (Z.sgn (coeff d) * (q / 10)) (expo d + k + 1)
    else mkDecimal (Z.sgn (coeff d) * q) (expo d + k).

(** [Decimal(n)] for a Python int: exact, whatever the precision. *)
Definition dec_of_int (n : Z) : Decimal := mkDecimal n 0.

(** [a * b] *)
Definition dec_mul (a b : Decimal) : Decimal :=
  dec_fix (mkDecimal (coeff a * coeff b) (expo a + expo b)).

(** [a + b]: the exact sum at the smaller exponent, then rounded. *)
Definition dec_add (a b : Decimal) : Decimal :=
  let e := Z.min (expo a) (expo b) in
  dec_fix (mkDecimal (coeff a * 10 ^ (expo a - e)
                      + coeff b * 10 ^ (expo b - e)) e).

Definition dec_neg (a : Decimal) : Decimal :=
  mkDecimal (- coeff a) (expo a).

(** [a - b] *)
Definition dec_sub (a b : Decimal) : Decimal := dec_add a (dec_neg b).

(** [abs(a)] *)
Definition dec_abs (a : Decimal) : Decimal :=
  dec_fix (mkDecimal (Z.abs (coeff a)) (expo a)).

(** Strip trailing zeros of an exact quotient while the exponent is
    below the ideal one. *)
Fixpoint strip_zeros (fuel : nat) (c e ideal : Z) : Z * Z :=
  match fuel with
  | O => (c, e)
  | S fuel' =>
      if (e <? ideal) && (c mod 10 =? 0)
      then strip_zeros fuel' (c / 10) (e + 1) ideal
      else (c, e)
  end.

(** [a / b]: the quotient is computed to [prec + 1] digits with a sticky
    last digit and then rounded.  Python raises on a zero divisor; here
    the result is then zero, and the scripts are shown never to divide
    by zero ([GraduationFeeFacts.divisors_nonzero]). *)
Definition dec_div (a b : Decimal) : Decimal :=
  if coeff b =? 0 then mkDecimal 0 0
  else if coeff a =? 0 then dec_fix (mkDecimal 0 (expo a - expo b))
  else
    let sign := Z.sgn (coeff a) * Z.sgn (coeff b) in
    let n := Z.abs (coeff a) in
    let m := Z.abs (coeff b) in
    let shift := ndigits m - ndigits n + prec + 1 in
    let e := expo a - expo b - shift in
    let num := if 0 <=? shift then n * 10 ^ shift else n in
    let den := if 0 <=? shift then m else m * 10 ^ (- shift) in
    let c := num / den in
    let r := num mod den in
    if r =? 0
    then
      let '(c', e') :=
        strip_zeros (Z.to_nat (ndigits c)) c e (expo a - expo b) in
      dec_fix (mkDecimal (sign * c') e')
    else
      let c' := if c mod 5 =? 0 then c + 1 else c in
      dec_fix (mkDecimal (sign * c') e).

End DecimalArith.

(** [int(d)]: truncation toward zero. *)
Definition dec_to_int (d : Decimal) : Z :=
  if 0 <=? expo d then coeff d * 10 ^ expo d
  else Z.quot (coeff d) (10 ^ (- expo d)).

(** The number a decimal denotes. *)
Definition dec_value (d : Decimal) : Q :=
  (inject_Z (coeff d) * Qpower (10 # 1) (expo d))%Q.

(** [a < b] and [a == 0] compare the numbers denoted. *)
Definition dec_ltb (a b : Decimal) : bool :=
  match Qcompare (dec_value a) (dec_value b) with
  | Lt => true
  | _ => false
  end.

Definition dec_le (a b : Decimal) : Prop :=
  (dec_value a <= dec_value b)%Q.

Definition dec_is_zero (a : Decimal) : bool := coeff a =? 0.

(** ** The [while] loop

    [while cond body fuel s] runs the loop [while cond(s): s = body(s)]
    for at most [fuel] rounds; [None] means that the loop condition still
    held when the budget was used up.  [runs n s s'] is the loop's
    big-step behaviour: it leaves [s] after exactly [n] rounds in [s']. *)

Section While.

Context {St : Type}.
Variable cond : St -> bool.
Variable body : St -> St.

Fixpoint while (fuel : nat) (s : St) : option St :=
  match fuel with
  | O => if cond s then None else Some s
  | S fuel' => if cond s then while fuel' (body s) else Some s
  end.

Inductive runs : nat -> St -> St -> Prop :=
| runs_exit : forall s, cond s = false -> runs 0 s s
| runs_round : forall n s s',
    cond s = true -> runs n (body s) s' -> runs (S n) s s'.

End While.

(** ** Iterating a Python [set]

    A [for] loop over a set of integers visits every element once, in an
    order that the language does not fix.  The scan of [Sepolia.search]
    is therefore stated for an arbitrary such order. *)

Class SetIteration : Type := {
  iter_set : list Z -> list Z;
  iter_set_perm : forall l, NoDup l -> Permutation (iter_set l) l
}.

(** One admissible order: the order of the set display. *)
Definition display_order : SetIteration :=
  {| iter_set := fun l => l;
     iter_set_perm := fun l _ => Permutation_refl l |}.

(** What a call of [search] does: it raises, or it returns a candidate.
    [OutOfFuel] is the embedding's own outcome for a scan that was given
    too small a budget of rounds. *)
Inductive outcome (Cand : Type) : Type :=
| ValueError (msg : string)
| RuntimeError (msg : string)
| Returned (c : Cand)
| OutOfFuel.

Arguments ValueError {Cand} msg.
Arguments RuntimeError {Cand} msg.
Arguments Returned {Cand} c.
Arguments OutOfFuel {Cand}.

Definition raises {Cand : Type} (o : outcome Cand) : Prop :=
  match o with
  | ValueError _ | RuntimeError _ => True
  | _ => False
  end.

(** Where a call of [evaluate_candidate] that returns [None] leaves the
    function: one constructor for each [return None] of the two scripts. *)
Inductive rejection : Set :=
| NonPositiveInput     (* e0 <= 0 or t0 < 0 *)
| ZeroIdentityFails    (* t_at_zero != TOTAL_SUPPLY *)
| NoReservesAtTarget   (* t_at_grad <= 0 *)
| FeeExceedsTarget     (* uni_eth_after_target_fee <= 0 *)
| ZeroCurvePrice.      (* price_curve == 0 *)

(** ** The scan over [e0]

    Both scripts scan [e0] from [min_e0] to [max_e0] in steps of
    [step_e0] and try a few values of [t0] at each [e0]:

<<
    best = None
    e0 = min_e0
    while e0 <= max_e0:
        for t0 in <candidate t0 values of e0>:
            <update best with evaluate_candidate(e0, t0)>
        e0 += step_e0
>>

    The state of the loop is the pair of [e0] and [best]; it is extended
    by two observations of the run: the [(e0, t0)] pairs handed to
    [evaluate_candidate] so far and the number of rounds done. *)

Record scan_state (Cand : Type) : Type := mkScan {
  cur_e0 : Z;
  best : option Cand;
  evaluated : list (Z * Z);
  rounds : nat
}.

Arguments mkScan {Cand} cur_e0 best evaluated rounds.
Arguments cur_e0 {Cand} s.
Arguments best {Cand} s.
Arguments evaluated {Cand} s.
Arguments rounds {Cand} s.

Section GridScan.

Context {Cand : Type}.
(** The values of [t0] tried at an [e0], in the order of the [for]. *)
Variable candidate_t0_values : Z -> list Z.
(** The body of the [for]: the new [best] after trying [t0] at [e0]. *)
Variable update_best : Z -> option Cand -> Z -> option Cand.

(** One round of the [while e0 <= max_e0] loop. *)
Definition round (step_e0 : Z) (s : scan_state Cand) : scan_state Cand :=
  let e0 := cur_e0 s in
  let ts := candidate_t0_values e0 in
  {| cur_e0 := e0 + step_e0;
     best := fold_left (update_best e0) ts (best s);
     evaluated := evaluated s ++ map (pair e0) ts;
     rounds := S (rounds s) |}.

Definition scan (fuel : nat) (min_e0 max_e0 step_e0 : Z)
  : option (scan_state Cand) :=
  while (fun s => cur_e0 s <=? max_e0) (round step_e0) fuel
        (mkScan min_e0 None [] 0).

(** The end of [search]: [if best is None: raise ...; return best]. *)
Definition return_best (best : option Cand) : outcome Cand :=
  match best with
  | None => RuntimeError "No valid candidate found in the provided range"
  | Some b => Returned b
  end.

(** What is known of a call once the loop is left. *)
Definition conclude (r : option (scan_state Cand))
  : outcome Cand * list (Z * Z) :=
  match r with
  | None => (OutOfFuel, [])
  | Some s => (return_best (best s), evaluated s)
  end.

End GridScan.

(** The number of rounds that the scan of a valid range takes. *)
Definition scan_rounds (min_e0 max_e0 step_e0 : Z) : nat :=
  Z.to_nat ((max_e0 - min_e0) / step_e0 + 1).

(** * find_constant_product_params.py *)

Module Sepolia.

Definition prec : Z := 80.

Definition WAD : Z := 10 ^ 18.
Definition TOTAL_SUPPLY : Z := 1000000000 * WAD.
(** [Decimal("8.5")] *)
Definition TARGET_ETH : Decimal := mkDecimal 85 (-1).
Definition TARGET_ETH_WEI : Z :=
  dec_to_int (dec_mul prec TARGET_ETH (dec_of_int WAD)).
Definition TARGET_TOKENS : Z := 200000000 * WAD.

(** The dataclass [Candidate]; the fields carry the prefix [c_]. *)
Record Candidate : Set := mkCandidate {
  c_k : Z;
  c_t0 : Z;
  c_e0 : Z;
  c_t_at_zero : Z;
  c_t_at_target : Z;
  c_target_error : Z
}.

Definition to_wei (value_eth : Decimal) : Z :=
  dec_to_int (dec_mul prec value_eth (dec_of_int WAD)).

Definition reserves_from_eth (k t0 e0 eth_reserves : Z) : Z :=
  k / (eth_reserves + e0) - t0.

Definition t0_real_numerator (e0 : Z) : Z :=
  (TOTAL_SUPPLY - TARGET_TOKENS) * e0 - TARGET_TOKENS * TARGET_ETH_WEI.

(** [evaluate_candidate], with the [return None] that was taken. *)
Definition evaluate_candidate_at (e0 t0 : Z) : rejection + Candidate :=
  if (e0 <=? 0) || (t0 <? 0) then inl NonPositiveInput
  else
    let k := (TOTAL_SUPPLY + t0) * e0 in
    let t_at_zero := reserves_from_eth k t0 e0 0 in
    if negb (t_at_zero =? TOTAL_SUPPLY) then inl ZeroIdentityFails
    else
      let t_at_target := reserves_from_eth k t0 e0 TARGET_ETH_WEI in
      let err := Z.abs (t_at_target - TARGET_TOKENS) in
      inr (mkCandidate k t0 e0 t_at_zero t_at_target err).

Definition evaluate_candidate (e0 t0 : Z) : option Candidate :=
  match evaluate_candidate_at e0 t0 with
  | inl _ => None
  | inr cand => Some cand
  end.

(** The body of the [for t0 in candidate_t0_values] loop. *)
Definition update_best (e0 : Z) (best : option Candidate) (t0 : Z)
  : option Candidate :=
  match evaluate_candidate e0 t0 with
  | None => best
  | Some cand =>
      match best with
      | None => Some cand
      | Some b =>
          if c_target_error cand <? c_target_error b then Some cand
          else if (c_target_error cand =? c_target_error b)
                  && (c_e0 cand <? c_e0 b)
               then Some cand
               else Some b
      end
  end.

Section Search.

Context {order : SetIteration}.

Definition candidate_t0_values (e0 : Z) : list Z :=
  let num := t0_real_numerator e0 in
  let den := TARGET_ETH_WEI in
  let floor_t0 := num / den in
  iter_set [floor_t0 - 2; floor_t0 - 1; floor_t0;
            floor_t0 + 1; floor_t0 + 2].

(** [search] with a budget of rounds, paired with the pairs it
    evaluated. *)
Definition search_run (fuel : nat)
           (min_e0_eth max_e0_eth step_e0_eth : Decimal)
  : outcome Candidate * list (Z * Z) :=
  let min_e0 := to_wei min_e0_eth in
  let max_e0 := to_wei max_e0_eth in
  let step_e0 := to_wei step_e0_eth in
  if min_e0 <=? 0 then (ValueError "min_e0_eth must be > 0", [])
  else if max_e0 <? min_e0
  then (ValueError "max_e0_eth must be >= min_e0_eth", [])
  else if step_e0 <=? 0 then (ValueError "step_e0_eth must be > 0", [])
  else
    conclude (scan candidate_t0_values update_best
                   fuel min_e0 max_e0 step_e0).

Definition search_budget (min_e0_eth max_e0_eth step_e0_eth : Decimal)
  : nat :=
  scan_rounds (to_wei min_e0_eth) (to_wei max_e0_eth)
              (to_wei step_e0_eth).

Definition search (min_e0_eth max_e0_eth step_e0_eth : Decimal)
  : outcome Candidate :=
  fst (search_run (search_budget min_e0_eth max_e0_eth step_e0_eth)
                  min_e0_eth max_e0_eth step_e0_eth).

(** The pairs [(e0, t0)] that the call evaluates. *)
Definition visited (min_e0_eth max_e0_eth step_e0_eth : Decimal)
  : list (Z * Z) :=
  snd (search_run (search_budget min_e0_eth max_e0_eth step_e0_eth)
                  min_e0_eth max_e0_eth step_e0_eth).

(** The validation at the head of [search]. *)
Definition valid_args (min_e0_eth max_e0_eth step_e0_eth : Decimal)
  : Prop :=
  0 < to_wei min_e0_eth
  /\ to_wei min_e0_eth <= to_wei max_e0_eth
  /\ 0 < to_wei step_e0_eth.

End Search.

End Sepolia.

(** * find_constant_product_params_with_graduation_fee.py *)

Module GraduationFee.

Definition prec : Z := 90.

Definition WAD : Z := 10 ^ 18.
Definition TOTAL_SUPPLY : Z := 1000000000 * WAD.
(** [Decimal("8.5")] *)
Definition TARGET_ETH : Decimal := mkDecimal 85 (-1).
Definition TARGET_ETH_WEI : Z :=
  dec_to_int (dec_mul prec TARGET_ETH (dec_of_int WAD)).
Definition TARGET_TOKENS : Z := 200000000 * WAD.
(** [Decimal("0.5")] *)
Definition TARGET_FEE_ETH : Decimal := mkDecimal 5 (-1).
Definition TARGET_FEE_WEI : Z :=
  dec_to_int (dec_mul prec TARGET_FEE_ETH (dec_of_int WAD)).

(** The dataclass [Candidate]; the fields carry the prefix [c_]. *)
Record Candidate : Set := mkCandidate {
  c_k : Z;
  c_t0 : Z;
  c_e0 : Z;
  c_t_at_zero : Z;
  c_t_at_grad : Z;
  c_token_error_wei : Z;
  c_fee_for_price_match_wei : Z;
  c_fee_error_wei : Z;
  c_price_curve : Decimal;
  c_price_uni_with_target_fee : Decimal;
  c_price_deviation_ratio : Decimal;
  c_score : Decimal
}.

Definition to_wei (value_eth : Decimal) : Z :=
  dec_to_int (dec_mul prec value_eth (dec_of_int WAD)).

Definition from_wei (value_wei : Z) : Decimal :=
  dec_div prec (dec_of_int value_wei) (dec_of_int WAD).

Definition reserves_from_eth (k t0 e0 eth_reserves : Z) : Z :=
  k / (eth_reserves + e0) - t0.

Definition t0_real_numerator (e0 : Z) : Z :=
  (TOTAL_SUPPLY - TARGET_TOKENS) * e0 - TARGET_TOKENS * TARGET_ETH_WEI.

Definition score_candidate
           (token_error_wei fee_error_wei : Z)
           (price_deviation_ratio w_token w_fee w_price : Decimal)
           (fee_for_price_match_wei : Z) : Decimal :=
  let token_error_ratio :=
    dec_div prec (dec_of_int token_error_wei) (dec_of_int TARGET_TOKENS) in
  let fee_error_ratio :=
    dec_div prec (dec_of_int fee_error_wei) (dec_of_int TARGET_FEE_WEI) in
  let score :=
    dec_add prec
      (dec_add prec (dec_mul prec w_token token_error_ratio)
                    (dec_mul prec w_fee fee_error_ratio))
      (dec_mul prec w_price price_deviation_ratio) in
  if fee_for_price_match_wei <? 0
  then dec_add prec score (mkDecimal 1 0)
  else score.

(** [evaluate_candidate], with the [return None] that was taken. *)
Definition evaluate_candidate_at
           (e0 t0 target_fee_wei : Z) (w_token w_fee w_price : Decimal)
  : rejection + Candidate :=
  if (e0 <=? 0) || (t0 <? 0) then inl NonPositiveInput
  else
    let k := (TOTAL_SUPPLY + t0) * e0 in
    let t_at_zero := reserves_from_eth k t0 e0 0 in
    if negb (t_at_zero =? TOTAL_SUPPLY) then inl ZeroIdentityFails
    else
      let t_at_grad := reserves_from_eth k t0 e0 TARGET_ETH_WEI in
      if t_at_grad <=? 0 then inl NoReservesAtTarget
      else
        let token_error_wei := Z.abs (t_at_grad - TARGET_TOKENS) in
        let price_curve :=
          dec_div prec (dec_of_int ((TARGET_ETH_WEI + e0) ^ 2))
                       (dec_of_int k) in
        let uni_eth_after_target_fee := TARGET_ETH_WEI - target_fee_wei in
        if uni_eth_after_target_fee <=? 0 then inl FeeExceedsTarget
        else
          let price_uni_with_target_fee :=
            dec_div prec (dec_of_int uni_eth_after_target_fee)
                         (dec_of_int t_at_grad) in
          if dec_is_zero price_curve then inl ZeroCurvePrice
          else
            let price_deviation_ratio :=
              dec_div prec
                (dec_abs prec
                   (dec_sub prec price_uni_with_target_fee price_curve))
                price_curve in
            let fee_for_price_match_wei :=
              dec_to_int
                (dec_sub prec (dec_of_int TARGET_ETH_WEI)
                   (dec_mul prec (dec_of_int t_at_grad) price_curve)) in
            let fee_error_wei :=
              Z.abs (fee_for_price_match_wei - target_fee_wei) in
            let score :=
              score_candidate token_error_wei fee_error_wei
                              price_deviation_ratio w_token w_fee w_price
                              fee_for_price_match_wei in
            inr (mkCandidate k t0 e0 t_at_zero t_at_grad token_error_wei
                             fee_for_price_match_wei fee_error_wei
                             price_curve price_uni_with_target_fee
                             price_deviation_ratio score).

Definition evaluate_candidate
           (e0 t0 target_fee_wei : Z) (w_token w_fee w_price : Decimal)
  : option Candidate :=
  match evaluate_candidate_at e0 t0 target_fee_wei w_token w_fee w_price
  with
  | inl _ => None
  | inr cand => Some cand
  end.

(** [range(lo, hi)] *)
Definition range (lo hi : Z) : list Z :=
  map (fun i => lo + Z.of_nat i) (seq 0 (Z.to_nat (hi - lo))).

Section Search.

Variable t0_window : Z.
Variable target_fee_wei : Z.
Variables w_token w_fee w_price : Decimal.

(** The body of the [for t0 in range(...)] loop. *)
Definition update_best (e0 : Z) (best : option Candidate) (t0 : Z)
  : option Candidate :=
  match evaluate_candidate e0 t0 target_fee_wei w_token w_fee w_price
  with
  | None => best
  | Some cand =>
      match best with
      | None => Some cand
      | Some b => if dec_ltb (c_score cand) (c_score b)
                  then Some cand else Some b
      end
  end.

Definition candidate_t0_values (e0 : Z) : list Z :=
  let floor_t0 := t0_real_numerator e0 / TARGET_ETH_WEI in
  range (floor_t0 - t0_window) (floor_t0 + t0_window + 1).

End Search.

(** [search] with a budget of rounds, paired with the pairs it
    evaluated. *)
Definition search_run (fuel : nat)
           (min_e0_eth max_e0_eth step_e0_eth : Decimal) (t0_window : Z)
           (target_fee_eth w_token w_fee w_price : Decimal)
  : outcome Candidate * list (Z * Z) :=
  let min_e0 := to_wei min_e0_eth in
  let max_e0 := to_wei max_e0_eth in
  let step_e0 := to_wei step_e0_eth in
  let target_fee_wei := to_wei target_fee_eth in
  if min_e0 <=? 0 then (ValueError "min_e0_eth must be > 0", [])
  else if max_e0 <? min_e0
  then (ValueError "max_e0_eth must be >= min_e0_eth", [])
  else if step_e0 <=? 0 then (ValueError "step_e0_eth must be > 0", [])
  else if t0_window <? 0 then (ValueError "t0_window must be >= 0", [])
  else if (target_fee_wei <=? 0) || (TARGET_ETH_WEI <=? target_fee_wei)
  then (ValueError "target_fee_eth must be in (0, TARGET_ETH)", [])
  else
    conclude
      (scan (candidate_t0_values t0_window)
            (update_best target_fee_wei w_token w_fee w_price)
            fuel min_e0 max_e0 step_e0).

Definition search_budget (min_e0_eth max_e0_eth step_e0_eth : Decimal)
  : nat :=
  scan_rounds (to_wei min_e0_eth) (to_wei max_e0_eth) (to_wei step_e0_eth).

Definition search
           (min_e0_eth max_e0_eth step_e0_eth : Decimal) (t0_window : Z)
           (target_fee_eth w_token w_fee w_price : Decimal)
  : outcome Candidate :=
  fst (search_run (search_budget min_e0_eth max_e0_eth step_e0_eth)
                  min_e0_eth max_e0_eth step_e0_eth t0_window
                  target_fee_eth w_token w_fee w_price).

(** The pairs [(e0, t0)] that the call evaluates. *)
Definition visited
           (min_e0_eth max_e0_eth step_e0_eth : Decimal) (t0_window : Z)
           (target_fee_eth w_token w_fee w_price : Decimal)
  : list (Z * Z) :=
  snd (search_run (search_budget min_e0_eth max_e0_eth step_e0_eth)
                  min_e0_eth max_e0_eth step_e0_eth t0_window
                  target_fee_eth w_token w_fee w_price).

(** The validation at the head of [search]. *)
Definition valid_args (min_e0_eth max_e0_eth step_e0_eth : Decimal)
           (t0_window : Z) (target_fee_eth : Decimal) : Prop :=
  0 < to_wei min_e0_eth
  /\ to_wei min_e0_eth <= to_wei max_e0_eth
  /\ 0 < to_wei step_e0_eth
  /\ 0 <= t0_window
  /\ 0 < to_wei target_fee_eth < TARGET_ETH_WEI.

End GraduationFee.


(** * Properties *)

(** ** The [while] loop *)

Section WhileFacts.

Context {St : Type}.
Variable cond : St -> bool.
Variable body : St -> St.

Lemma runs_while : forall n s s' fuel,
    runs cond body n s s' -> (n <= fuel)%nat ->
    while cond body fuel s = Some s'.
Proof.
  intros n s s' fuel Hruns.
  revert fuel.
  induction Hruns as [s Hc | n s s' Hc Hruns IH]; intros fuel Hle.
  - destruct fuel; simpl; rewrite Hc; reflexivity.
  - destruct fuel as [| fuel]; [lia |].
    simpl. rewrite Hc. apply IH. lia.
Qed.

Lemma runs_short : forall n s s' fuel,
    runs cond body n s s' -> (fuel < n)%nat ->
    while cond body fuel s = None.
Proof.
  intros n s s' fuel Hruns.
  revert fuel.
  induction Hruns as [s Hc | n s s' Hc Hruns IH]; intros fuel Hlt.
  - lia.
  - destruct fuel as [| fuel]; simpl; rewrite Hc.
    + reflexivity.
    + apply IH. lia.
Qed.

Lemma runs_functional : forall n s s1,
    runs cond body n s s1 ->
    forall m s2, runs cond body m s s2 -> n = m /\ s1 = s2.
Proof.
  intros n s s1 Hruns.
  induction Hruns as [s Hc | n s s1 Hc Hruns IH]; intros m s2 H2.
  - inversion H2 as [s0 Hc' | m' s0 s0' Hc' Hr']; subst;
      [auto | congruence].
  - inversion H2 as [s0 Hc' | m' s0 s0' Hc' Hr']; subst;
      [congruence |].
    destruct (IH _ _ Hr') as [-> ->]. auto.
Qed.

End WhileFacts.

(** ** Keeping the best candidate

    The [for] body of both scripts has one shape: a candidate replaces
    [best] when there is no [best] yet or when it is [better].  For an
    order [le] that [better] decides, the candidate kept after a
    sequence of pairs is a least one among those that evaluate. *)

Section Selection.

Context {Cand : Type}.
Variable evaluate : Z -> Z -> option Cand.
Variable better : Cand -> Cand -> bool.

Definition select (e0 : Z) (best : option Cand) (t0 : Z) : option Cand :=
  match evaluate e0 t0 with
  | None => best
  | Some cand =>
      match best with
      | None => Some cand
      | Some b => if better cand b then Some cand else Some b
      end
  end.

Definition select_pair (best : option Cand) (p : Z * Z) : option Cand :=
  select (fst p) best (snd p).

(** [b] is the choice among the pairs [l]. *)
Definition choice_of (le : Cand -> Cand -> Prop)
           (l : list (Z * Z)) (b : option Cand) : Prop :=
  match b with
  | None => forall p, In p l -> evaluate (fst p) (snd p) = None
  | Some c =>
      (exists p, In p l /\ evaluate (fst p) (snd p) = Some c)
      /\ forall p c', In p l -> evaluate (fst p) (snd p) = Some c' ->
                      le c c'
  end.

Variable le : Cand -> Cand -> Prop.
Hypothesis le_refl : forall c, le c c.
Hypothesis le_trans : forall a b c, le a b -> le b c -> le a c.
Hypothesis better_le : forall c b, better c b = true -> le c b.
Hypothesis worse_le : forall c b, better c b = false -> le b c.

Lemma choice_step : forall l b p,
    choice_of le l b -> choice_of le (l ++ [p]) (select_pair b p).
Proof.
  intros l b p Hb.
  unfold select_pair, select.
  destruct (evaluate (fst p) (snd p)) as [cand |] eqn:Hev.
  - destruct b as [c |]; simpl in Hb.
    + destruct Hb as [[q [Hq Hqc]] Hmin].
      destruct (better cand c) eqn:Hbt; simpl.
      * split.
        -- exists p. split; [apply in_or_app; right; left; reflexivity |].
           exact Hev.
        -- intros p' c' Hin Hev'.
           apply in_app_or in Hin. destruct Hin as [Hin | [<- | []]].
           ++ apply le_trans with c; [apply better_le; exact Hbt |].
              exact (Hmin _ _ Hin Hev').
           ++ rewrite Hev in Hev'. injection Hev' as <-. apply le_refl.
      * split.
        -- exists q. split; [apply in_or_app; left; exact Hq | exact Hqc].
        -- intros p' c' Hin Hev'.
           apply in_app_or in Hin. destruct Hin as [Hin | [<- | []]].
           ++ exact (Hmin _ _ Hin Hev').
           ++ rewrite Hev in Hev'. injection Hev' as <-.
              apply worse_le. exact Hbt.
    + simpl. split.
      * exists p. split; [apply in_or_app; right; left; reflexivity |].
        exact Hev.
      * intros p' c' Hin Hev'.
        apply in_app_or in Hin. destruct Hin as [Hin | [<- | []]].
        -- rewrite (Hb _ Hin) in Hev'. discriminate.
        -- rewrite Hev in Hev'. injection Hev' as <-. apply le_refl.
  - destruct b as [c |]; simpl in *.
    + destruct Hb as [[q [Hq Hqc]] Hmin]. split.
      * exists q. split; [apply in_or_app; left; exact Hq | exact Hqc].
      * intros p' c' Hin Hev'.
        apply in_app_or in Hin. destruct Hin as [Hin | [<- | []]].
        -- exact (Hmin _ _ Hin Hev').
        -- rewrite Hev in Hev'. discriminate.
    + intros p' Hin.
      apply in_app_or in Hin. destruct Hin as [Hin | [<- | []]].
      * exact (Hb _ Hin).
      * exact Hev.
Qed.

Lemma choice_fold : forall l2 l1 b,
    choice_of le l1 b ->
    choice_of le (l1 ++ l2) (fold_left select_pair l2 b).
Proof.
  induction l2 as [| p l2 IH]; intros l1 b Hb; simpl.
  - rewrite app_nil_r. exact Hb.
  - replace (l1 ++ p :: l2) with ((l1 ++ [p]) ++ l2)
      by (rewrite <- app_assoc; reflexivity).
    apply IH. apply choice_step. exact Hb.
Qed.

Lemma choice_all : forall l,
    choice_of le l (fold_left select_pair l None).
Proof.
  intros l. apply (choice_fold l [] None). simpl. intros p [].
Qed.

End Selection.

(** ** The scan over [e0]

    The scan visits the grid points [min_e0 + i * step_e0] that are not
    above [max_e0], in increasing order, and then stops. *)

Section GridScanFacts.

Context {Cand : Type}.
Variable cands : Z -> list Z.
Variable upd : Z -> option Cand -> Z -> option Cand.
Variables min_e0 max_e0 step_e0 : Z.

Definition grid_point (i : nat) : Z := min_e0 + Z.of_nat i * step_e0.

(** The pairs evaluated in the first [n] rounds. *)
Definition grid_pairs (n : nat) : list (Z * Z) :=
  flat_map (fun i => map (pair (grid_point i)) (cands (grid_point i)))
           (seq 0 n).

Definition upd_pair (b : option Cand) (p : Z * Z) : option Cand :=
  upd (fst p) b (snd p).

(** The state of the loop after [n] rounds. *)
Definition state_after (n : nat) : scan_state Cand :=
  mkScan (grid_point n) (fold_left upd_pair (grid_pairs n) None)
         (grid_pairs n) n.

Lemma fold_left_pairs : forall e0 ts b,
    fold_left upd_pair (map (pair e0) ts) b = fold_left (upd e0) ts b.
Proof.
  intros e0 ts. induction ts as [| t ts IH]; intros b; simpl.
  - reflexivity.
  - apply IH.
Qed.

Lemma grid_pairs_S : forall n,
    grid_pairs (S n)
    = grid_pairs n ++ map (pair (grid_point n)) (cands (grid_point n)).
Proof.
  intros n. unfold grid_pairs.
  rewrite seq_S, flat_map_app. simpl. rewrite app_nil_r. reflexivity.
Qed.

Lemma grid_point_S : forall n, grid_point (S n) = grid_point n + step_e0.
Proof. intros n. unfold grid_point. lia. Qed.

Lemma round_state_after : forall n,
    round cands upd step_e0 (state_after n) = state_after (S n).
Proof.
  intros n. unfold round, state_after. simpl.
  rewrite grid_pairs_S, fold_left_app, fold_left_pairs, grid_point_S.
  reflexivity.
Qed.

Lemma state_after_0 : state_after 0 = mkScan min_e0 None [] 0.
Proof.
  unfold state_after, grid_point. simpl. rewrite Z.add_0_r. reflexivity.
Qed.

Lemma in_grid_pairs : forall n e0 t0,
    In (e0, t0) (grid_pairs n)
    <-> exists i, (i < n)%nat /\ e0 = grid_point i /\ In t0 (cands e0).
Proof.
  intros n e0 t0. unfold grid_pairs. rewrite in_flat_map. split.
  - intros [i [Hi Hin]]. apply in_seq in Hi.
    apply in_map_iff in Hin. destruct Hin as [t [Heq Ht]].
    injection Heq as <- <-.
    exists i. repeat split; [lia | exact Ht].
  - intros [i [Hi [-> Ht]]]. exists i. split.
    + apply in_seq. lia.
    + apply in_map. exact Ht.
Qed.

Lemma length_grid_pairs : forall n w,
    (forall e0, List.length (cands e0) = w) ->
    List.length (grid_pairs n) = (n * w)%nat.
Proof.
  intros n w Hw. induction n as [| n IH].
  - reflexivity.
  - rewrite grid_pairs_S, length_app, length_map, Hw, IH. lia.
Qed.

Hypothesis range_ok : min_e0 <= max_e0.
Hypothesis step_pos : 0 < step_e0.

Lemma rounds_bound :
  Z.of_nat (scan_rounds min_e0 max_e0 step_e0)
  = (max_e0 - min_e0) / step_e0 + 1.
Proof.
  unfold scan_rounds.
  assert (0 <= (max_e0 - min_e0) / step_e0)
    by (apply Z.div_pos; lia).
  lia.
Qed.

(** The loop condition holds at exactly the first [scan_rounds] grid
    points. *)
Lemma grid_point_in_range : forall i,
    (i < scan_rounds min_e0 max_e0 step_e0)%nat
    <-> grid_point i <= max_e0.
Proof.
  intros i. unfold grid_point.
  pose proof rounds_bound as HN.
  pose proof (Z.mul_div_le (max_e0 - min_e0) step_e0 step_pos) as Hlo.
  pose proof (Z.mul_succ_div_gt (max_e0 - min_e0) step_e0 step_pos) as Hhi.
  split; intros H.
  - assert (Z.of_nat i <= (max_e0 - min_e0) / step_e0) by lia. nia.
  - assert (Z.of_nat i < Z.succ ((max_e0 - min_e0) / step_e0)) by nia.
    lia.
Qed.

Lemma scan_runs_from : forall k n,
    (n + k = scan_rounds min_e0 max_e0 step_e0)%nat ->
    runs (fun s : scan_state Cand => cur_e0 s <=? max_e0)
         (round cands upd step_e0) k
         (state_after n)
         (state_after (scan_rounds min_e0 max_e0 step_e0)).
Proof.
  induction k as [| k IH]; intros n Hn.
  - replace (scan_rounds min_e0 max_e0 step_e0) with n by lia.
    apply runs_exit. simpl. apply Z.leb_gt.
    destruct (Z.le_gt_cases (grid_point n) max_e0) as [Hle | Hgt];
      [| lia].
    apply grid_point_in_range in Hle. lia.
  - apply runs_round.
    + simpl. apply Z.leb_le. apply grid_point_in_range. lia.
    + rewrite round_state_after. apply IH. lia.
Qed.

(** The loop leaves after exactly [scan_rounds] rounds. *)
Lemma scan_runs :
  runs (fun s : scan_state Cand => cur_e0 s <=? max_e0)
       (round cands upd step_e0)
       (scan_rounds min_e0 max_e0 step_e0)
       (mkScan min_e0 None [] 0)
       (state_after (scan_rounds min_e0 max_e0 step_e0)).
Proof.
  rewrite <- state_after_0. apply scan_runs_from. reflexivity.
Qed.

Lemma scan_enough : forall fuel,
    (scan_rounds min_e0 max_e0 step_e0 <= fuel)%nat ->
    scan cands upd fuel min_e0 max_e0 step_e0
    = Some (state_after (scan_rounds min_e0 max_e0 step_e0)).
Proof.
  intros fuel Hle. unfold scan.
  apply runs_while with (n := scan_rounds min_e0 max_e0 step_e0);
    [apply scan_runs | exact Hle].
Qed.

Lemma scan_short : forall fuel,
    (fuel < scan_rounds min_e0 max_e0 step_e0)%nat ->
    scan cands upd fuel min_e0 max_e0 step_e0 = None.
Proof.
  intros fuel Hlt. unfold scan.
  apply runs_short
    with (n := scan_rounds min_e0 max_e0 step_e0)
         (s' := state_after (scan_rounds min_e0 max_e0 step_e0));
    [apply scan_runs | exact Hlt].
Qed.

(** The pairs evaluated by the whole scan. *)
Lemma in_scanned_pairs : forall e0 t0,
    In (e0, t0) (grid_pairs (scan_rounds min_e0 max_e0 step_e0))
    <-> exists i, e0 = grid_point i /\ e0 <= max_e0 /\ In t0 (cands e0).
Proof.
  intros e0 t0. rewrite in_grid_pairs. split.
  - intros [i [Hi [-> Ht]]]. exists i.
    repeat split; [apply grid_point_in_range; exact Hi | exact Ht].
  - intros [i [-> [Hle Ht]]]. exists i.
    repeat split; [apply grid_point_in_range; exact Hle | exact Ht].
Qed.

End GridScanFacts.

(** ** The scan keeps a least candidate of the grid *)

Section ScanSelection.

Context {Cand : Type}.
Variable cands : Z -> list Z.
Variable evaluate : Z -> Z -> option Cand.
Variable better : Cand -> Cand -> bool.
Variable upd : Z -> option Cand -> Z -> option Cand.
Hypothesis upd_select :
  forall e0 b t0, upd e0 b t0 = select evaluate better e0 b t0.

Variable le : Cand -> Cand -> Prop.
Hypothesis le_refl : forall c, le c c.
Hypothesis le_trans : forall a b c, le a b -> le b c -> le a c.
Hypothesis better_le : forall c b, better c b = true -> le c b.
Hypothesis worse_le : forall c b, better c b = false -> le b c.

Variables min_e0 max_e0 step_e0 : Z.

(** All pairs of the scan of a valid range. *)
Definition scanned : list (Z * Z) :=
  grid_pairs cands min_e0 step_e0 (scan_rounds min_e0 max_e0 step_e0).

Lemma fold_upd_select : forall l b,
    fold_left (upd_pair upd) l b
    = fold_left (select_pair evaluate better) l b.
Proof.
  induction l as [| p l IH]; intros b; simpl.
  - reflexivity.
  - unfold upd_pair at 2. rewrite upd_select. apply IH.
Qed.

Hypothesis range_ok : min_e0 <= max_e0.
Hypothesis step_pos : 0 < step_e0.

Lemma conclude_scan : forall fuel,
    (scan_rounds min_e0 max_e0 step_e0 <= fuel)%nat ->
    exists b,
      conclude (scan cands upd fuel min_e0 max_e0 step_e0)
      = (return_best b, scanned)
      /\ choice_of evaluate le scanned b.
Proof.
  intros fuel Hfuel.
  rewrite (scan_enough cands upd min_e0 max_e0 step_e0
                       range_ok step_pos fuel Hfuel).
  exists (fold_left (select_pair evaluate better) scanned None).
  split.
  - unfold conclude, state_after. simpl.
    rewrite fold_upd_select. reflexivity.
  - apply choice_all; assumption.
Qed.


End ScanSelection.

(** ** find_constant_product_params.py *)

Module SepoliaFacts.

Import Sepolia.

Lemma sep_TOTAL_SUPPLY_pos : 0 < TOTAL_SUPPLY.
Proof. reflexivity. Qed.

Lemma sep_TARGET_ETH_WEI_eq : TARGET_ETH_WEI = 8500000000000000000.
Proof. vm_compute. reflexivity. Qed.

#[local] Opaque TARGET_ETH_WEI TOTAL_SUPPLY TARGET_TOKENS.

(** The zero-ETH identity is an exact division. *)
Lemma sep_reserves_at_zero : forall e0 t0,
    0 < e0 ->
    reserves_from_eth ((TOTAL_SUPPLY + t0) * e0) t0 e0 0 = TOTAL_SUPPLY.
Proof.
  intros e0 t0 He0. unfold reserves_from_eth.
  rewrite Z.add_0_l, Z.div_mul by lia. lia.
Qed.

Lemma sep_evaluate_candidate_at_inr : forall e0 t0 c,
    evaluate_candidate_at e0 t0 = inr c ->
    0 < e0 /\ 0 <= t0
    /\ c = mkCandidate ((TOTAL_SUPPLY + t0) * e0) t0 e0 TOTAL_SUPPLY
             (reserves_from_eth ((TOTAL_SUPPLY + t0) * e0) t0 e0
                                TARGET_ETH_WEI)
             (Z.abs (reserves_from_eth ((TOTAL_SUPPLY + t0) * e0) t0 e0
                                       TARGET_ETH_WEI - TARGET_TOKENS)).
Proof.
  intros e0 t0 c. unfold evaluate_candidate_at.
  destruct ((e0 <=? 0) || (t0 <? 0)) eqn:Hguard; [discriminate |].
  apply orb_false_iff in Hguard. destruct Hguard as [He0 Ht0].
  apply Z.leb_gt in He0. apply Z.ltb_ge in Ht0.
  rewrite (sep_reserves_at_zero e0 t0 He0), Z.eqb_refl.
  cbv beta iota zeta delta [negb].
  intros Heq. injection Heq as <-. auto.
Qed.

Lemma sep_evaluate_candidate_some : forall e0 t0 c,
    evaluate_candidate e0 t0 = Some c ->
    0 < e0 /\ 0 <= t0
    /\ c = mkCandidate ((TOTAL_SUPPLY + t0) * e0) t0 e0 TOTAL_SUPPLY
             (reserves_from_eth ((TOTAL_SUPPLY + t0) * e0) t0 e0
                                TARGET_ETH_WEI)
             (Z.abs (reserves_from_eth ((TOTAL_SUPPLY + t0) * e0) t0 e0
                                       TARGET_ETH_WEI - TARGET_TOKENS)).
Proof.
  intros e0 t0 c. unfold evaluate_candidate.
  destruct (evaluate_candidate_at e0 t0) as [r | c'] eqn:Hat;
    [discriminate |].
  intros Heq. injection Heq as <-.
  apply sep_evaluate_candidate_at_inr. exact Hat.
Qed.

(** With positive [e0] and non-negative [t0] the candidate exists. *)
Lemma evaluate_candidate_defined : forall e0 t0,
    0 < e0 -> 0 <= t0 -> exists c, evaluate_candidate e0 t0 = Some c.
Proof.
  intros e0 t0 He0 Ht0. unfold evaluate_candidate, evaluate_candidate_at.
  assert (Hguard : (e0 <=? 0) || (t0 <? 0) = false).
  { apply orb_false_iff. split; [apply Z.leb_gt | apply Z.ltb_ge]; lia. }
  rewrite Hguard, (sep_reserves_at_zero e0 t0 He0), Z.eqb_refl.
  cbv beta iota zeta delta [negb]. eauto.
Qed.

Lemma sep_never_rejected_for_identity : forall e0 t0,
    evaluate_candidate_at e0 t0 <> inl ZeroIdentityFails.
Proof.
  intros e0 t0. unfold evaluate_candidate_at.
  destruct ((e0 <=? 0) || (t0 <? 0)) eqn:Hguard; [discriminate |].
  apply orb_false_iff in Hguard. destruct Hguard as [He0 _].
  apply Z.leb_gt in He0.
  rewrite (sep_reserves_at_zero e0 t0 He0), Z.eqb_refl.
  cbv beta iota zeta delta [negb]. discriminate.
Qed.

(** The order that the [for] body of [search] decides. *)
Definition better (c b : Candidate) : bool :=
  (c_target_error c <? c_target_error b)
  || ((c_target_error c =? c_target_error b) && (c_e0 c <? c_e0 b)).

Definition le_error (c c' : Candidate) : Prop :=
  c_target_error c <= c_target_error c'.

Lemma sep_update_best_select : forall e0 b t0,
    update_best e0 b t0 = select evaluate_candidate better e0 b t0.
Proof.
  intros e0 b t0. unfold update_best, select, better.
  destruct (evaluate_candidate e0 t0) as [cand |]; [| reflexivity].
  destruct b as [b |]; [| reflexivity].
  destruct (c_target_error cand <? c_target_error b); [reflexivity |].
  rewrite orb_false_l.
  destruct ((c_target_error cand =? c_target_error b)
            && (c_e0 cand <? c_e0 b)); reflexivity.
Qed.

Lemma le_error_refl : forall c, le_error c c.
Proof. intros c. unfold le_error. lia. Qed.

Lemma le_error_trans : forall a b c,
    le_error a b -> le_error b c -> le_error a c.
Proof. unfold le_error. intros a b c Hab Hbc. lia. Qed.

Lemma better_le_error : forall c b, better c b = true -> le_error c b.
Proof.
  unfold better, le_error. intros c b H.
  apply orb_true_iff in H. destruct H as [H | H].
  - apply Z.ltb_lt in H. lia.
  - apply andb_true_iff in H. destruct H as [H _].
    apply Z.eqb_eq in H. lia.
Qed.

Lemma worse_le_error : forall c b, better c b = false -> le_error b c.
Proof.
  unfold better, le_error. intros c b H.
  apply orb_false_iff in H. destruct H as [H _].
  apply Z.ltb_ge in H. exact H.
Qed.

Section WithOrder.

Context {order : SetIteration}.

Lemma sep_in_candidate_t0_values : forall e0 t0,
    In t0 (candidate_t0_values e0)
    <-> t0_real_numerator e0 / TARGET_ETH_WEI - 2 <= t0
        <= t0_real_numerator e0 / TARGET_ETH_WEI + 2.
Proof.
  intros e0 t0. unfold candidate_t0_values.
  set (f := t0_real_numerator e0 / TARGET_ETH_WEI).
  assert (Hnodup : NoDup [f - 2; f - 1; f; f + 1; f + 2]).
  { repeat constructor; simpl; lia. }
  pose proof (iter_set_perm _ Hnodup) as Hperm.
  split.
  - intros Hin. apply (Permutation_in _ Hperm) in Hin.
    simpl in Hin. lia.
  - intros Hrange.
    apply (Permutation_in _ (Permutation_sym Hperm)).
    simpl. lia.
Qed.

Lemma sep_length_candidate_t0_values : forall e0,
    List.length (candidate_t0_values e0) = 5%nat.
Proof.
  intros e0. unfold candidate_t0_values.
  set (f := t0_real_numerator e0 / TARGET_ETH_WEI).
  assert (Hnodup : NoDup [f - 2; f - 1; f; f + 1; f + 2]).
  { repeat constructor; simpl; lia. }
  rewrite (Permutation_length (iter_set_perm _ Hnodup)). reflexivity.
Qed.


Definition invalid_args (min_e0_eth max_e0_eth step_e0_eth : Decimal)
  : Prop :=
  to_wei min_e0_eth <= 0
  \/ to_wei max_e0_eth < to_wei min_e0_eth
  \/ to_wei step_e0_eth <= 0.

Lemma sep_valid_or_invalid : forall a b c,
    valid_args a b c \/ invalid_args a b c.
Proof. intros a b c. unfold valid_args, invalid_args. lia. Qed.

Lemma sep_search_run_invalid : forall fuel a b c,
    invalid_args a b c ->
    exists msg, search_run fuel a b c = (ValueError msg, []).
Proof.
  intros fuel a b c Hinv. unfold search_run, invalid_args in *.
  destruct (to_wei a <=? 0) eqn:H1; [eauto |].
  destruct (to_wei b <? to_wei a) eqn:H2; [eauto |].
  destruct (to_wei c <=? 0) eqn:H3; [eauto |].
  apply Z.leb_gt in H1, H3. apply Z.ltb_ge in H2. lia.
Qed.

(** The pairs of the scan of [search]. *)
Definition scanned_pairs (a b c : Decimal) : list (Z * Z) :=
  scanned candidate_t0_values (to_wei a) (to_wei b) (to_wei c).

Lemma sep_search_run_valid : forall fuel a b c,
    valid_args a b c ->
    (search_budget a b c <= fuel)%nat ->
    exists best,
      search_run fuel a b c = (return_best best, scanned_pairs a b c)
      /\ choice_of evaluate_candidate le_error (scanned_pairs a b c) best.
Proof.
  intros fuel a b c [Hmin [Hmax Hstep]] Hfuel. unfold search_run.
  destruct (to_wei a <=? 0) eqn:H1; [apply Z.leb_le in H1; lia |].
  destruct (to_wei b <? to_wei a) eqn:H2; [apply Z.ltb_lt in H2; lia |].
  destruct (to_wei c <=? 0) eqn:H3; [apply Z.leb_le in H3; lia |].
  exact (conclude_scan candidate_t0_values evaluate_candidate better
                       update_best sep_update_best_select le_error
                       le_error_refl le_error_trans better_le_error
                       worse_le_error (to_wei a) (to_wei b) (to_wei c)
                       Hmax Hstep fuel Hfuel).
Qed.

(** With a budget of at least [scan_rounds] rounds the call ends in the
    state reached after exactly that many rounds; with less it does
    not end. *)
Lemma sep_search_run_enough : forall fuel a b c,
    valid_args a b c ->
    (search_budget a b c <= fuel)%nat ->
    search_run fuel a b c
    = conclude (Some (state_after candidate_t0_values update_best
                                  (to_wei a) (to_wei c)
                                  (search_budget a b c))).
Proof.
  intros fuel a b c [Hmin [Hmax Hstep]] Hfuel. unfold search_run.
  destruct (to_wei a <=? 0) eqn:H1; [apply Z.leb_le in H1; lia |].
  destruct (to_wei b <? to_wei a) eqn:H2; [apply Z.ltb_lt in H2; lia |].
  destruct (to_wei c <=? 0) eqn:H3; [apply Z.leb_le in H3; lia |].
  rewrite (scan_enough candidate_t0_values update_best
                       (to_wei a) (to_wei b) (to_wei c) Hmax Hstep
                       fuel Hfuel).
  reflexivity.
Qed.

Lemma sep_search_run_short : forall fuel a b c,
    valid_args a b c ->
    (fuel < search_budget a b c)%nat ->
    search_run fuel a b c = (OutOfFuel, []).
Proof.
  intros fuel a b c [Hmin [Hmax Hstep]] Hfuel. unfold search_run.
  destruct (to_wei a <=? 0) eqn:H1; [apply Z.leb_le in H1; lia |].
  destruct (to_wei b <? to_wei a) eqn:H2; [apply Z.ltb_lt in H2; lia |].
  destruct (to_wei c <=? 0) eqn:H3; [apply Z.leb_le in H3; lia |].
  rewrite (scan_short candidate_t0_values update_best
                      (to_wei a) (to_wei b) (to_wei c) Hmax Hstep
                      fuel Hfuel).
  reflexivity.
Qed.

Lemma sep_search_valid : forall a b c,
    valid_args a b c ->
    exists best,
      search a b c = return_best best
      /\ visited a b c = scanned_pairs a b c
      /\ choice_of evaluate_candidate le_error (scanned_pairs a b c) best.
Proof.
  intros a b c Hvalid.
  destruct (sep_search_run_valid (search_budget a b c) a b c Hvalid
                             (Nat.le_refl _))
    as [best [Hrun Hchoice]].
  exists best. unfold search, visited. rewrite Hrun. auto.
Qed.

Lemma sep_search_invalid : forall a b c,
    invalid_args a b c ->
    exists msg, search a b c = ValueError msg /\ visited a b c = [].
Proof.
  intros a b c Hinv.
  destruct (sep_search_run_invalid (search_budget a b c) a b c Hinv)
    as [msg Hrun].
  exists msg. unfold search, visited. rewrite Hrun. auto.
Qed.

(** A call that returns had valid arguments. *)
Lemma sep_returned_valid : forall a b c cand,
    search a b c = Returned cand -> valid_args a b c.
Proof.
  intros a b c cand Hret.
  destruct (sep_valid_or_invalid a b c) as [Hv | Hinv]; [exact Hv |].
  destruct (sep_search_invalid a b c Hinv) as [msg [Hs _]].
  rewrite Hs in Hret. discriminate.
Qed.


(** The candidate returned is a least one of the pairs visited. *)
Lemma sep_search_returns_least : forall a b c cand,
    search a b c = Returned cand ->
    (exists p, In p (visited a b c)
               /\ evaluate_candidate (fst p) (snd p) = Some cand)
    /\ forall p cand', In p (visited a b c) ->
         evaluate_candidate (fst p) (snd p) = Some cand' ->
         c_target_error cand <= c_target_error cand'.
Proof.
  intros a b c cand Hret.
  destruct (sep_search_valid a b c (sep_returned_valid _ _ _ _ Hret))
    as [best [Hs [Hvis Hchoice]]].
  rewrite Hvis. rewrite Hs in Hret.
  destruct best as [c0 |]; [| discriminate].
  injection Hret as ->. exact Hchoice.
Qed.

Lemma sep_search_none_valid : forall a b c,
    valid_args a b c ->
    (forall p, In p (visited a b c) ->
               evaluate_candidate (fst p) (snd p) = None) ->
    search a b c
    = RuntimeError "No valid candidate found in the provided range".
Proof.
  intros a b c Hvalid Hnone.
  destruct (sep_search_valid a b c Hvalid) as [best [Hs [Hvis Hchoice]]].
  rewrite Hs. destruct best as [c0 |]; [| reflexivity].
  destruct Hchoice as [[p [Hin Hev]] _].
  rewrite <- Hvis in Hin. rewrite (Hnone p Hin) in Hev. discriminate.
Qed.

Lemma sep_search_some_valid : forall a b c p cand,
    valid_args a b c ->
    In p (visited a b c) ->
    evaluate_candidate (fst p) (snd p) = Some cand ->
    exists best, search a b c = Returned best
                 /\ c_target_error best <= c_target_error cand.
Proof.
  intros a b c p cand Hvalid Hin Hev.
  destruct (sep_search_valid a b c Hvalid) as [best [Hs [Hvis Hchoice]]].
  rewrite Hs. rewrite Hvis in Hin.
  destruct best as [c0 |]; simpl in Hchoice.
  - exists c0. split; [reflexivity |].
    destruct Hchoice as [_ Hmin]. exact (Hmin p cand Hin Hev).
  - rewrite (Hchoice p Hin) in Hev. discriminate.
Qed.

(** The pairs visited: the grid points up to the bound, with the
    five values of [t0] around the closed-form point. *)
Lemma sep_in_visited : forall a b c e0 t0,
    valid_args a b c ->
    In (e0, t0) (visited a b c)
    <-> exists i : nat,
          e0 = to_wei a + Z.of_nat i * to_wei c
          /\ e0 <= to_wei b
          /\ t0_real_numerator e0 / TARGET_ETH_WEI - 2 <= t0
             <= t0_real_numerator e0 / TARGET_ETH_WEI + 2.
Proof.
  intros a b c e0 t0 Hvalid.
  destruct (sep_search_valid a b c Hvalid) as [best [_ [Hvis _]]].
  rewrite Hvis. destruct Hvalid as [Hmin [Hmax Hstep]].
  unfold scanned_pairs, scanned.
  rewrite in_scanned_pairs by assumption.
  unfold grid_point.
  split; intros [i [He0 [Hle Ht0]]]; exists i;
    (split; [exact He0 | split; [exact Hle |]]).
  - exact (proj1 (sep_in_candidate_t0_values _ _) Ht0).
  - exact (proj2 (sep_in_candidate_t0_values _ _) Ht0).
Qed.

End WithOrder.

End SepoliaFacts.

(** ** find_constant_product_params_with_graduation_fee.py *)

(** The order of decimals. *)

Lemma dec_le_refl : forall a, dec_le a a.
Proof. intros a. unfold dec_le. apply Qle_refl. Qed.

Lemma dec_le_trans : forall a b c, dec_le a b -> dec_le b c -> dec_le a c.
Proof. unfold dec_le. intros a b c. apply Qle_trans. Qed.

Lemma dec_ltb_le : forall a b, dec_ltb a b = true -> dec_le a b.
Proof.
  unfold dec_ltb, dec_le. intros a b H.
  destruct (Qcompare (dec_value a) (dec_value b)) eqn:Hc; try discriminate.
  apply Qlt_le_weak. apply Qlt_alt. exact Hc.
Qed.

Lemma dec_ltb_ge : forall a b, dec_ltb a b = false -> dec_le b a.
Proof.
  unfold dec_ltb, dec_le. intros a b H.
  destruct (Qcompare (dec_value a) (dec_value b)) eqn:Hc; try discriminate.
  - apply Qeq_alt in Hc. rewrite Hc. apply Qle_refl.
  - apply Qlt_le_weak. apply Qgt_alt. exact Hc.
Qed.

Module GraduationFeeFacts.

Import GraduationFee.

Lemma fee_TOTAL_SUPPLY_pos : 0 < TOTAL_SUPPLY.
Proof. reflexivity. Qed.

Lemma TARGET_TOKENS_pos : 0 < TARGET_TOKENS.
Proof. reflexivity. Qed.

Lemma fee_TARGET_ETH_WEI_eq : TARGET_ETH_WEI = 8500000000000000000.
Proof. vm_compute. reflexivity. Qed.

Lemma TARGET_FEE_WEI_eq : TARGET_FEE_WEI = 500000000000000000.
Proof. vm_compute. reflexivity. Qed.

#[local] Opaque TARGET_ETH_WEI TOTAL_SUPPLY TARGET_TOKENS TARGET_FEE_WEI.

(** The zero-ETH identity is an exact division. *)
Lemma fee_reserves_at_zero : forall e0 t0,
    0 < e0 ->
    reserves_from_eth ((TOTAL_SUPPLY + t0) * e0) t0 e0 0 = TOTAL_SUPPLY.
Proof.
  intros e0 t0 He0. unfold reserves_from_eth.
  rewrite Z.add_0_l, Z.div_mul by lia. lia.
Qed.

Lemma range_spec : forall lo hi t, In t (range lo hi) <-> lo <= t < hi.
Proof.
  intros lo hi t. unfold range. rewrite in_map_iff. split.
  - intros [i [<- Hi]]. apply in_seq in Hi. lia.
  - intros Ht. exists (Z.to_nat (t - lo)). split; [lia |].
    apply in_seq. lia.
Qed.

Lemma length_range : forall lo hi,
    List.length (range lo hi) = Z.to_nat (hi - lo).
Proof.
  intros lo hi. unfold range. rewrite length_map, length_seq. reflexivity.
Qed.

Section Evaluate.

Variable target_fee_wei : Z.
Variables w_token w_fee w_price : Decimal.

Lemma fee_evaluate_candidate_at_inr : forall e0 t0 c,
    evaluate_candidate_at e0 t0 target_fee_wei w_token w_fee w_price
    = inr c ->
    0 < e0 /\ 0 <= t0
    /\ c_k c = (TOTAL_SUPPLY + t0) * e0
    /\ c_t0 c = t0
    /\ c_e0 c = e0
    /\ c_t_at_zero c = TOTAL_SUPPLY
    /\ c_t_at_grad c
       = reserves_from_eth (c_k c) (c_t0 c) (c_e0 c) TARGET_ETH_WEI
    /\ 0 < c_t_at_grad c
    /\ c_token_error_wei c = Z.abs (c_t_at_grad c - TARGET_TOKENS)
    /\ 0 < TARGET_ETH_WEI - target_fee_wei
    /\ coeff (c_price_curve c) <> 0.
Proof.
  intros e0 t0 c. unfold evaluate_candidate_at.
  destruct ((e0 <=? 0) || (t0 <? 0)) eqn:Hguard; [discriminate |].
  apply orb_false_iff in Hguard. destruct Hguard as [He0 Ht0].
  apply Z.leb_gt in He0. apply Z.ltb_ge in Ht0.
  rewrite (fee_reserves_at_zero e0 t0 He0), Z.eqb_refl.
  cbv beta iota zeta delta [negb].
  destruct (reserves_from_eth ((TOTAL_SUPPLY + t0) * e0) t0 e0
                              TARGET_ETH_WEI <=? 0) eqn:Hgrad;
    [discriminate |].
  apply Z.leb_gt in Hgrad.
  destruct (TARGET_ETH_WEI - target_fee_wei <=? 0) eqn:Hfee;
    [discriminate |].
  apply Z.leb_gt in Hfee.
  destruct (dec_is_zero
              (dec_div prec (dec_of_int ((TARGET_ETH_WEI + e0) ^ 2))
                       (dec_of_int ((TOTAL_SUPPLY + t0) * e0))))
           eqn:Hzero; [discriminate |].
  unfold dec_is_zero in Hzero. apply Z.eqb_neq in Hzero.
  intros Heq. apply (f_equal (fun x => match x with
                                       | inr y => Some y
                                       | inl _ => None
                                       end)) in Heq.
  injection Heq as <-. cbn [c_k c_t0 c_e0 c_t_at_zero c_t_at_grad
                            c_token_error_wei c_price_curve].
  repeat split; auto.
Qed.

Lemma fee_evaluate_candidate_some : forall e0 t0 c,
    evaluate_candidate e0 t0 target_fee_wei w_token w_fee w_price
    = Some c ->
    0 < e0 /\ 0 <= t0
    /\ c_k c = (TOTAL_SUPPLY + t0) * e0
    /\ c_t0 c = t0
    /\ c_e0 c = e0
    /\ c_t_at_zero c = TOTAL_SUPPLY
    /\ c_t_at_grad c
       = reserves_from_eth (c_k c) (c_t0 c) (c_e0 c) TARGET_ETH_WEI
    /\ 0 < c_t_at_grad c
    /\ c_token_error_wei c = Z.abs (c_t_at_grad c - TARGET_TOKENS)
    /\ 0 < TARGET_ETH_WEI - target_fee_wei
    /\ coeff (c_price_curve c) <> 0.
Proof.
  intros e0 t0 c. unfold evaluate_candidate.
  destruct (evaluate_candidate_at e0 t0 target_fee_wei
                                  w_token w_fee w_price)
    as [r | c'] eqn:Hat; [discriminate |].
  intros Heq. injection Heq as <-.
  apply (fee_evaluate_candidate_at_inr e0 t0). exact Hat.
Qed.

Lemma fee_never_rejected_for_identity : forall e0 t0,
    evaluate_candidate_at e0 t0 target_fee_wei w_token w_fee w_price
    <> inl ZeroIdentityFails.
Proof.
  intros e0 t0. unfold evaluate_candidate_at.
  destruct ((e0 <=? 0) || (t0 <? 0)) eqn:Hguard; [discriminate |].
  apply orb_false_iff in Hguard. destruct Hguard as [He0 _].
  apply Z.leb_gt in He0.
  rewrite (fee_reserves_at_zero e0 t0 He0), Z.eqb_refl.
  cbv beta iota zeta delta [negb].
  destruct (_ <=? 0); [discriminate |].
  destruct (_ <=? 0); [discriminate |].
  destruct (dec_is_zero _); discriminate.
Qed.

End Evaluate.

(** What the script divides by past the first guard: [k] and two
    constants; the other divisors are tested by the guards. *)
Lemma divisors_nonzero : forall e0 t0,
    (e0 <=? 0) || (t0 <? 0) = false ->
    (TOTAL_SUPPLY + t0) * e0 <> 0
    /\ TARGET_TOKENS <> 0
    /\ TARGET_FEE_WEI <> 0.
Proof.
  intros e0 t0 Hguard.
  apply orb_false_iff in Hguard. destruct Hguard as [He0 Ht0].
  apply Z.leb_gt in He0. apply Z.ltb_ge in Ht0.
  pose proof fee_TOTAL_SUPPLY_pos. pose proof TARGET_TOKENS_pos.
  rewrite TARGET_FEE_WEI_eq.
  repeat split; nia.
Qed.

(** The order that the [for] body of [search] decides. *)
Definition better (c b : Candidate) : bool :=
  dec_ltb (c_score c) (c_score b).

Definition le_score (c c' : Candidate) : Prop :=
  dec_le (c_score c) (c_score c').

Lemma le_score_refl : forall c, le_score c c.
Proof. intros c. apply dec_le_refl. Qed.

Lemma le_score_trans : forall a b c,
    le_score a b -> le_score b c -> le_score a c.
Proof. unfold le_score. intros a b c. apply dec_le_trans. Qed.

Lemma better_le_score : forall c b, better c b = true -> le_score c b.
Proof. intros c b. apply dec_ltb_le. Qed.

Lemma worse_le_score : forall c b, better c b = false -> le_score b c.
Proof. intros c b. apply dec_ltb_ge. Qed.

Lemma fee_in_candidate_t0_values : forall w e0 t0,
    In t0 (candidate_t0_values w e0)
    <-> t0_real_numerator e0 / TARGET_ETH_WEI - w <= t0
        <= t0_real_numerator e0 / TARGET_ETH_WEI + w.
Proof.
  intros w e0 t0. unfold candidate_t0_values.
  rewrite range_spec. lia.
Qed.

Lemma fee_length_candidate_t0_values : forall w e0,
    0 <= w ->
    List.length (candidate_t0_values w e0) = Z.to_nat (2 * w + 1).
Proof.
  intros w e0 Hw. unfold candidate_t0_values.
  rewrite length_range. f_equal. lia.
Qed.


Definition invalid_args (min_e0_eth max_e0_eth step_e0_eth : Decimal)
           (t0_window : Z) (target_fee_eth : Decimal) : Prop :=
  to_wei min_e0_eth <= 0
  \/ to_wei max_e0_eth < to_wei min_e0_eth
  \/ to_wei step_e0_eth <= 0
  \/ t0_window < 0
  \/ to_wei target_fee_eth <= 0
  \/ TARGET_ETH_WEI <= to_wei target_fee_eth.

Lemma fee_valid_or_invalid : forall a b c w fee,
    valid_args a b c w fee \/ invalid_args a b c w fee.
Proof. intros a b c w fee. unfold valid_args, invalid_args. lia. Qed.

Section Search.

Variables min_e0_eth max_e0_eth step_e0_eth : Decimal.
Variable t0_window : Z.
Variables target_fee_eth w_token w_fee w_price : Decimal.

Let evaluate (e0 t0 : Z) : option Candidate :=
  evaluate_candidate e0 t0 (to_wei target_fee_eth)
                     w_token w_fee w_price.

Lemma fee_update_best_select : forall e0 b t0,
    update_best (to_wei target_fee_eth) w_token w_fee w_price e0 b t0
    = select evaluate better e0 b t0.
Proof. reflexivity. Qed.

Lemma fee_search_run_invalid : forall fuel,
    invalid_args min_e0_eth max_e0_eth step_e0_eth t0_window
                 target_fee_eth ->
    exists msg,
      search_run fuel min_e0_eth max_e0_eth step_e0_eth t0_window
                 target_fee_eth w_token w_fee w_price
      = (ValueError msg, []).
Proof.
  intros fuel Hinv. unfold search_run, invalid_args in *.
  destruct (to_wei min_e0_eth <=? 0) eqn:H1; [eauto |].
  destruct (to_wei max_e0_eth <? to_wei min_e0_eth) eqn:H2; [eauto |].
  destruct (to_wei step_e0_eth <=? 0) eqn:H3; [eauto |].
  destruct (t0_window <? 0) eqn:H4; [eauto |].
  destruct ((to_wei target_fee_eth <=? 0)
            || (TARGET_ETH_WEI <=? to_wei target_fee_eth)) eqn:H5;
    [eauto |].
  apply orb_false_iff in H5. destruct H5 as [H5 H6].
  apply Z.leb_gt in H1, H3, H5, H6. apply Z.ltb_ge in H2, H4. lia.
Qed.

(** The pairs of the scan of [search]. *)
Definition scanned_pairs : list (Z * Z) :=
  scanned (candidate_t0_values t0_window)
          (to_wei min_e0_eth) (to_wei max_e0_eth) (to_wei step_e0_eth).

Lemma fee_search_run_valid : forall fuel,
    valid_args min_e0_eth max_e0_eth step_e0_eth t0_window
               target_fee_eth ->
    (search_budget min_e0_eth max_e0_eth step_e0_eth <= fuel)%nat ->
    exists best,
      search_run fuel min_e0_eth max_e0_eth step_e0_eth t0_window
                 target_fee_eth w_token w_fee w_price
      = (return_best best, scanned_pairs)
      /\ choice_of evaluate le_score scanned_pairs best.
Proof.
  intros fuel [Hmin [Hmax [Hstep [Hw [Hfee1 Hfee2]]]]] Hfuel.
  unfold search_run.
  destruct (to_wei min_e0_eth <=? 0) eqn:H1;
    [apply Z.leb_le in H1; lia |].
  destruct (to_wei max_e0_eth <? to_wei min_e0_eth) eqn:H2;
    [apply Z.ltb_lt in H2; lia |].
  destruct (to_wei step_e0_eth <=? 0) eqn:H3;
    [apply Z.leb_le in H3; lia |].
  destruct (t0_window <? 0) eqn:H4; [apply Z.ltb_lt in H4; lia |].
  destruct ((to_wei target_fee_eth <=? 0)
            || (TARGET_ETH_WEI <=? to_wei target_fee_eth)) eqn:H5.
  { apply orb_true_iff in H5. destruct H5 as [H5 | H5];
      apply Z.leb_le in H5; lia. }
  exact (conclude_scan (candidate_t0_values t0_window) evaluate better
                       _ fee_update_best_select le_score
                       le_score_refl le_score_trans better_le_score
                       worse_le_score _ _ _ Hmax Hstep fuel Hfuel).
Qed.

(** With a budget of at least [scan_rounds] rounds the call ends in the
    state reached after exactly that many rounds; with less it does
    not end. *)
Lemma fee_search_run_enough : forall fuel,
    valid_args min_e0_eth max_e0_eth step_e0_eth t0_window
               target_fee_eth ->
    (search_budget min_e0_eth max_e0_eth step_e0_eth <= fuel)%nat ->
    search_run fuel min_e0_eth max_e0_eth step_e0_eth t0_window
               target_fee_eth w_token w_fee w_price
    = conclude
        (Some (state_after
                 (candidate_t0_values t0_window)
                 (update_best (to_wei target_fee_eth)
                              w_token w_fee w_price)
                 (to_wei min_e0_eth) (to_wei step_e0_eth)
                 (search_budget min_e0_eth max_e0_eth step_e0_eth))).
Proof.
  intros fuel [Hmin [Hmax [Hstep [Hw [Hfee1 Hfee2]]]]] Hfuel.
  unfold search_run.
  destruct (to_wei min_e0_eth <=? 0) eqn:H1;
    [apply Z.leb_le in H1; lia |].
  destruct (to_wei max_e0_eth <? to_wei min_e0_eth) eqn:H2;
    [apply Z.ltb_lt in H2; lia |].
  destruct (to_wei step_e0_eth <=? 0) eqn:H3;
    [apply Z.leb_le in H3; lia |].
  destruct (t0_window <? 0) eqn:H4; [apply Z.ltb_lt in H4; lia |].
  destruct ((to_wei target_fee_eth <=? 0)
            || (TARGET_ETH_WEI <=? to_wei target_fee_eth)) eqn:H5.
  { apply orb_true_iff in H5. destruct H5 as [H5 | H5];
      apply Z.leb_le in H5; lia. }
  rewrite (scan_enough (candidate_t0_values t0_window)
                       (update_best (to_wei target_fee_eth)
                                    w_token w_fee w_price)
                       _ _ _ Hmax Hstep fuel Hfuel).
  reflexivity.
Qed.

Lemma fee_search_run_short : forall fuel,
    valid_args min_e0_eth max_e0_eth step_e0_eth t0_window
               target_fee_eth ->
    (fuel < search_budget min_e0_eth max_e0_eth step_e0_eth)%nat ->
    search_run fuel min_e0_eth max_e0_eth step_e0_eth t0_window
               target_fee_eth w_token w_fee w_price
    = (OutOfFuel, []).
Proof.
  intros fuel [Hmin [Hmax [Hstep [Hw [Hfee1 Hfee2]]]]] Hfuel.
  unfold search_run.
  destruct (to_wei min_e0_eth <=? 0) eqn:H1;
    [apply Z.leb_le in H1; lia |].
  destruct (to_wei max_e0_eth <? to_wei min_e0_eth) eqn:H2;
    [apply Z.ltb_lt in H2; lia |].
  destruct (to_wei step_e0_eth <=? 0) eqn:H3;
    [apply Z.leb_le in H3; lia |].
  destruct (t0_window <? 0) eqn:H4; [apply Z.ltb_lt in H4; lia |].
  destruct ((to_wei target_fee_eth <=? 0)
            || (TARGET_ETH_WEI <=? to_wei target_fee_eth)) eqn:H5.
  { apply orb_true_iff in H5. destruct H5 as [H5 | H5];
      apply Z.leb_le in H5; lia. }
  rewrite (scan_short (candidate_t0_values t0_window)
                      (update_best (to_wei target_fee_eth)
                                   w_token w_fee w_price)
                      _ _ _ Hmax Hstep fuel Hfuel).
  reflexivity.
Qed.

Let the_search : outcome Candidate :=
  search min_e0_eth max_e0_eth step_e0_eth t0_window
         target_fee_eth w_token w_fee w_price.

Let the_visited : list (Z * Z) :=
  visited min_e0_eth max_e0_eth step_e0_eth t0_window
          target_fee_eth w_token w_fee w_price.

Let the_valid : Prop :=
  valid_args min_e0_eth max_e0_eth step_e0_eth t0_window
             target_fee_eth.

Lemma fee_search_valid :
  the_valid ->
  exists best,
    the_search = return_best best
    /\ the_visited = scanned_pairs
    /\ choice_of evaluate le_score scanned_pairs best.
Proof.
  intros Hvalid.
  destruct (fee_search_run_valid _ Hvalid (Nat.le_refl _))
    as [best [Hrun Hchoice]].
  exists best. unfold the_search, the_visited, search, visited.
  rewrite Hrun. auto.
Qed.

Lemma fee_search_invalid :
  invalid_args min_e0_eth max_e0_eth step_e0_eth t0_window
               target_fee_eth ->
  exists msg, the_search = ValueError msg /\ the_visited = [].
Proof.
  intros Hinv.
  destruct (fee_search_run_invalid
              (search_budget min_e0_eth max_e0_eth step_e0_eth) Hinv)
    as [msg Hrun].
  exists msg. unfold the_search, the_visited, search, visited.
  rewrite Hrun. auto.
Qed.

(** A call that returns had valid arguments. *)
Lemma fee_returned_valid : forall cand,
    the_search = Returned cand -> the_valid.
Proof.
  intros cand Hret.
  destruct (fee_valid_or_invalid min_e0_eth max_e0_eth step_e0_eth
                             t0_window target_fee_eth)
    as [Hv | Hinv]; [exact Hv |].
  destruct (fee_search_invalid Hinv) as [msg [Hs _]].
  rewrite Hs in Hret. discriminate.
Qed.


(** The candidate returned has a least score among the pairs
    visited. *)
Lemma fee_search_returns_least : forall cand,
    the_search = Returned cand ->
    (exists p, In p the_visited
               /\ evaluate (fst p) (snd p) = Some cand)
    /\ forall p cand', In p the_visited ->
         evaluate (fst p) (snd p) = Some cand' ->
         dec_le (c_score cand) (c_score cand').
Proof.
  intros cand Hret.
  destruct (fee_search_valid (fee_returned_valid _ Hret))
    as [best [Hs [Hvis Hchoice]]].
  rewrite Hvis. rewrite Hs in Hret.
  destruct best as [c0 |]; [| discriminate].
  injection Hret as ->. exact Hchoice.
Qed.



(** The pairs visited: the grid points up to the bound, with the
    window of [t0] around the closed-form point. *)
Lemma fee_in_visited : forall e0 t0,
    the_valid ->
    In (e0, t0) the_visited
    <-> exists i : nat,
          e0 = to_wei min_e0_eth + Z.of_nat i * to_wei step_e0_eth
          /\ e0 <= to_wei max_e0_eth
          /\ t0_real_numerator e0 / TARGET_ETH_WEI - t0_window <= t0
             <= t0_real_numerator e0 / TARGET_ETH_WEI + t0_window.
Proof.
  intros e0 t0 Hvalid.
  destruct (fee_search_valid Hvalid) as [best [_ [Hvis _]]].
  rewrite Hvis. destruct Hvalid as [Hmin [Hmax [Hstep _]]].
  unfold scanned_pairs, scanned.
  rewrite in_scanned_pairs by assumption.
  unfold grid_point.
  split; intros [i [He0 [Hle Ht0]]]; exists i;
    (split; [exact He0 | split; [exact Hle |]]).
  - exact (proj1 (fee_in_candidate_t0_values _ _ _) Ht0).
  - exact (proj2 (fee_in_candidate_t0_values _ _ _) Ht0).
Qed.

End Search.

End GraduationFeeFacts.

(** * The properties of the specification *)

(** Decimals used in the examples. *)
Definition eth_wei (n : Z) : Decimal := mkDecimal n (-18).
Definition dec_one : Decimal := mkDecimal 1 0.
Definition dec_half : Decimal := mkDecimal 5 (-1).

(** The candidate that [Sepolia.search] returns for the scan of the one
    point 2.125 ETH. *)
Definition sepolia_candidate : Sepolia.Candidate :=
  Sepolia.mkCandidate
    2125000000000000000000000000000000000000000000
    0
    2125000000000000000
    1000000000000000000000000000
    200000000000000000000000000
    0.

(** The candidate that [GraduationFee.search] returns for the scan of
    the one point 3 ETH with no window, a target fee of 0.5 ETH and unit
    weights. *)
Definition graduation_candidate : GraduationFee.Candidate :=
  Eval vm_compute in
    match GraduationFee.search (eth_wei 3000000000000000000)
                               (eth_wei 3000000000000000000)
                               (eth_wei 1) 0 dec_half
                               dec_one dec_one dec_one with
    | Returned c => c
    | _ => GraduationFee.mkCandidate 0 0 0 0 0 0 0 0
             dec_one dec_one dec_one dec_one
    end.

Lemma sepolia_search_example :
  @Sepolia.search display_order (mkDecimal 2125 (-3)) (mkDecimal 2125 (-3))
                  (mkDecimal 1 (-4))
  = Returned sepolia_candidate.
Proof. vm_compute. reflexivity. Qed.

Lemma graduation_search_example :
  GraduationFee.search (eth_wei 3000000000000000000)
                       (eth_wei 3000000000000000000)
                       (eth_wei 1) 0 dec_half dec_one dec_one dec_one
  = Returned graduation_candidate.
Proof. vm_compute. reflexivity. Qed.

(** C1. In both scripts a candidate returned by [search] satisfies the
    zero-ETH identity exactly: [reserves_from_eth(k, t0, e0, 0)], that is
    [k // (0 + e0) - t0], equals [TOTAL_SUPPLY = 10^9 * 10^18], and this
    is the value stored in [t_at_zero].  A call that returns had a valid
    scan range, so validity is not a separate premise. *)
Theorem returned_candidate_zero_identity :
  forall (order : SetIteration)
         (min_e0_eth max_e0_eth step_e0_eth : Decimal)
         (c : Sepolia.Candidate)
         (min_e0_eth' max_e0_eth' step_e0_eth' : Decimal) (t0_window : Z)
         (target_fee_eth w_token w_fee w_price : Decimal)
         (c' : GraduationFee.Candidate),
    (Sepolia.search min_e0_eth max_e0_eth step_e0_eth = Returned c ->
     Sepolia.reserves_from_eth (Sepolia.c_k c) (Sepolia.c_t0 c)
                               (Sepolia.c_e0 c) 0
     = Sepolia.TOTAL_SUPPLY
     /\ Sepolia.c_k c / (0 + Sepolia.c_e0 c) - Sepolia.c_t0 c
        = 10 ^ 9 * 10 ^ 18
     /\ Sepolia.c_t_at_zero c = Sepolia.TOTAL_SUPPLY)
    /\ (GraduationFee.search min_e0_eth' max_e0_eth' step_e0_eth'
                             t0_window target_fee_eth
                             w_token w_fee w_price
        = Returned c' ->
        GraduationFee.reserves_from_eth
          (GraduationFee.c_k c') (GraduationFee.c_t0 c')
          (GraduationFee.c_e0 c') 0
        = GraduationFee.TOTAL_SUPPLY
        /\ GraduationFee.c_k c' / (0 + GraduationFee.c_e0 c')
           - GraduationFee.c_t0 c'
           = 10 ^ 9 * 10 ^ 18
        /\ GraduationFee.c_t_at_zero c' = GraduationFee.TOTAL_SUPPLY).
Proof.
  intros order a b s c a' b' s' w fee wt wf wp c'. split.
  - intros Hret.
    destruct (SepoliaFacts.sep_search_returns_least a b s c Hret)
      as [[p [_ Hev]] _].
    apply SepoliaFacts.sep_evaluate_candidate_some in Hev.
    destruct Hev as [He0 [Ht0 ->]].
    cbn [Sepolia.c_k Sepolia.c_t0 Sepolia.c_e0 Sepolia.c_t_at_zero].
    pose proof (SepoliaFacts.sep_reserves_at_zero (fst p) (snd p) He0) as Hid.
    split; [exact Hid | split; [exact Hid | reflexivity]].
  - intros Hret.
    destruct (GraduationFeeFacts.fee_search_returns_least
                a' b' s' w fee wt wf wp c' Hret) as [[p [_ Hev]] _].
    apply GraduationFeeFacts.fee_evaluate_candidate_some in Hev.
    destruct Hev as [He0 [Ht0 [Hk [Hct0 [Hce0 [Hz _]]]]]].
    rewrite Hk, Hct0, Hce0, Hz.
    pose proof (GraduationFeeFacts.fee_reserves_at_zero (fst p) (snd p) He0)
      as Hid.
    split; [exact Hid | split; [exact Hid | reflexivity]].
Qed.

Lemma returned_candidate_zero_identity_witness :
  (Sepolia.reserves_from_eth (Sepolia.c_k sepolia_candidate)
                             (Sepolia.c_t0 sepolia_candidate)
                             (Sepolia.c_e0 sepolia_candidate) 0
   = Sepolia.TOTAL_SUPPLY
   /\ Sepolia.c_k sepolia_candidate / (0 + Sepolia.c_e0 sepolia_candidate)
      - Sepolia.c_t0 sepolia_candidate
      = 10 ^ 9 * 10 ^ 18
   /\ Sepolia.c_t_at_zero sepolia_candidate = Sepolia.TOTAL_SUPPLY)
  /\ (GraduationFee.reserves_from_eth
        (GraduationFee.c_k graduation_candidate)
        (GraduationFee.c_t0 graduation_candidate)
        (GraduationFee.c_e0 graduation_candidate) 0
      = GraduationFee.TOTAL_SUPPLY
      /\ GraduationFee.c_k graduation_candidate
         / (0 + GraduationFee.c_e0 graduation_candidate)
         - GraduationFee.c_t0 graduation_candidate
         = 10 ^ 9 * 10 ^ 18
      /\ GraduationFee.c_t_at_zero graduation_candidate
         = GraduationFee.TOTAL_SUPPLY).
Proof.
  pose proof (returned_candidate_zero_identity
                display_order
                (mkDecimal 2125 (-3)) (mkDecimal 2125 (-3))
                (mkDecimal 1 (-4)) sepolia_candidate
                (eth_wei 3000000000000000000) (eth_wei 3000000000000000000)
                (eth_wei 1) 0 dec_half dec_one dec_one dec_one
                graduation_candidate) as [H1 H2].
  split.
  - apply H1. vm_compute. reflexivity.
  - apply H2. vm_compute. reflexivity.
Defined.

(** C2, as amended.  In both scripts the error reported by the returned
    candidate ([target_error], respectively [token_error_wei]) is the
    absolute difference between the token reserves at 8.5 ETH and
    [TARGET_TOKENS] and is non-negative, and the returned candidate is
    the evaluation of a pair that the scan visited.  In
    find_constant_product_params.py that error is the least one over
    all pairs visited for which [evaluate_candidate] returns a
    candidate.  In the graduation-fee script the scan minimises the
    composite [score] instead: the returned candidate has the least
    score over the pairs visited, and nothing is claimed of the rank of
    its [token_error_wei]. *)
Theorem returned_error_is_least :
  forall (order : SetIteration)
         (min_e0_eth max_e0_eth step_e0_eth : Decimal)
         (c : Sepolia.Candidate)
         (min_e0_eth' max_e0_eth' step_e0_eth' : Decimal) (t0_window : Z)
         (target_fee_eth w_token w_fee w_price : Decimal)
         (c' : GraduationFee.Candidate),
    (Sepolia.search min_e0_eth max_e0_eth step_e0_eth = Returned c ->
     0 <= Sepolia.c_target_error c
     /\ Sepolia.c_target_error c
        = Z.abs (Sepolia.reserves_from_eth
                   (Sepolia.c_k c) (Sepolia.c_t0 c) (Sepolia.c_e0 c)
                   Sepolia.TARGET_ETH_WEI
                 - 2 * 10 ^ 8 * 10 ^ 18)
     /\ (exists p,
            In p (Sepolia.visited min_e0_eth max_e0_eth step_e0_eth)
            /\ Sepolia.evaluate_candidate (fst p) (snd p) = Some c)
     /\ (forall p d,
            In p (Sepolia.visited min_e0_eth max_e0_eth step_e0_eth) ->
            Sepolia.evaluate_candidate (fst p) (snd p) = Some d ->
            Sepolia.c_target_error c <= Sepolia.c_target_error d))
    /\ (GraduationFee.search min_e0_eth' max_e0_eth' step_e0_eth'
                             t0_window target_fee_eth
                             w_token w_fee w_price
        = Returned c' ->
        0 <= GraduationFee.c_token_error_wei c'
        /\ GraduationFee.c_token_error_wei c'
           = Z.abs (GraduationFee.reserves_from_eth
                      (GraduationFee.c_k c') (GraduationFee.c_t0 c')
                      (GraduationFee.c_e0 c')
                      GraduationFee.TARGET_ETH_WEI
                    - 2 * 10 ^ 8 * 10 ^ 18)
        /\ (exists p,
               In p (GraduationFee.visited
                       min_e0_eth' max_e0_eth' step_e0_eth' t0_window
                       target_fee_eth w_token w_fee w_price)
               /\ GraduationFee.evaluate_candidate
                    (fst p) (snd p) (GraduationFee.to_wei target_fee_eth)
                    w_token w_fee w_price
                  = Some c')
        /\ (forall p d,
               In p (GraduationFee.visited
                       min_e0_eth' max_e0_eth' step_e0_eth' t0_window
                       target_fee_eth w_token w_fee w_price) ->
               GraduationFee.evaluate_candidate
                 (fst p) (snd p) (GraduationFee.to_wei target_fee_eth)
                 w_token w_fee w_price
               = Some d ->
               dec_le (GraduationFee.c_score c')
                      (GraduationFee.c_score d))).
Proof.
  intros order a b s c a' b' s' w fee wt wf wp c'. split.
  - intros Hret.
    destruct (SepoliaFacts.sep_search_returns_least a b s c Hret)
      as [[p [Hin Hev]] Hleast].
    pose proof (SepoliaFacts.sep_evaluate_candidate_some _ _ _ Hev)
      as [_ [_ Hc]].
    split; [rewrite Hc; apply Z.abs_nonneg |].
    split; [rewrite Hc; reflexivity |].
    split; [exists p; auto | exact Hleast].
  - intros Hret.
    destruct (GraduationFeeFacts.fee_search_returns_least
                a' b' s' w fee wt wf wp c' Hret)
      as [[p [Hin Hev]] Hleast].
    pose proof (GraduationFeeFacts.fee_evaluate_candidate_some
                  _ _ _ _ _ _ _ Hev)
      as [_ [_ [_ [_ [_ [_ [Hgrad [_ [Herr _]]]]]]]]].
    split; [rewrite Herr; apply Z.abs_nonneg |].
    split; [rewrite Herr, Hgrad; reflexivity |].
    split; [exists p; auto | exact Hleast].
Qed.

Lemma returned_error_is_least_witness :
  (0 <= Sepolia.c_target_error sepolia_candidate
   /\ (forall p d,
          In p (@Sepolia.visited display_order
                  (mkDecimal 2125 (-3)) (mkDecimal 2125 (-3))
                  (mkDecimal 1 (-4))) ->
          Sepolia.evaluate_candidate (fst p) (snd p) = Some d ->
          Sepolia.c_target_error sepolia_candidate
          <= Sepolia.c_target_error d))
  /\ (0 <= GraduationFee.c_token_error_wei graduation_candidate
      /\ (forall p d,
             In p (GraduationFee.visited
                     (eth_wei 3000000000000000000)
                     (eth_wei 3000000000000000000)
                     (eth_wei 1) 0 dec_half dec_one dec_one dec_one) ->
             GraduationFee.evaluate_candidate
               (fst p) (snd p) (GraduationFee.to_wei dec_half)
               dec_one dec_one dec_one
             = Some d ->
             dec_le (GraduationFee.c_score graduation_candidate)
                    (GraduationFee.c_score d))).
Proof.
  pose proof (returned_error_is_least
                display_order
                (mkDecimal 2125 (-3)) (mkDecimal 2125 (-3))
                (mkDecimal 1 (-4)) sepolia_candidate
                (eth_wei 3000000000000000000) (eth_wei 3000000000000000000)
                (eth_wei 1) 0 dec_half dec_one dec_one dec_one
                graduation_candidate) as [H1 H2].
  split.
  - destruct H1 as [Hpos [_ [_ Hleast]]]; [vm_compute; reflexivity |].
    split; [exact Hpos | exact Hleast].
  - destruct H2 as [Hpos [_ [_ Hleast]]]; [vm_compute; reflexivity |].
    split; [exact Hpos | exact Hleast].
Defined.

(** The arguments of a call of the graduation-fee script that scans the
    one point 3 ETH with a window of two around the closed-form [t0]. *)
Definition three_eth : Decimal := mkDecimal 3 0.
Definition floor_t0_at_three_eth : Z := 82352941176470588235294117.

(** C2 fails as stated in the graduation-fee script: for the scan of
    the one point [e0 = 3 ETH] with [t0_window = 2], target fee 0.5 ETH
    and unit weights, [search] returns a candidate whose
    [token_error_wei] is 1, while the pair of [e0] and the closed-form
    [t0] was visited and evaluates to a candidate whose
    [token_error_wei] is 0. *)
Lemma graduation_token_error_not_least :
  exists c d : GraduationFee.Candidate,
    GraduationFee.search three_eth three_eth (mkDecimal 1 (-4)) 2
                         dec_half dec_one dec_one dec_one
    = Returned c
    /\ In (3000000000000000000, floor_t0_at_three_eth)
          (GraduationFee.visited three_eth three_eth (mkDecimal 1 (-4)) 2
                                 dec_half dec_one dec_one dec_one)
    /\ GraduationFee.evaluate_candidate
         3000000000000000000 floor_t0_at_three_eth
         (GraduationFee.to_wei dec_half) dec_one dec_one dec_one
       = Some d
    /\ GraduationFee.c_token_error_wei d = 0
    /\ GraduationFee.c_token_error_wei c = 1.
Proof.
  eexists. eexists.
  split; [vm_compute; reflexivity |].
  split; [vm_compute; tauto |].
  split; [vm_compute; reflexivity |].
  split; reflexivity.
Qed.


Definition sepolia_returned (o : outcome Sepolia.Candidate)
  : Sepolia.Candidate :=
  match o with
  | Returned c => c
  | _ => sepolia_candidate
  end.

Definition graduation_returned (o : outcome GraduationFee.Candidate)
  : GraduationFee.Candidate :=
  match o with
  | Returned c => c
  | _ => graduation_candidate
  end.

(** The candidates returned for the range from 2.1249 to 2.1252 ETH
    with a step of 0.0002 ETH, respectively from 3 to 3.0002 ETH with
    the same step and a window of one. *)
Definition sepolia_coarse_candidate : Sepolia.Candidate :=
  Eval vm_compute in
    sepolia_returned
      (@Sepolia.search display_order (mkDecimal 21249 (-4))
                       (mkDecimal 21252 (-4)) (mkDecimal 2 (-4))).

Definition graduation_coarse_candidate : GraduationFee.Candidate :=
  Eval vm_compute in
    graduation_returned
      (GraduationFee.search three_eth (mkDecimal 30002 (-4))
                            (mkDecimal 2 (-4)) 1 dec_half
                            dec_one dec_one dec_one).





(** The [token_error_wei] of the returned candidate is not what the
    window improves: at [e0 = 3 ETH] it is 0 without a window and 1
    with a window of one, where the lower score is found off the
    closed-form point. *)
Lemma wider_window_token_error_can_grow :
  exists c d,
    GraduationFee.search three_eth three_eth (eth_wei 1) 0
                         dec_half dec_one dec_one dec_one
    = Returned c
    /\ GraduationFee.search three_eth three_eth (eth_wei 1) 1
                            dec_half dec_one dec_one dec_one
       = Returned d
    /\ GraduationFee.c_token_error_wei c = 0
    /\ GraduationFee.c_token_error_wei d = 1
    /\ dec_ltb (GraduationFee.c_score d) (GraduationFee.c_score c) = true.
Proof.
  eexists. eexists.
  split; [vm_compute; reflexivity |].
  split; [vm_compute; reflexivity |].
  split; [reflexivity |].
  split; [reflexivity |].
  vm_compute. reflexivity.
Qed.






(** C9.  For every [e0 > 0] and [t0 >= 0], with
    [k = (TOTAL_SUPPLY + t0) * e0], the division of [k] by [e0] is
    exact and [reserves_from_eth(k, t0, e0, 0) = k // e0 - t0] equals
    [TOTAL_SUPPLY].  The [return None] guarded by
    [t_at_zero != TOTAL_SUPPLY] is therefore never taken, in either
    script, and in find_constant_product_params.py, which has no other
    guard, such a pair always evaluates to a candidate. *)
Theorem zero_identity_branch_unreachable :
  forall (e0 t0 : Z),
    0 < e0 ->
    0 <= t0 ->
    (((Sepolia.TOTAL_SUPPLY + t0) * e0) mod e0 = 0
     /\ Sepolia.reserves_from_eth ((Sepolia.TOTAL_SUPPLY + t0) * e0)
                                  t0 e0 0
        = Sepolia.TOTAL_SUPPLY
     /\ ((Sepolia.TOTAL_SUPPLY + t0) * e0) / e0 - t0 = 10 ^ 9 * 10 ^ 18
     /\ Sepolia.evaluate_candidate_at e0 t0 <> inl ZeroIdentityFails
     /\ exists c, Sepolia.evaluate_candidate e0 t0 = Some c)
    /\ (((GraduationFee.TOTAL_SUPPLY + t0) * e0) mod e0 = 0
        /\ GraduationFee.reserves_from_eth
             ((GraduationFee.TOTAL_SUPPLY + t0) * e0) t0 e0 0
           = GraduationFee.TOTAL_SUPPLY
        /\ ((GraduationFee.TOTAL_SUPPLY + t0) * e0) / e0 - t0
           = 10 ^ 9 * 10 ^ 18
        /\ forall target_fee_wei w_token w_fee w_price,
            GraduationFee.evaluate_candidate_at
              e0 t0 target_fee_wei w_token w_fee w_price
            <> inl ZeroIdentityFails).
Proof.
  intros e0 t0 He0 Ht0. split.
  - pose proof (SepoliaFacts.sep_reserves_at_zero e0 t0 He0) as Hid.
    split; [apply Z.mod_mul; lia |].
    split; [exact Hid |].
    split.
    { unfold Sepolia.reserves_from_eth in Hid.
      rewrite Z.add_0_l in Hid. exact Hid. }
    split; [apply SepoliaFacts.sep_never_rejected_for_identity |].
    apply SepoliaFacts.evaluate_candidate_defined; assumption.
  - pose proof (GraduationFeeFacts.fee_reserves_at_zero e0 t0 He0) as Hid.
    split; [apply Z.mod_mul; lia |].
    split; [exact Hid |].
    split.
    { unfold GraduationFee.reserves_from_eth in Hid.
      rewrite Z.add_0_l in Hid. exact Hid. }
    intros fee wt wf wp.
    apply GraduationFeeFacts.fee_never_rejected_for_identity.
Qed.

Lemma zero_identity_branch_unreachable_witness :
  Sepolia.reserves_from_eth
    ((Sepolia.TOTAL_SUPPLY + 82352941176470588235294117)
     * 3000000000000000000)
    82352941176470588235294117 3000000000000000000 0
  = Sepolia.TOTAL_SUPPLY
  /\ forall target_fee_wei w_token w_fee w_price,
      GraduationFee.evaluate_candidate_at
        3000000000000000000 82352941176470588235294117
        target_fee_wei w_token w_fee w_price
      <> inl ZeroIdentityFails.
Proof.
  destruct (zero_identity_branch_unreachable
              3000000000000000000 82352941176470588235294117)
    as [[_ [H1 _]] [_ [_ [_ H2]]]].
  - lia.
  - lia.
  - split; [exact H1 | exact H2].
Defined.

(** The two scans terminate. *)

Lemma sepolia_scan_terminates :
  forall (order : SetIteration) (a b s : Decimal),
    Sepolia.valid_args a b s ->
    Z.of_nat (Sepolia.search_budget a b s)
    = (Sepolia.to_wei b - Sepolia.to_wei a) / Sepolia.to_wei s + 1
    /\ (exists final,
           runs (fun st : scan_state Sepolia.Candidate =>
                   cur_e0 st <=? Sepolia.to_wei b)
                (round Sepolia.candidate_t0_values Sepolia.update_best
                       (Sepolia.to_wei s))
                (Sepolia.search_budget a b s)
                (mkScan (Sepolia.to_wei a) None [] 0)
                final
           /\ rounds final = Sepolia.search_budget a b s
           /\ evaluated final = Sepolia.visited a b s
           /\ Sepolia.search a b s = return_best (best final))
    /\ (forall n final,
           runs (fun st : scan_state Sepolia.Candidate =>
                   cur_e0 st <=? Sepolia.to_wei b)
                (round Sepolia.candidate_t0_values Sepolia.update_best
                       (Sepolia.to_wei s))
                n (mkScan (Sepolia.to_wei a) None [] 0) final ->
           n = Sepolia.search_budget a b s)
    /\ List.length (Sepolia.visited a b s)
       = (Sepolia.search_budget a b s * 5)%nat
    /\ (forall fuel,
           (Sepolia.search_budget a b s <= fuel)%nat ->
           Sepolia.search_run fuel a b s
           = (Sepolia.search a b s, Sepolia.visited a b s))
    /\ (forall fuel,
           (fuel < Sepolia.search_budget a b s)%nat ->
           Sepolia.search_run fuel a b s = (OutOfFuel, []))
    /\ (raises (Sepolia.search a b s)
        \/ exists c, Sepolia.search a b s = Returned c).
Proof.
  intros order a b s Hvalid.
  pose proof (SepoliaFacts.sep_search_run_enough
                (Sepolia.search_budget a b s) a b s Hvalid
                (Nat.le_refl _)) as Hrun.
  assert (Hs : Sepolia.search a b s
               = return_best
                   (best (state_after
                            Sepolia.candidate_t0_values Sepolia.update_best
                            (Sepolia.to_wei a) (Sepolia.to_wei s)
                            (Sepolia.search_budget a b s)))).
  { unfold Sepolia.search. rewrite Hrun. reflexivity. }
  assert (Hv : Sepolia.visited a b s
               = grid_pairs Sepolia.candidate_t0_values
                            (Sepolia.to_wei a) (Sepolia.to_wei s)
                            (Sepolia.search_budget a b s)).
  { unfold Sepolia.visited. rewrite Hrun. reflexivity. }
  destruct Hvalid as [Hmin [Hmax Hstep]].
  split; [apply rounds_bound; assumption |].
  split.
  { eexists. split; [apply scan_runs; assumption |].
    split; [reflexivity |]. split; [symmetry; exact Hv | exact Hs]. }
  split.
  { intros n final Hruns.
    destruct (runs_functional _ _ _ _ _ Hruns _ _
                (scan_runs _ _ _ _ _ Hmax Hstep)) as [Hn _].
    exact Hn. }
  split.
  { rewrite Hv. apply length_grid_pairs.
    apply SepoliaFacts.sep_length_candidate_t0_values. }
  split.
  { intros fuel Hfuel.
    rewrite (SepoliaFacts.sep_search_run_enough
               fuel a b s (conj Hmin (conj Hmax Hstep)) Hfuel).
    rewrite Hs, Hv. reflexivity. }
  split.
  { intros fuel Hfuel.
    apply SepoliaFacts.sep_search_run_short; [| exact Hfuel].
    repeat split; assumption. }
  rewrite Hs.
  destruct (best _) as [c |]; [right; exists c; reflexivity | left; exact I].
Qed.

Lemma graduation_scan_terminates :
  forall (a b s : Decimal) (w : Z) (fee wt wf wp : Decimal),
    GraduationFee.valid_args a b s w fee ->
    Z.of_nat (GraduationFee.search_budget a b s)
    = (GraduationFee.to_wei b - GraduationFee.to_wei a)
      / GraduationFee.to_wei s + 1
    /\ (exists final,
           runs (fun st : scan_state GraduationFee.Candidate =>
                   cur_e0 st <=? GraduationFee.to_wei b)
                (round (GraduationFee.candidate_t0_values w)
                       (GraduationFee.update_best
                          (GraduationFee.to_wei fee) wt wf wp)
                       (GraduationFee.to_wei s))
                (GraduationFee.search_budget a b s)
                (mkScan (GraduationFee.to_wei a) None [] 0)
                final
           /\ rounds final = GraduationFee.search_budget a b s
           /\ evaluated final
              = GraduationFee.visited a b s w fee wt wf wp
           /\ GraduationFee.search a b s w fee wt wf wp
              = return_best (best final))
    /\ (forall n final,
           runs (fun st : scan_state GraduationFee.Candidate =>
                   cur_e0 st <=? GraduationFee.to_wei b)
                (round (GraduationFee.candidate_t0_values w)
                       (GraduationFee.update_best
                          (GraduationFee.to_wei fee) wt wf wp)
                       (GraduationFee.to_wei s))
                n (mkScan (GraduationFee.to_wei a) None [] 0) final ->
           n = GraduationFee.search_budget a b s)
    /\ List.length (GraduationFee.visited a b s w fee wt wf wp)
       = (GraduationFee.search_budget a b s * Z.to_nat (2 * w + 1))%nat
    /\ (forall fuel,
           (GraduationFee.search_budget a b s <= fuel)%nat ->
           GraduationFee.search_run fuel a b s w fee wt wf wp
           = (GraduationFee.search a b s w fee wt wf wp,
              GraduationFee.visited a b s w fee wt wf wp))
    /\ (forall fuel,
           (fuel < GraduationFee.search_budget a b s)%nat ->
           GraduationFee.search_run fuel a b s w fee wt wf wp
           = (OutOfFuel, []))
    /\ (raises (GraduationFee.search a b s w fee wt wf wp)
        \/ exists c,
            GraduationFee.search a b s w fee wt wf wp = Returned c).
Proof.
  intros a b s w fee wt wf wp Hvalid.
  pose proof (GraduationFeeFacts.fee_search_run_enough
                a b s w fee wt wf wp
                (GraduationFee.search_budget a b s) Hvalid
                (Nat.le_refl _)) as Hrun.
  assert (Hs : GraduationFee.search a b s w fee wt wf wp
               = return_best
                   (best (state_after
                            (GraduationFee.candidate_t0_values w)
                            (GraduationFee.update_best
                               (GraduationFee.to_wei fee) wt wf wp)
                            (GraduationFee.to_wei a)
                            (GraduationFee.to_wei s)
                            (GraduationFee.search_budget a b s)))).
  { unfold GraduationFee.search. rewrite Hrun. reflexivity. }
  assert (Hv : GraduationFee.visited a b s w fee wt wf wp
               = grid_pairs (GraduationFee.candidate_t0_values w)
                            (GraduationFee.to_wei a)
                            (GraduationFee.to_wei s)
                            (GraduationFee.search_budget a b s)).
  { unfold GraduationFee.visited. rewrite Hrun. reflexivity. }
  pose proof Hvalid as [Hmin [Hmax [Hstep [Hw Hfee]]]].
  split; [apply rounds_bound; assumption |].
  split.
  { eexists. split; [apply scan_runs; assumption |].
    split; [reflexivity |]. split; [symmetry; exact Hv | exact Hs]. }
  split.
  { intros n final Hruns.
    destruct (runs_functional _ _ _ _ _ Hruns _ _
                (scan_runs _ _ _ _ _ Hmax Hstep)) as [Hn _].
    exact Hn. }
  split.
  { rewrite Hv. apply length_grid_pairs. intros e0.
    apply GraduationFeeFacts.fee_length_candidate_t0_values. exact Hw. }
  split.
  { intros fuel Hfuel.
    rewrite (GraduationFeeFacts.fee_search_run_enough
               a b s w fee wt wf wp fuel Hvalid Hfuel).
    rewrite Hs, Hv. reflexivity. }
  split.
  { intros fuel Hfuel.
    apply GraduationFeeFacts.fee_search_run_short; assumption. }
  rewrite Hs.
  destruct (best _) as [c |]; [right; exists c; reflexivity | left; exact I].
Qed.

(** C10.  In both scripts, for arguments that pass the validation,
    [search] terminates.  The [while] loop over [e0] leaves after
    exactly [floor((max_e0 - min_e0) / step_e0) + 1] rounds (no run of
    the loop has another length), each round
    evaluates a fixed finite number of values of [t0] (five, respectively
    [2 * t0_window + 1]), and [search] then raises or returns.  In the
    embedding: any budget of at least that many rounds gives the result
    of [search], and a smaller one does not. *)
Theorem search_terminates :
  forall (order : SetIteration)
         (min_e0_eth max_e0_eth step_e0_eth : Decimal)
         (min_e0_eth' max_e0_eth' step_e0_eth' : Decimal) (t0_window : Z)
         (target_fee_eth w_token w_fee w_price : Decimal),
    (Sepolia.valid_args min_e0_eth max_e0_eth step_e0_eth ->
     Z.of_nat (Sepolia.search_budget min_e0_eth max_e0_eth step_e0_eth)
     = (Sepolia.to_wei max_e0_eth - Sepolia.to_wei min_e0_eth)
       / Sepolia.to_wei step_e0_eth + 1
     /\ (exists final,
            runs (fun st : scan_state Sepolia.Candidate =>
                    cur_e0 st <=? Sepolia.to_wei max_e0_eth)
                 (round Sepolia.candidate_t0_values Sepolia.update_best
                        (Sepolia.to_wei step_e0_eth))
                 (Sepolia.search_budget min_e0_eth max_e0_eth step_e0_eth)
                 (mkScan (Sepolia.to_wei min_e0_eth) None [] 0)
                 final
            /\ rounds final
               = Sepolia.search_budget min_e0_eth max_e0_eth step_e0_eth
            /\ evaluated final
               = Sepolia.visited min_e0_eth max_e0_eth step_e0_eth
            /\ Sepolia.search min_e0_eth max_e0_eth step_e0_eth
               = return_best (best final))
     /\ (forall n final,
            runs (fun st : scan_state Sepolia.Candidate =>
                    cur_e0 st <=? Sepolia.to_wei max_e0_eth)
                 (round Sepolia.candidate_t0_values Sepolia.update_best
                        (Sepolia.to_wei step_e0_eth))
                 n (mkScan (Sepolia.to_wei min_e0_eth) None [] 0) final ->
            n = Sepolia.search_budget min_e0_eth max_e0_eth step_e0_eth)
     /\ List.length (Sepolia.visited min_e0_eth max_e0_eth step_e0_eth)
        = (Sepolia.search_budget min_e0_eth max_e0_eth step_e0_eth
           * 5)%nat
     /\ (forall fuel,
            (Sepolia.search_budget min_e0_eth max_e0_eth step_e0_eth
             <= fuel)%nat ->
            Sepolia.search_run fuel min_e0_eth max_e0_eth step_e0_eth
            = (Sepolia.search min_e0_eth max_e0_eth step_e0_eth,
               Sepolia.visited min_e0_eth max_e0_eth step_e0_eth))
     /\ (forall fuel,
            (fuel < Sepolia.search_budget
                      min_e0_eth max_e0_eth step_e0_eth)%nat ->
            Sepolia.search_run fuel min_e0_eth max_e0_eth step_e0_eth
            = (OutOfFuel, []))
     /\ (raises (Sepolia.search min_e0_eth max_e0_eth step_e0_eth)
         \/ exists c,
             Sepolia.search min_e0_eth max_e0_eth step_e0_eth
             = Returned c))
    /\ (GraduationFee.valid_args
          min_e0_eth' max_e0_eth' step_e0_eth' t0_window target_fee_eth ->
        Z.of_nat (GraduationFee.search_budget
                    min_e0_eth' max_e0_eth' step_e0_eth')
        = (GraduationFee.to_wei max_e0_eth'
           - GraduationFee.to_wei min_e0_eth')
          / GraduationFee.to_wei step_e0_eth' + 1
        /\ (exists final,
               runs (fun st : scan_state GraduationFee.Candidate =>
                       cur_e0 st <=? GraduationFee.to_wei max_e0_eth')
                    (round (GraduationFee.candidate_t0_values t0_window)
                           (GraduationFee.update_best
                              (GraduationFee.to_wei target_fee_eth)
                              w_token w_fee w_price)
                           (GraduationFee.to_wei step_e0_eth'))
                    (GraduationFee.search_budget
                       min_e0_eth' max_e0_eth' step_e0_eth')
                    (mkScan (GraduationFee.to_wei min_e0_eth') None [] 0)
                    final
               /\ rounds final
                  = GraduationFee.search_budget
                      min_e0_eth' max_e0_eth' step_e0_eth'
               /\ evaluated final
                  = GraduationFee.visited
                      min_e0_eth' max_e0_eth' step_e0_eth' t0_window
                      target_fee_eth w_token w_fee w_price
               /\ GraduationFee.search
                    min_e0_eth' max_e0_eth' step_e0_eth' t0_window
                    target_fee_eth w_token w_fee w_price
                  = return_best (best final))
        /\ (forall n final,
               runs (fun st : scan_state GraduationFee.Candidate =>
                       cur_e0 st <=? GraduationFee.to_wei max_e0_eth')
                    (round (GraduationFee.candidate_t0_values t0_window)
                           (GraduationFee.update_best
                              (GraduationFee.to_wei target_fee_eth)
                              w_token w_fee w_price)
                           (GraduationFee.to_wei step_e0_eth'))
                    n (mkScan (GraduationFee.to_wei min_e0_eth') None [] 0)
                    final ->
               n = GraduationFee.search_budget
                     min_e0_eth' max_e0_eth' step_e0_eth')
        /\ List.length (GraduationFee.visited
                          min_e0_eth' max_e0_eth' step_e0_eth' t0_window
                          target_fee_eth w_token w_fee w_price)
           = (GraduationFee.search_budget
                min_e0_eth' max_e0_eth' step_e0_eth'
              * Z.to_nat (2 * t0_window + 1))%nat
        /\ (forall fuel,
               (GraduationFee.search_budget
                  min_e0_eth' max_e0_eth' step_e0_eth' <= fuel)%nat ->
               GraduationFee.search_run
                 fuel min_e0_eth' max_e0_eth' step_e0_eth' t0_window
                 target_fee_eth w_token w_fee w_price
               = (GraduationFee.search
                    min_e0_eth' max_e0_eth' step_e0_eth' t0_window
                    target_fee_eth w_token w_fee w_price,
                  GraduationFee.visited
                    min_e0_eth' max_e0_eth' step_e0_eth' t0_window
                    target_fee_eth w_token w_fee w_price))
        /\ (forall fuel,
               (fuel < GraduationFee.search_budget
                         min_e0_eth' max_e0_eth' step_e0_eth')%nat ->
               GraduationFee.search_run
                 fuel min_e0_eth' max_e0_eth' step_e0_eth' t0_window
                 target_fee_eth w_token w_fee w_price
               = (OutOfFuel, []))
        /\ (raises (GraduationFee.search
                      min_e0_eth' max_e0_eth' step_e0_eth' t0_window
                      target_fee_eth w_token w_fee w_price)
            \/ exists c,
                GraduationFee.search
                  min_e0_eth' max_e0_eth' step_e0_eth' t0_window
                  target_fee_eth w_token w_fee w_price
                = Returned c)).
Proof.
  intros order a b s a' b' s' w fee wt wf wp. split.
  - apply sepolia_scan_terminates.
  - apply graduation_scan_terminates.
Qed.

(** An instance: the scan from 0.5 to 6 ETH in steps of 0.1 ETH takes 56
    rounds and evaluates 280 pairs; the scan from 1.5 to 5 ETH in steps
    of 0.5 ETH with a window of 5 takes 8 rounds and evaluates 88
    pairs. *)
Lemma search_terminates_witness :
  (Z.of_nat (@Sepolia.search_budget (mkDecimal 5 (-1)) (mkDecimal 6 0)
                                    (mkDecimal 1 (-1)))
   = 56
   /\ List.length (@Sepolia.visited display_order (mkDecimal 5 (-1))
                                    (mkDecimal 6 0) (mkDecimal 1 (-1)))
      = 280%nat)
  /\ (Z.of_nat (GraduationFee.search_budget
                  (mkDecimal 15 (-1)) (mkDecimal 50 (-1))
                  (mkDecimal 5 (-1)))
      = 8
      /\ List.length (GraduationFee.visited
                        (mkDecimal 15 (-1)) (mkDecimal 50 (-1))
                        (mkDecimal 5 (-1)) 5 dec_half
                        dec_one dec_one dec_one)
         = 88%nat).
Proof.
  pose proof (search_terminates
                display_order
                (mkDecimal 5 (-1)) (mkDecimal 6 0) (mkDecimal 1 (-1))
                (mkDecimal 15 (-1)) (mkDecimal 50 (-1))
                (mkDecimal 5 (-1)) 5 dec_half dec_one dec_one dec_one)
    as [H1 H2].
  split.
  - destruct H1 as [Hn [_ [_ [Hlen _]]]].
    + vm_compute. repeat split; discriminate.
    + split; [rewrite Hn | rewrite Hlen]; vm_compute; reflexivity.
  - destruct H2 as [Hn [_ [_ [Hlen _]]]].
    + vm_compute. repeat split; discriminate.
    + split; [rewrite Hn | rewrite Hlen]; vm_compute; reflexivity.
Defined.

(** * Further properties of the two scripts *)

(** ** The curve around the closed-form [t0]

    [t0_real_numerator e0 / TARGET_ETH_WEI] is the real solution of
    "reserves at the target equal TARGET_TOKENS".  With [fl] its floor
    and [t0 = fl + j], the integer reserves at the target miss
    [TARGET_TOKENS] by at most [|j|]. *)

Section CurveArithmetic.

Variables TS TT TE : Z.
Hypothesis TE_pos : 0 < TE.

Lemma curve_error_bound : forall e0 fl r j,
    0 < e0 ->
    (TS - TT) * e0 - TT * TE = TE * fl + r ->
    0 <= r < TE ->
    Z.abs (((TS + (fl + j)) * e0) / (TE + e0) - (fl + j) - TT) <= Z.abs j.
Proof.
  intros e0 fl r j He0 Hnum Hr.
  set (D := TE + e0).
  assert (HD : 0 < D) by (unfold D; lia).
  replace ((TS + (fl + j)) * e0)
    with ((TT + (fl + j)) * D + (r - j * TE))
    by (unfold D; nia).
  rewrite Z.div_add_l by lia.
  destruct (Z.le_gt_cases 0 j) as [Hj | Hj].
  - assert (Hlo : - j <= (r - j * TE) / D).
    { apply Z.div_le_lower_bound; [exact HD |]. unfold D. nia. }
    assert (Hhi : (r - j * TE) / D < 1).
    { apply Z.div_lt_upper_bound; [exact HD |]. unfold D. nia. }
    lia.
  - assert (Hlo : 0 <= (r - j * TE) / D).
    { apply Z.div_pos; [nia | exact HD]. }
    assert (Hhi : (r - j * TE) / D < - j + 1).
    { apply Z.div_lt_upper_bound; [exact HD |]. unfold D. nia. }
    lia.
Qed.

End CurveArithmetic.

(** ** Decimal arithmetic: digits and rounding *)

Lemma ndigits_aux_pos : forall fuel n, 1 <= ndigits_aux fuel n.
Proof.
  induction fuel as [| fuel IH]; intros n; cbn [ndigits_aux].
  - lia.
  - destruct (n <? 10); [lia |]. specialize (IH (n / 10)). lia.
Qed.

Lemma ndigits_aux_spec : forall fuel n,
    0 < n -> n < 2 ^ Z.of_nat fuel ->
    10 ^ (ndigits_aux fuel n - 1) <= n < 10 ^ ndigits_aux fuel n.
Proof.
  induction fuel as [| fuel IH]; intros n Hpos Hfuel.
  - simpl in Hfuel. lia.
  - cbn [ndigits_aux]. destruct (n <? 10) eqn:Hlt.
    + apply Z.ltb_lt in Hlt. simpl. lia.
    + apply Z.ltb_ge in Hlt.
      assert (Hq : 0 < n / 10) by (apply Z.div_str_pos; lia).
      assert (Hqf : n / 10 < 2 ^ Z.of_nat fuel).
      { apply Z.div_lt_upper_bound; [lia |].
        rewrite Nat2Z.inj_succ, Z.pow_succ_r in Hfuel by lia.
        assert (0 < 2 ^ Z.of_nat fuel) by (apply Z.pow_pos_nonneg; lia).
        lia. }
      specialize (IH (n / 10) Hq Hqf).
      pose proof (ndigits_aux_pos fuel (n / 10)) as Ha.
      set (a := ndigits_aux fuel (n / 10)) in *.
      replace (1 + a - 1) with (Z.succ (a - 1)) by lia.
      replace (1 + a) with (Z.succ a) by lia.
      rewrite !Z.pow_succ_r by lia.
      pose proof (Z.div_mod n 10 ltac:(lia)) as Hdm.
      pose proof (Z.mod_pos_bound n 10 ltac:(lia)) as Hm.
      lia.
Qed.

(** [ndigits n] is the number of decimal digits of [n > 0]. *)
Lemma ndigits_spec : forall n,
    0 < n -> 10 ^ (ndigits n - 1) <= n < 10 ^ ndigits n.
Proof.
  intros n Hpos. unfold ndigits. rewrite Z.abs_eq by lia.
  apply ndigits_aux_spec; [exact Hpos |].
  rewrite Nat2Z.inj_succ, Z2Nat.id by apply Z.log2_nonneg.
  apply Z.log2_spec. exact Hpos.
Qed.

Lemma ndigits_pos : forall n, 1 <= ndigits n.
Proof. intros n. unfold ndigits. apply ndigits_aux_pos. Qed.

Lemma ndigits_abs : forall n, ndigits (Z.abs n) = ndigits n.
Proof.
  intros n. unfold ndigits.
  rewrite (Z.abs_eq (Z.abs n)) by apply Z.abs_nonneg. reflexivity.
Qed.

Lemma ndigits_unique : forall n d,
    0 < n -> 10 ^ (d - 1) <= n < 10 ^ d -> ndigits n = d.
Proof.
  intros n d Hpos [Hlo Hhi].
  destruct (ndigits_spec n Hpos) as [Hlo' Hhi'].
  pose proof (ndigits_pos n) as Hd.
  assert (Hd0 : 0 < d).
  { destruct (Z.le_gt_cases d 0) as [Hle | Hgt]; [| exact Hgt].
    assert (10 ^ d <= 10 ^ 0) by (apply Z.pow_le_mono_r; lia).
    simpl in H. lia. }
  assert (H1 : ndigits n - 1 < d).
  { apply (Z.pow_lt_mono_r_iff 10); lia. }
  assert (H2 : d - 1 < ndigits n).
  { apply (Z.pow_lt_mono_r_iff 10); lia. }
  lia.
Qed.

Lemma ndigits_le_iff : forall n p,
    0 < n -> 0 <= p -> (ndigits n <= p <-> n < 10 ^ p).
Proof.
  intros n p Hpos Hp.
  destruct (ndigits_spec n Hpos) as [Hlo Hhi].
  pose proof (ndigits_pos n) as Hd.
  split; intros H.
  - apply Z.lt_le_trans with (10 ^ ndigits n); [exact Hhi |].
    apply Z.pow_le_mono_r; lia.
  - assert (ndigits n - 1 < p); [| lia].
    apply (Z.pow_lt_mono_r_iff 10); lia.
Qed.

Lemma ndigits_shift : forall n k,
    0 < n -> 0 <= k -> ndigits (n * 10 ^ k) = ndigits n + k.
Proof.
  intros n k Hpos Hk.
  destruct (ndigits_spec n Hpos) as [Hlo Hhi].
  pose proof (ndigits_pos n) as Hd.
  assert (H10 : 0 < 10 ^ k) by (apply Z.pow_pos_nonneg; lia).
  apply ndigits_unique; [nia |].
  replace (ndigits n + k - 1) with ((ndigits n - 1) + k) by lia.
  rewrite !Z.pow_add_r by lia. split; nia.
Qed.

Lemma round_half_even_exact : forall n k,
    0 < k -> round_half_even (n * 10 ^ k) k = n.
Proof.
  intros n k Hk. unfold round_half_even.
  assert (H10 : 0 < 10 ^ k) by (apply Z.pow_pos_nonneg; lia).
  assert (Hh : 0 < 10 ^ (k - 1)) by (apply Z.pow_pos_nonneg; lia).
  rewrite Z.div_mul, Z.mod_mul by lia.
  replace (5 * 10 ^ (k - 1) <? 0) with false by (symmetry; apply Z.ltb_ge; lia).
  replace (0 =? 5 * 10 ^ (k - 1)) with false by (symmetry; apply Z.eqb_neq; lia).
  reflexivity.
Qed.

(** A coefficient of at most [prec] digits is left alone. *)
Lemma dec_fix_small : forall prec d,
    0 < prec -> Z.abs (coeff d) < 10 ^ prec -> dec_fix prec d = d.
Proof.
  intros prec d Hp Hc. unfold dec_fix.
  replace (ndigits (Z.abs (coeff d)) - prec <=? 0) with true;
    [reflexivity |].
  symmetry. apply Z.leb_le.
  destruct (Z.eq_dec (coeff d) 0) as [H0 | H0].
  - rewrite H0. change (ndigits (Z.abs 0)) with 1. lia.
  - assert (ndigits (Z.abs (coeff d)) <= prec); [| lia].
    apply ndigits_le_iff; lia.
Qed.

(** Rounding a coefficient [c * 10 ^ j], where [c] has at most [prec]
    digits, only drops zeros. *)
Lemma dec_fix_shifted : forall prec c j e,
    0 < prec -> c <> 0 -> Z.abs c < 10 ^ prec -> 0 <= j ->
    exists k,
      0 <= k <= j
      /\ dec_fix prec (mkDecimal (c * 10 ^ j) e)
         = mkDecimal (c * 10 ^ (j - k)) (e + k).
Proof.
  intros prec c j e Hp Hc Hlt Hj.
  assert (Hcd : ndigits (Z.abs c) <= prec)
    by (apply ndigits_le_iff; lia).
  assert (H10 : 0 < 10 ^ j) by (apply Z.pow_pos_nonneg; lia).
  unfold dec_fix. cbn [coeff expo].
  rewrite Z.abs_mul, (Z.abs_eq (10 ^ j)) by lia.
  rewrite ndigits_shift by lia.
  destruct (ndigits (Z.abs c) + j - prec <=? 0) eqn:Hk.
  - exists 0. split; [lia |]. rewrite Z.sub_0_r, Z.add_0_r. reflexivity.
  - apply Z.leb_gt in Hk.
    set (k := ndigits (Z.abs c) + j - prec) in *.
    exists k. split; [lia |].
    assert (H10' : 0 < 10 ^ (j - k)) by (apply Z.pow_pos_nonneg; lia).
    replace (Z.abs c * 10 ^ j) with ((Z.abs c * 10 ^ (j - k)) * 10 ^ k).
    2:{ rewrite <- Z.mul_assoc, <- Z.pow_add_r by lia.
        replace (j - k + k) with j by lia. reflexivity. }
    rewrite round_half_even_exact by lia.
    rewrite ndigits_shift by lia.
    replace (prec <? ndigits (Z.abs c) + (j - k)) with false
      by (symmetry; apply Z.ltb_ge; lia).
    f_equal.
    rewrite Z.sgn_mul, (Z.sgn_pos (10 ^ j)) by lia.
    rewrite Z.mul_1_r.
    transitivity ((Z.abs c * Z.sgn c) * 10 ^ (j - k)); [ring |].
    rewrite Z.abs_sgn. reflexivity.
Qed.

Lemma quot_0_any : forall b, Z.quot 0 b = 0.
Proof. intros b. destruct b; reflexivity. Qed.

(** [int(d * 10 ** 18)] for a decimal whose coefficient has at most
    [prec] digits: exact when [d] has at most 18 fractional digits,
    and otherwise the value with the amounts below one wei cut off,
    toward zero. *)
Lemma to_wei_model : forall prec c e,
    0 < prec -> Z.abs c < 10 ^ prec ->
    dec_to_int (dec_mul prec (mkDecimal c e) (dec_of_int (10 ^ 18)))
    = if -18 <=? e then c * 10 ^ (e + 18)
      else Z.quot c (10 ^ (- (e + 18))).
Proof.
  intros prec c e Hp Hlt.
  unfold dec_mul, dec_of_int. cbn [coeff expo]. rewrite Z.add_0_r.
  destruct (Z.eq_dec c 0) as [-> | Hc].
  - rewrite Z.mul_0_l, dec_fix_small by (cbn [coeff]; simpl; lia).
    unfold dec_to_int. cbn [coeff expo].
    rewrite !Z.mul_0_l, !quot_0_any.
    destruct (0 <=? e), (-18 <=? e); reflexivity.
  - destruct (dec_fix_shifted prec c 18 e Hp Hc Hlt ltac:(lia))
      as [k [Hk Heq]].
    rewrite Heq. unfold dec_to_int. cbn [coeff expo].
    destruct (0 <=? e + k) eqn:Hek.
    + apply Z.leb_le in Hek.
      replace (-18 <=? e) with true by (symmetry; apply Z.leb_le; lia).
      rewrite <- Z.mul_assoc, <- Z.pow_add_r by lia.
      f_equal. f_equal. lia.
    + apply Z.leb_gt in Hek.
      destruct (-18 <=? e) eqn:He.
      * apply Z.leb_le in He.
        replace (18 - k) with ((e + 18) + - (e + k)) by lia.
        rewrite Z.pow_add_r, Z.mul_assoc by lia.
        apply Z.quot_mul.
        assert (0 < 10 ^ (- (e + k))) by (apply Z.pow_pos_nonneg; lia).
        lia.
      * apply Z.leb_gt in He.
        replace (- (e + k)) with (- (e + 18) + (18 - k)) by lia.
        rewrite Z.pow_add_r by lia.
        assert (0 < 10 ^ (- (e + 18))) by (apply Z.pow_pos_nonneg; lia).
        assert (0 < 10 ^ (18 - k)) by (apply Z.pow_pos_nonneg; lia).
        apply Z.quot_mul_cancel_r; lia.
Qed.

(** Stripping trailing zeros keeps the number denoted, stops at the
    ideal exponent, and strips the zeros that are there. *)
Lemma strip_zeros_spec : forall fuel c e ideal,
    e <= snd (strip_zeros fuel c e ideal)
    /\ c = fst (strip_zeros fuel c e ideal)
           * 10 ^ (snd (strip_zeros fuel c e ideal) - e)
    /\ (e <= ideal -> snd (strip_zeros fuel c e ideal) <= ideal).
Proof.
  induction fuel as [| fuel IH]; intros c e ideal; cbn [strip_zeros].
  - cbn [fst snd]. rewrite Z.sub_diag, Z.mul_1_r. lia.
  - destruct ((e <? ideal) && (c mod 10 =? 0)) eqn:Hc.
    + apply andb_true_iff in Hc. destruct Hc as [He Hm].
      apply Z.ltb_lt in He. apply Z.eqb_eq in Hm.
      destruct (IH (c / 10) (e + 1) ideal) as [H1 [H2 H3]].
      set (r := strip_zeros fuel (c / 10) (e + 1) ideal) in *.
      split; [lia |]. split; [| lia].
      replace (snd r - e) with (Z.succ (snd r - (e + 1))) by lia.
      rewrite Z.pow_succ_r by lia.
      pose proof (Z.div_mod c 10 ltac:(lia)) as Hdm.
      rewrite Hm in Hdm. lia.
    + cbn [fst snd]. rewrite Z.sub_diag, Z.mul_1_r. lia.
Qed.

Lemma strip_zeros_strips : forall j fuel c e ideal x,
    (j <= fuel)%nat ->
    e + Z.of_nat j <= ideal ->
    c = x * 10 ^ Z.of_nat j ->
    e + Z.of_nat j <= snd (strip_zeros fuel c e ideal).
Proof.
  induction j as [| j IH]; intros fuel c e ideal x Hfuel He Hc.
  - pose proof (strip_zeros_spec fuel c e ideal) as [H _]. simpl. lia.
  - destruct fuel as [| fuel]; [lia |].
    cbn [strip_zeros].
    rewrite Nat2Z.inj_succ, Z.pow_succ_r in Hc by lia.
    assert (Hm : c mod 10 = 0).
    { rewrite Hc. replace (x * (10 * 10 ^ Z.of_nat j))
        with ((x * 10 ^ Z.of_nat j) * 10) by ring.
      apply Z.mod_mul. lia. }
    replace ((e <? ideal) && (c mod 10 =? 0)) with true.
    2:{ symmetry. apply andb_true_iff.
        split; [apply Z.ltb_lt; lia | apply Z.eqb_eq; exact Hm]. }
    assert (Hq : c / 10 = x * 10 ^ Z.of_nat j).
    { rewrite Hc. replace (x * (10 * 10 ^ Z.of_nat j))
        with ((x * 10 ^ Z.of_nat j) * 10) by ring.
      apply Z.div_mul. lia. }
    pose proof (IH fuel (c / 10) (e + 1) ideal x ltac:(lia) ltac:(lia) Hq).
    lia.
Qed.

(** Rounding never turns a non-zero coefficient into zero. *)
Lemma dec_fix_nonzero : forall prec d,
    0 < prec -> coeff d <> 0 -> coeff (dec_fix prec d) <> 0.
Proof.
  intros prec d Hp Hc. unfold dec_fix.
  destruct (ndigits (Z.abs (coeff d)) - prec <=? 0) eqn:Hk; [exact Hc |].
  apply Z.leb_gt in Hk.
  set (n := Z.abs (coeff d)) in *.
  set (k := ndigits n - prec) in *.
  assert (Hn : 0 < n) by (unfold n; lia).
  destruct (ndigits_spec n Hn) as [Hlo _].
  assert (H10k : 0 < 10 ^ k) by (apply Z.pow_pos_nonneg; lia).
  assert (Hq0 : 10 ^ (prec - 1) <= n / 10 ^ k).
  { apply Z.div_le_lower_bound; [exact H10k |].
    rewrite <- Z.pow_add_r by lia.
    replace (k + (prec - 1)) with (ndigits n - 1) by (unfold k; lia).
    exact Hlo. }
  assert (H1 : 1 <= 10 ^ (prec - 1)).
  { assert (0 < 10 ^ (prec - 1)) by (apply Z.pow_pos_nonneg; lia). lia. }
  assert (Hq : 1 <= round_half_even n k).
  { unfold round_half_even.
    destruct ((5 * 10 ^ (k - 1) <? n mod 10 ^ k)
              || ((n mod 10 ^ k =? 5 * 10 ^ (k - 1))
                  && Z.odd (n / 10 ^ k))); lia. }
  assert (Hs : Z.sgn (coeff d) <> 0) by lia.
  destruct (prec <? ndigits (round_half_even n k)) eqn:Hcarry;
    cbn [coeff].
  - apply Z.ltb_lt in Hcarry.
    destruct (ndigits_spec (round_half_even n k) ltac:(lia)) as [Hlo' _].
    assert (10 ^ prec <= round_half_even n k).
    { apply Z.le_trans with (10 ^ (ndigits (round_half_even n k) - 1));
        [apply Z.pow_le_mono_r; lia | exact Hlo']. }
    assert (10 ^ (prec - 1) <= round_half_even n k / 10).
    { apply Z.div_le_lower_bound; [lia |].
      replace prec with (Z.succ (prec - 1)) in H by lia.
      rewrite Z.pow_succ_r in H by lia. exact H. }
    nia.
  - nia.
Qed.

(** A quotient of non-zero decimals is not zero: the division keeps
    [prec + 1] significant digits and knows no underflow here. *)
Lemma dec_div_nonzero : forall prec a b,
    0 < prec -> coeff a <> 0 -> coeff b <> 0 ->
    coeff (dec_div prec a b) <> 0.
Proof.
  intros prec a b Hp Ha Hb. unfold dec_div.
  replace (coeff b =? 0) with false by (symmetry; apply Z.eqb_neq; exact Hb).
  replace (coeff a =? 0) with false by (symmetry; apply Z.eqb_neq; exact Ha).
  set (n := Z.abs (coeff a)). set (m := Z.abs (coeff b)).
  assert (Hn : 0 < n) by (unfold n; lia).
  assert (Hm : 0 < m) by (unfold m; lia).
  set (shift := ndigits m - ndigits n + prec + 1).
  set (num := if 0 <=? shift then n * 10 ^ shift else n).
  set (den := if 0 <=? shift then m else m * 10 ^ (- shift)).
  destruct (ndigits_spec n Hn) as [Hnlo Hnhi].
  destruct (ndigits_spec m Hm) as [Hmlo Hmhi].
  pose proof (ndigits_pos n) as Hdn. pose proof (ndigits_pos m) as Hdm.
  assert (Hden : 0 < den /\ den <= num).
  { unfold num, den. destruct (0 <=? shift) eqn:Hs.
    - apply Z.leb_le in Hs. split; [exact Hm |].
      assert (10 ^ ndigits m <= n * 10 ^ shift); [| lia].
      apply Z.le_trans with (10 ^ (ndigits n - 1) * 10 ^ shift).
      + rewrite <- Z.pow_add_r by lia. apply Z.pow_le_mono_r; lia.
      + apply Z.mul_le_mono_nonneg_r; [apply Z.pow_nonneg; lia | exact Hnlo].
    - apply Z.leb_gt in Hs.
      assert (0 < 10 ^ (- shift)) by (apply Z.pow_pos_nonneg; lia).
      split; [nia |].
      apply Z.le_trans with (10 ^ (ndigits n - 1)); [| exact Hnlo].
      apply Z.le_trans with (10 ^ ndigits m * 10 ^ (- shift)); [nia |].
      rewrite <- Z.pow_add_r by lia. apply Z.pow_le_mono_r; lia. }
  destruct Hden as [Hden Hle].
  assert (Hc : 1 <= num / den).
  { apply Z.div_le_lower_bound; lia. }
  assert (Hsign : Z.sgn (coeff a) * Z.sgn (coeff b) <> 0) by nia.
  destruct (num mod den =? 0).
  - pose proof (strip_zeros_spec (Z.to_nat (ndigits (num / den)))
                                 (num / den)
                                 (expo a - expo b - shift)
                                 (expo a - expo b)) as [_ [Hval _]].
    destruct (strip_zeros (Z.to_nat (ndigits (num / den))) (num / den)
                          (expo a - expo b - shift) (expo a - expo b))
      as [c' e'].
    cbn [fst snd] in Hval.
    apply dec_fix_nonzero; [exact Hp |]. cbn [coeff].
    intros H. apply Z.mul_eq_0 in H. destruct H as [H | H]; [auto |].
    rewrite H in Hval. lia.
  - apply dec_fix_nonzero; [exact Hp |]. cbn [coeff].
    destruct (num / den mod 5 =? 0); nia.
Qed.

(** ** Keeping the first of the least candidates

    When [better] is the strict part of a total preorder [le], the
    candidate kept after a sequence of pairs is the one of the first
    pair that attains the least value: every candidate seen before it is
    strictly worse, every candidate seen after it is not better. *)

Section FirstLeast.

Context {Cand : Type}.
Variable evaluate : Z -> Z -> option Cand.
Variable better : Cand -> Cand -> bool.
Variable le : Cand -> Cand -> Prop.
Hypothesis le_trans : forall a b c, le a b -> le b c -> le a c.
Hypothesis better_le : forall c b, better c b = true -> le c b.
Hypothesis better_strict : forall c b, better c b = true -> ~ le b c.
Hypothesis worse_le : forall c b, better c b = false -> le b c.

Definition first_least (l : list (Z * Z)) (b : option Cand) : Prop :=
  match b with
  | None => forall p, In p l -> evaluate (fst p) (snd p) = None
  | Some c =>
      exists l1 p l2,
        l = l1 ++ p :: l2
        /\ evaluate (fst p) (snd p) = Some c
        /\ (forall q d, In q l1 -> evaluate (fst q) (snd q) = Some d ->
                        ~ le d c)
        /\ (forall q d, In q l2 -> evaluate (fst q) (snd q) = Some d ->
                        le c d)
  end.

Lemma first_least_step : forall l b p,
    first_least l b ->
    first_least (l ++ [p]) (select_pair evaluate better b p).
Proof.
  intros l b p Hb. unfold select_pair, select.
  destruct (evaluate (fst p) (snd p)) as [cand |] eqn:Hev.
  - destruct b as [c |]; cbn [first_least] in Hb.
    + destruct Hb as [l1 [q [l2 [Hl [Hq [Hbefore Hafter]]]]]].
      destruct (better cand c) eqn:Hbt; cbn [first_least].
      * exists l, p, []. split; [reflexivity |]. split; [exact Hev |].
        split; [| intros x d []].
        intros x d Hin Hx Hle. rewrite Hl in Hin.
        apply in_app_or in Hin. destruct Hin as [Hin | [<- | Hin]].
        -- apply (Hbefore x d Hin Hx).
           apply le_trans with cand; [exact Hle |].
           apply better_le. exact Hbt.
        -- rewrite Hq in Hx. injection Hx as <-.
           exact (better_strict _ _ Hbt Hle).
        -- apply (better_strict _ _ Hbt).
           apply le_trans with d; [exact (Hafter x d Hin Hx) | exact Hle].
      * exists l1, q, (l2 ++ [p]).
        split; [rewrite Hl, <- app_assoc; reflexivity |].
        split; [exact Hq |]. split; [exact Hbefore |].
        intros x d Hin Hx. apply in_app_or in Hin.
        destruct Hin as [Hin | [<- | []]].
        -- exact (Hafter x d Hin Hx).
        -- rewrite Hev in Hx. injection Hx as <-.
           apply worse_le. exact Hbt.
    + cbn [first_least]. exists l, p, [].
      split; [reflexivity |]. split; [exact Hev |].
      split; [| intros x d []].
      intros x d Hin Hx. rewrite (Hb x Hin) in Hx. discriminate.
  - destruct b as [c |]; cbn [first_least] in *.
    + destruct Hb as [l1 [q [l2 [Hl [Hq [Hbefore Hafter]]]]]].
      exists l1, q, (l2 ++ [p]).
      split; [rewrite Hl, <- app_assoc; reflexivity |].
      split; [exact Hq |]. split; [exact Hbefore |].
      intros x d Hin Hx. apply in_app_or in Hin.
      destruct Hin as [Hin | [<- | []]].
      * exact (Hafter x d Hin Hx).
      * rewrite Hev in Hx. discriminate.
    + intros x Hin. apply in_app_or in Hin.
      destruct Hin as [Hin | [<- | []]]; [exact (Hb x Hin) | exact Hev].
Qed.

Lemma first_least_fold : forall l2 l1 b,
    first_least l1 b ->
    first_least (l1 ++ l2) (fold_left (select_pair evaluate better) l2 b).
Proof.
  induction l2 as [| p l2 IH]; intros l1 b Hb; simpl.
  - rewrite app_nil_r. exact Hb.
  - replace (l1 ++ p :: l2) with ((l1 ++ [p]) ++ l2)
      by (rewrite <- app_assoc; reflexivity).
    apply IH. apply first_least_step. exact Hb.
Qed.

Lemma first_least_all : forall l,
    first_least l (fold_left (select_pair evaluate better) l None).
Proof.
  intros l. apply (first_least_fold l [] None). simpl. intros p [].
Qed.

End FirstLeast.

(** ** find_constant_product_params.py, continued *)

Lemma sepolia_TOTAL_SUPPLY_eq :
  Sepolia.TOTAL_SUPPLY = 1000000000000000000000000000.
Proof. vm_compute. reflexivity. Qed.

Lemma sepolia_TARGET_TOKENS_eq :
  Sepolia.TARGET_TOKENS = 200000000000000000000000000.
Proof. vm_compute. reflexivity. Qed.



#[local] Opaque Sepolia.TARGET_ETH_WEI Sepolia.TOTAL_SUPPLY
  Sepolia.TARGET_TOKENS GraduationFee.TARGET_ETH_WEI
  GraduationFee.TOTAL_SUPPLY GraduationFee.TARGET_TOKENS
  GraduationFee.TARGET_FEE_WEI.

(** The closed-form [t0] is non-negative from [e0 = 2.125 ETH] on and
    far below zero before. *)
Lemma closed_form_threshold : forall e0,
    (2125000000000000000 <= e0 ->
     0 <= (800000000000000000000000000 * e0
           - 200000000000000000000000000 * 8500000000000000000)
          / 8500000000000000000)
    /\ (e0 < 2125000000000000000 ->
        (800000000000000000000000000 * e0
         - 200000000000000000000000000 * 8500000000000000000)
        / 8500000000000000000 <= -94117648).
Proof.
  intros e0. split; intros H.
  - apply Z.div_pos; lia.
  - assert (Hlt : (800000000000000000000000000 * e0
                   - 200000000000000000000000000 * 8500000000000000000)
                  / 8500000000000000000 < -94117647); [| lia].
    apply Z.div_lt_upper_bound; lia.
Qed.

Lemma sepolia_floor_t0 : forall e0,
    Sepolia.t0_real_numerator e0 / Sepolia.TARGET_ETH_WEI
    = (800000000000000000000000000 * e0
       - 200000000000000000000000000 * 8500000000000000000)
      / 8500000000000000000.
Proof.
  intros e0. unfold Sepolia.t0_real_numerator.
  rewrite sepolia_TOTAL_SUPPLY_eq, sepolia_TARGET_TOKENS_eq,
    SepoliaFacts.sep_TARGET_ETH_WEI_eq.
  f_equal.
Qed.


Lemma sepolia_candidate_error_bound : forall e0 t0 c,
    Sepolia.evaluate_candidate e0 t0 = Some c ->
    Sepolia.c_target_error c
    <= Z.abs (t0 - Sepolia.t0_real_numerator e0 / Sepolia.TARGET_ETH_WEI).
Proof.
  intros e0 t0 c Hev.
  apply SepoliaFacts.sep_evaluate_candidate_some in Hev.
  destruct Hev as [He0 [Ht0 ->]]. cbn [Sepolia.c_target_error].
  unfold Sepolia.reserves_from_eth.
  assert (HTE : 0 < Sepolia.TARGET_ETH_WEI)
    by (rewrite SepoliaFacts.sep_TARGET_ETH_WEI_eq; lia).
  set (fl := Sepolia.t0_real_numerator e0 / Sepolia.TARGET_ETH_WEI).
  replace t0 with (fl + (t0 - fl)) at 1 2 by lia.
  apply (curve_error_bound Sepolia.TOTAL_SUPPLY Sepolia.TARGET_TOKENS
           Sepolia.TARGET_ETH_WEI HTE e0 fl
           (Sepolia.t0_real_numerator e0 mod Sepolia.TARGET_ETH_WEI));
    [exact He0 | | apply Z.mod_pos_bound; exact HTE].
  apply Z.div_mod. lia.
Qed.

Lemma graduation_candidate_error_bound : forall e0 t0 fee wt wf wp c,
    GraduationFee.evaluate_candidate e0 t0 fee wt wf wp = Some c ->
    GraduationFee.c_token_error_wei c
    <= Z.abs (t0 - GraduationFee.t0_real_numerator e0
                   / GraduationFee.TARGET_ETH_WEI).
Proof.
  intros e0 t0 fee wt wf wp c Hev.
  apply GraduationFeeFacts.fee_evaluate_candidate_some in Hev.
  destruct Hev as [He0 [Ht0 [Hk [Hct0 [Hce0 [_ [Hgrad [_ [Herr _]]]]]]]]].
  rewrite Herr, Hgrad, Hk, Hct0, Hce0.
  unfold GraduationFee.reserves_from_eth.
  assert (HTE : 0 < GraduationFee.TARGET_ETH_WEI)
    by (rewrite GraduationFeeFacts.fee_TARGET_ETH_WEI_eq; lia).
  set (fl := GraduationFee.t0_real_numerator e0
             / GraduationFee.TARGET_ETH_WEI).
  replace t0 with (fl + (t0 - fl)) at 1 2 by lia.
  apply (curve_error_bound GraduationFee.TOTAL_SUPPLY
           GraduationFee.TARGET_TOKENS
           GraduationFee.TARGET_ETH_WEI HTE e0 fl
           (GraduationFee.t0_real_numerator e0
            mod GraduationFee.TARGET_ETH_WEI));
    [exact He0 | | apply Z.mod_pos_bound; exact HTE].
  apply Z.div_mod. lia.
Qed.

(** For valid arguments [search] is the selection over the pairs
    visited, in the order of the visit. *)
Lemma sepolia_search_fold :
  forall (order : SetIteration) (a b s : Decimal),
    Sepolia.valid_args a b s ->
    Sepolia.search a b s
    = return_best
        (fold_left (select_pair Sepolia.evaluate_candidate
                                SepoliaFacts.better)
                   (Sepolia.visited a b s) None).
Proof.
  intros order a b s Hvalid.
  pose proof (SepoliaFacts.sep_search_run_enough
                (Sepolia.search_budget a b s) a b s Hvalid
                (Nat.le_refl _)) as Hrun.
  unfold Sepolia.search, Sepolia.visited. rewrite Hrun.
  unfold conclude, state_after. cbn [fst snd best evaluated].
  rewrite (fold_upd_select
             Sepolia.evaluate_candidate SepoliaFacts.better
             Sepolia.update_best SepoliaFacts.sep_update_best_select).
  reflexivity.
Qed.

Lemma graduation_search_fold :
  forall (a b s : Decimal) (w : Z) (fee wt wf wp : Decimal),
    GraduationFee.valid_args a b s w fee ->
    GraduationFee.search a b s w fee wt wf wp
    = return_best
        (fold_left
           (select_pair
              (fun e0 t0 =>
                 GraduationFee.evaluate_candidate
                   e0 t0 (GraduationFee.to_wei fee) wt wf wp)
              GraduationFeeFacts.better)
           (GraduationFee.visited a b s w fee wt wf wp) None).
Proof.
  intros a b s w fee wt wf wp Hvalid.
  pose proof (GraduationFeeFacts.fee_search_run_enough
                a b s w fee wt wf wp
                (GraduationFee.search_budget a b s) Hvalid
                (Nat.le_refl _)) as Hrun.
  unfold GraduationFee.search, GraduationFee.visited. rewrite Hrun.
  unfold conclude, state_after. cbn [fst snd best evaluated].
  rewrite (fold_upd_select
             (fun e0 t0 =>
                GraduationFee.evaluate_candidate
                  e0 t0 (GraduationFee.to_wei fee) wt wf wp)
             GraduationFeeFacts.better
             (GraduationFee.update_best (GraduationFee.to_wei fee)
                                        wt wf wp)
             (GraduationFeeFacts.fee_update_best_select fee wt wf wp)).
  reflexivity.
Qed.

(** The order that the [for] body of the first script decides: by
    [target_error], then by [e0]. *)
Definition sepolia_lex_le (c d : Sepolia.Candidate) : Prop :=
  Sepolia.c_target_error c < Sepolia.c_target_error d
  \/ (Sepolia.c_target_error c = Sepolia.c_target_error d
      /\ Sepolia.c_e0 c <= Sepolia.c_e0 d).

Lemma sepolia_lex_trans : forall a b c,
    sepolia_lex_le a b -> sepolia_lex_le b c -> sepolia_lex_le a c.
Proof. unfold sepolia_lex_le. intros a b c Hab Hbc. lia. Qed.

Lemma sepolia_better_lex : forall c b,
    SepoliaFacts.better c b = true -> sepolia_lex_le c b.
Proof.
  unfold SepoliaFacts.better, sepolia_lex_le. intros c b H.
  apply orb_true_iff in H. destruct H as [H | H].
  - apply Z.ltb_lt in H. lia.
  - apply andb_true_iff in H. destruct H as [H1 H2].
    apply Z.eqb_eq in H1. apply Z.ltb_lt in H2. lia.
Qed.

Lemma sepolia_better_strict : forall c b,
    SepoliaFacts.better c b = true -> ~ sepolia_lex_le b c.
Proof.
  unfold SepoliaFacts.better, sepolia_lex_le. intros c b H.
  apply orb_true_iff in H. destruct H as [H | H].
  - apply Z.ltb_lt in H. lia.
  - apply andb_true_iff in H. destruct H as [H1 H2].
    apply Z.eqb_eq in H1. apply Z.ltb_lt in H2. lia.
Qed.

Lemma sepolia_worse_lex : forall c b,
    SepoliaFacts.better c b = false -> sepolia_lex_le b c.
Proof.
  unfold SepoliaFacts.better, sepolia_lex_le. intros c b H.
  apply orb_false_iff in H. destruct H as [H1 H2].
  apply Z.ltb_ge in H1.
  apply andb_false_iff in H2. destruct H2 as [H2 | H2].
  - apply Z.eqb_neq in H2. lia.
  - apply Z.ltb_ge in H2. lia.
Qed.

Lemma dec_ltb_strict : forall a b, dec_ltb a b = true -> ~ dec_le b a.
Proof.
  unfold dec_ltb, dec_le. intros a b H Hle.
  destruct (Qcompare (dec_value a) (dec_value b)) eqn:Hc; try discriminate.
  apply Qlt_alt in Hc. apply (Qlt_not_le _ _ Hc). exact Hle.
Qed.

Lemma dec_not_le_ltb : forall a b, ~ dec_le b a -> dec_ltb a b = true.
Proof.
  intros a b H. destruct (dec_ltb a b) eqn:Hc; [reflexivity |].
  destruct (H (dec_ltb_ge a b Hc)).
Qed.

Lemma sepolia_lex_refl : forall c, sepolia_lex_le c c.
Proof. intros c. unfold sepolia_lex_le. lia. Qed.

Lemma sepolia_search_lex_least :
  forall (order : SetIteration) (a b s : Decimal) (c : Sepolia.Candidate),
    Sepolia.search a b s = Returned c ->
    (exists p, In p (Sepolia.visited a b s)
               /\ Sepolia.evaluate_candidate (fst p) (snd p) = Some c)
    /\ forall q d, In q (Sepolia.visited a b s) ->
                   Sepolia.evaluate_candidate (fst q) (snd q) = Some d ->
                   sepolia_lex_le c d.
Proof.
  intros order a b s c Hret.
  pose proof (SepoliaFacts.sep_returned_valid _ _ _ _ Hret) as Hvalid.
  rewrite (sepolia_search_fold order a b s Hvalid) in Hret.
  pose proof (choice_all Sepolia.evaluate_candidate SepoliaFacts.better
                sepolia_lex_le sepolia_lex_refl sepolia_lex_trans
                sepolia_better_lex sepolia_worse_lex
                (Sepolia.visited a b s)) as Hchoice.
  destruct (fold_left _ (Sepolia.visited a b s) None) as [c0 |];
    [| discriminate].
  injection Hret as ->. exact Hchoice.
Qed.

(** At a grid point of the scan at or above 2.125 ETH the closed-form
    [t0] is tried and evaluates to a candidate of error zero. *)
Lemma sepolia_grid_point_evaluates :
  forall (order : SetIteration) (a b s : Decimal) (i : nat),
    Sepolia.valid_args a b s ->
    2125000000000000000
    <= Sepolia.to_wei a + Z.of_nat i * Sepolia.to_wei s ->
    Sepolia.to_wei a + Z.of_nat i * Sepolia.to_wei s <= Sepolia.to_wei b ->
    exists t0 d,
      In (Sepolia.to_wei a + Z.of_nat i * Sepolia.to_wei s, t0)
         (Sepolia.visited a b s)
      /\ Sepolia.evaluate_candidate
           (Sepolia.to_wei a + Z.of_nat i * Sepolia.to_wei s) t0
         = Some d
      /\ Sepolia.c_target_error d = 0
      /\ Sepolia.c_e0 d = Sepolia.to_wei a + Z.of_nat i * Sepolia.to_wei s.
Proof.
  intros order a b s i Hvalid Hlo Hhi.
  set (g := Sepolia.to_wei a + Z.of_nat i * Sepolia.to_wei s) in *.
  set (fl := Sepolia.t0_real_numerator g / Sepolia.TARGET_ETH_WEI).
  assert (Hfl : 0 <= fl).
  { unfold fl. rewrite sepolia_floor_t0.
    apply (proj1 (closed_form_threshold g)). exact Hlo. }
  destruct (SepoliaFacts.evaluate_candidate_defined g fl ltac:(lia) Hfl)
    as [d Hd].
  exists fl, d. split.
  - apply (SepoliaFacts.sep_in_visited a b s g fl Hvalid).
    exists i. fold fl. split; [reflexivity | split; [exact Hhi | lia]].
  - split; [exact Hd |].
    pose proof (sepolia_candidate_error_bound g fl d Hd) as Hb.
    fold fl in Hb. rewrite Z.sub_diag in Hb.
    pose proof (SepoliaFacts.sep_evaluate_candidate_some g fl d Hd)
      as [_ [_ Hc]].
    split.
    + assert (0 <= Sepolia.c_target_error d)
        by (rewrite Hc; apply Z.abs_nonneg).
      simpl in Hb. lia.
    + rewrite Hc. reflexivity.
Qed.

(** A pair of the scan that evaluates lies at or above 2.125 ETH. *)
Lemma sepolia_evaluated_above_threshold :
  forall (order : SetIteration) (a b s : Decimal) (e0 t0 : Z)
         (c : Sepolia.Candidate),
    Sepolia.valid_args a b s ->
    In (e0, t0) (Sepolia.visited a b s) ->
    Sepolia.evaluate_candidate e0 t0 = Some c ->
    2125000000000000000 <= e0.
Proof.
  intros order a b s e0 t0 c Hvalid Hin Hev.
  apply (SepoliaFacts.sep_in_visited a b s e0 t0 Hvalid) in Hin.
  destruct Hin as [i [_ [_ Ht0]]].
  apply SepoliaFacts.sep_evaluate_candidate_some in Hev.
  destruct Hev as [_ [Hpos _]].
  destruct (Z.le_gt_cases 2125000000000000000 e0) as [H | H]; [exact H |].
  rewrite sepolia_floor_t0 in Ht0.
  pose proof (proj2 (closed_form_threshold e0) ltac:(lia)). lia.
Qed.

Lemma sepolia_returned_facts :
  forall (order : SetIteration) (a b s : Decimal) (c : Sepolia.Candidate),
    Sepolia.search a b s = Returned c ->
    Sepolia.c_target_error c = 0
    /\ Sepolia.c_t_at_target c = Sepolia.TARGET_TOKENS
    /\ 2125000000000000000 <= Sepolia.c_e0 c
    /\ Sepolia.c_e0 c <= Sepolia.to_wei b
    /\ (exists i : nat,
           Sepolia.c_e0 c
           = Sepolia.to_wei a + Z.of_nat i * Sepolia.to_wei s)
    /\ (forall i : nat,
           2125000000000000000
           <= Sepolia.to_wei a + Z.of_nat i * Sepolia.to_wei s ->
           Sepolia.c_e0 c
           <= Sepolia.to_wei a + Z.of_nat i * Sepolia.to_wei s).
Proof.
  intros order a b s c Hret.
  pose proof (SepoliaFacts.sep_returned_valid _ _ _ _ Hret) as Hvalid.
  destruct (sepolia_search_lex_least order a b s c Hret)
    as [[[e0 t0] [Hin Hev]] Hleast].
  cbn [fst snd] in Hev.
  pose proof (sepolia_evaluated_above_threshold
                order a b s e0 t0 c Hvalid Hin Hev) as Habove.
  pose proof (SepoliaFacts.sep_evaluate_candidate_some e0 t0 c Hev)
    as [_ [_ Hc]].
  assert (He0 : Sepolia.c_e0 c = e0) by (rewrite Hc; reflexivity).
  assert (Herr : Sepolia.c_target_error c
                 = Z.abs (Sepolia.c_t_at_target c - Sepolia.TARGET_TOKENS))
    by (rewrite Hc; reflexivity).
  apply (SepoliaFacts.sep_in_visited a b s e0 t0 Hvalid) in Hin.
  destruct Hin as [i0 [Hgrid [Hmax _]]].
  assert (Hzero : Sepolia.c_target_error c = 0).
  { destruct (sepolia_grid_point_evaluates order a b s i0 Hvalid)
      as [t [d [Hind [Hd [Hd0 _]]]]]; [lia | lia |].
    pose proof (Hleast _ d Hind Hd) as Hlex.
    unfold sepolia_lex_le in Hlex.
    pose proof (Z.abs_nonneg
                  (Sepolia.c_t_at_target c - Sepolia.TARGET_TOKENS)).
    lia. }
  split; [exact Hzero |].
  split; [lia |].
  split; [lia |].
  split; [lia |].
  split; [exists i0; lia |].
  intros i Hi.
  destruct (Z.le_gt_cases
              (Sepolia.to_wei a + Z.of_nat i * Sepolia.to_wei s)
              (Sepolia.to_wei b)) as [Hle | Hgt]; [| lia].
  destruct (sepolia_grid_point_evaluates order a b s i Hvalid Hi Hle)
    as [t [d [Hind [Hd [Hd0 Hde0]]]]].
  pose proof (Hleast _ d Hind Hd) as Hlex.
  unfold sepolia_lex_le in Hlex. lia.
Qed.

(** X4.  Whenever [search] of find_constant_product_params.py returns,
    the returned candidate meets the target exactly ([target_error] is 0
    and the reserves at 8.5 ETH are [TARGET_TOKENS]) and its [e0] is the
    first point of the scan grid at or above 2.125 ETH: the scan beyond
    that point never changes the result. *)
Theorem sepolia_returns_first_exact_grid_point :
  forall (order : SetIteration)
         (min_e0_eth max_e0_eth step_e0_eth : Decimal)
         (c : Sepolia.Candidate),
    Sepolia.search min_e0_eth max_e0_eth step_e0_eth = Returned c ->
    Sepolia.c_target_error c = 0
    /\ Sepolia.c_t_at_target c = Sepolia.TARGET_TOKENS
    /\ 2125000000000000000 <= Sepolia.c_e0 c
    /\ Sepolia.c_e0 c <= Sepolia.to_wei max_e0_eth
    /\ (exists i : nat,
           Sepolia.c_e0 c
           = Sepolia.to_wei min_e0_eth
             + Z.of_nat i * Sepolia.to_wei step_e0_eth)
    /\ (forall i : nat,
           2125000000000000000
           <= Sepolia.to_wei min_e0_eth
              + Z.of_nat i * Sepolia.to_wei step_e0_eth ->
           Sepolia.c_e0 c
           <= Sepolia.to_wei min_e0_eth
              + Z.of_nat i * Sepolia.to_wei step_e0_eth).
Proof. exact sepolia_returned_facts. Qed.

Lemma sepolia_returns_first_exact_grid_point_witness :
  Sepolia.c_target_error sepolia_coarse_candidate = 0
  /\ 2125000000000000000 <= Sepolia.c_e0 sepolia_coarse_candidate
  /\ forall i : nat,
      2125000000000000000
      <= Sepolia.to_wei (mkDecimal 21249 (-4))
         + Z.of_nat i * Sepolia.to_wei (mkDecimal 2 (-4)) ->
      Sepolia.c_e0 sepolia_coarse_candidate
      <= Sepolia.to_wei (mkDecimal 21249 (-4))
         + Z.of_nat i * Sepolia.to_wei (mkDecimal 2 (-4)).
Proof.
  destruct (sepolia_returns_first_exact_grid_point
              display_order (mkDecimal 21249 (-4)) (mkDecimal 21252 (-4))
              (mkDecimal 2 (-4)) sepolia_coarse_candidate)
    as [H1 [_ [H2 [_ [_ H3]]]]].
  - vm_compute. reflexivity.
  - split; [exact H1 | split; [exact H2 | exact H3]].
Defined.

(** X5.  For arguments that pass the validation, [search] of
    find_constant_product_params.py returns a candidate exactly when a
    point of the scan grid lies between 2.125 ETH and [max_e0]; when
    every grid point up to [max_e0] is below 2.125 ETH it raises the
    [RuntimeError], and only then. *)
Theorem sepolia_returns_iff_grid_reaches_threshold :
  forall (order : SetIteration)
         (min_e0_eth max_e0_eth step_e0_eth : Decimal),
    Sepolia.valid_args min_e0_eth max_e0_eth step_e0_eth ->
    ((exists c,
         Sepolia.search min_e0_eth max_e0_eth step_e0_eth = Returned c)
     <-> exists i : nat,
          2125000000000000000
          <= Sepolia.to_wei min_e0_eth
             + Z.of_nat i * Sepolia.to_wei step_e0_eth
          <= Sepolia.to_wei max_e0_eth)
    /\ (Sepolia.search min_e0_eth max_e0_eth step_e0_eth
        = RuntimeError "No valid candidate found in the provided range"
        <-> forall i : nat,
             Sepolia.to_wei min_e0_eth
             + Z.of_nat i * Sepolia.to_wei step_e0_eth
             <= Sepolia.to_wei max_e0_eth ->
             Sepolia.to_wei min_e0_eth
             + Z.of_nat i * Sepolia.to_wei step_e0_eth
             < 2125000000000000000).
Proof.
  intros order a b s Hvalid.
  assert (Hreach :
            (exists i : nat,
                2125000000000000000
                <= Sepolia.to_wei a + Z.of_nat i * Sepolia.to_wei s
                <= Sepolia.to_wei b) ->
            exists c, Sepolia.search a b s = Returned c).
  { intros [i [Hlo Hhi]].
    destruct (sepolia_grid_point_evaluates order a b s i Hvalid Hlo Hhi)
      as [t [d [Hind [Hd _]]]].
    destruct (SepoliaFacts.sep_search_some_valid
                a b s _ d Hvalid Hind Hd) as [best [Hs _]].
    exists best. exact Hs. }
  split; split.
  - intros [c Hret].
    destruct (sepolia_returned_facts order a b s c Hret)
      as [_ [_ [Hlo [Hhi [[i Hi] _]]]]].
    exists i. lia.
  - exact Hreach.
  - intros Hraise i Hle.
    destruct (Z.le_gt_cases 2125000000000000000
                (Sepolia.to_wei a + Z.of_nat i * Sepolia.to_wei s))
      as [Hge | Hlt]; [| lia].
    destruct (Hreach (ex_intro _ i (conj Hge Hle))) as [c Hc].
    rewrite Hc in Hraise. discriminate.
  - intros Hbelow.
    apply SepoliaFacts.sep_search_none_valid; [exact Hvalid |].
    intros [e0 t0] Hin. cbn [fst snd].
    destruct (Sepolia.evaluate_candidate e0 t0) as [c |] eqn:Hev;
      [| reflexivity].
    pose proof (sepolia_evaluated_above_threshold
                  order a b s e0 t0 c Hvalid Hin Hev) as Habove.
    apply (SepoliaFacts.sep_in_visited a b s e0 t0 Hvalid) in Hin.
    destruct Hin as [i [Hgrid [Hmax _]]].
    specialize (Hbelow i). lia.
Qed.

Lemma sepolia_returns_iff_grid_reaches_threshold_witness :
  (exists c,
      @Sepolia.search display_order (mkDecimal 5 (-1)) (mkDecimal 6 0)
                      (mkDecimal 1 (-1))
      = Returned c)
  <-> exists i : nat,
      2125000000000000000
      <= Sepolia.to_wei (mkDecimal 5 (-1))
         + Z.of_nat i * Sepolia.to_wei (mkDecimal 1 (-1))
      <= Sepolia.to_wei (mkDecimal 6 0).
Proof.
  apply (sepolia_returns_iff_grid_reaches_threshold
           display_order (mkDecimal 5 (-1)) (mkDecimal 6 0)
           (mkDecimal 1 (-1))).
  vm_compute. repeat split; discriminate.
Defined.

(** ** find_constant_product_params_with_graduation_fee.py, continued *)

Lemma graduation_price_curve_nonzero : forall e0 t0,
    0 < e0 -> 0 <= t0 ->
    dec_is_zero
      (dec_div GraduationFee.prec
               (dec_of_int ((GraduationFee.TARGET_ETH_WEI + e0) ^ 2))
               (dec_of_int ((GraduationFee.TOTAL_SUPPLY + t0) * e0)))
    = false.
Proof.
  intros e0 t0 He0 Ht0. unfold dec_is_zero. apply Z.eqb_neq.
  pose proof GraduationFeeFacts.fee_TOTAL_SUPPLY_pos as HTS.
  assert (HTE : 0 < GraduationFee.TARGET_ETH_WEI)
    by (rewrite GraduationFeeFacts.fee_TARGET_ETH_WEI_eq; lia).
  apply dec_div_nonzero; unfold dec_of_int; cbn [coeff].
  - reflexivity.
  - apply Z.pow_nonzero; lia.
  - nia.
Qed.

(** Which exit [evaluate_candidate] takes, by the order of its guards. *)
Lemma graduation_evaluate_cases : forall e0 t0 fee wt wf wp,
    match GraduationFee.evaluate_candidate_at e0 t0 fee wt wf wp with
    | inl NonPositiveInput => e0 <= 0 \/ t0 < 0
    | inl ZeroIdentityFails => False
    | inl NoReservesAtTarget =>
        0 < e0 /\ 0 <= t0
        /\ GraduationFee.reserves_from_eth
             ((GraduationFee.TOTAL_SUPPLY + t0) * e0) t0 e0
             GraduationFee.TARGET_ETH_WEI <= 0
    | inl FeeExceedsTarget =>
        0 < e0 /\ 0 <= t0
        /\ 0 < GraduationFee.reserves_from_eth
                 ((GraduationFee.TOTAL_SUPPLY + t0) * e0) t0 e0
                 GraduationFee.TARGET_ETH_WEI
        /\ GraduationFee.TARGET_ETH_WEI <= fee
    | inl ZeroCurvePrice => False
    | inr c =>
        0 < e0 /\ 0 <= t0
        /\ 0 < GraduationFee.reserves_from_eth
                 ((GraduationFee.TOTAL_SUPPLY + t0) * e0) t0 e0
                 GraduationFee.TARGET_ETH_WEI
        /\ fee < GraduationFee.TARGET_ETH_WEI
    end.
Proof.
  intros e0 t0 fee wt wf wp. unfold GraduationFee.evaluate_candidate_at.
  destruct ((e0 <=? 0) || (t0 <? 0)) eqn:Hguard.
  { apply orb_true_iff in Hguard. destruct Hguard as [H | H];
      [apply Z.leb_le in H | apply Z.ltb_lt in H]; lia. }
  apply orb_false_iff in Hguard. destruct Hguard as [He0 Ht0].
  apply Z.leb_gt in He0. apply Z.ltb_ge in Ht0.
  rewrite (GraduationFeeFacts.fee_reserves_at_zero e0 t0 He0), Z.eqb_refl.
  cbv beta iota zeta delta [negb].
  destruct (GraduationFee.reserves_from_eth
              ((GraduationFee.TOTAL_SUPPLY + t0) * e0) t0 e0
              GraduationFee.TARGET_ETH_WEI <=? 0) eqn:Hgrad.
  { apply Z.leb_le in Hgrad. auto. }
  apply Z.leb_gt in Hgrad.
  destruct (GraduationFee.TARGET_ETH_WEI - fee <=? 0) eqn:Hfee.
  { apply Z.leb_le in Hfee. repeat split; auto; lia. }
  apply Z.leb_gt in Hfee.
  rewrite (graduation_price_curve_nonzero e0 t0 He0 Ht0).
  repeat split; auto; lia.
Qed.

(** X8.  In the graduation-fee script [evaluate_candidate] returns
    [None] exactly when [e0 <= 0], or [t0 < 0], or the token reserves at
    8.5 ETH are not positive, or the target fee is not below
    [TARGET_ETH_WEI].  The guard [price_curve == 0] is never taken: the
    quotient of two positive integers is never rounded to zero. *)
Theorem graduation_rejects_exactly :
  forall (e0 t0 target_fee_wei : Z) (w_token w_fee w_price : Decimal),
    (GraduationFee.evaluate_candidate
       e0 t0 target_fee_wei w_token w_fee w_price = None
     <-> (e0 <= 0
          \/ t0 < 0
          \/ GraduationFee.reserves_from_eth
               ((GraduationFee.TOTAL_SUPPLY + t0) * e0) t0 e0
               GraduationFee.TARGET_ETH_WEI <= 0
          \/ GraduationFee.TARGET_ETH_WEI <= target_fee_wei))
    /\ GraduationFee.evaluate_candidate_at
         e0 t0 target_fee_wei w_token w_fee w_price
       <> inl ZeroCurvePrice.
Proof.
  intros e0 t0 fee wt wf wp.
  pose proof (graduation_evaluate_cases e0 t0 fee wt wf wp) as Hcases.
  unfold GraduationFee.evaluate_candidate.
  destruct (GraduationFee.evaluate_candidate_at e0 t0 fee wt wf wp)
    as [[| | | |] | c].
  - split; [| discriminate]. split; [intros _; lia | reflexivity].
  - destruct Hcases.
  - split; [| discriminate]. split; [intros _; lia | reflexivity].
  - split; [| discriminate]. split; [intros _; lia | reflexivity].
  - destruct Hcases.
  - split; [| discriminate]. split; [discriminate | intros H; lia].
Qed.


(** X6.  The parameters that [search] returns are consistent and lie
    within the scan, in both scripts: [k = (TOTAL_SUPPLY + t0) * e0] is
    positive, [e0] is a point of the grid [min_e0 + i * step_e0] between
    [min_e0] and [max_e0], and [t0] is non-negative and at most 2,
    respectively [t0_window], away from the closed-form value
    [t0_real_numerator(e0) // TARGET_ETH_WEI]. *)
Theorem returned_parameters_in_range :
  forall (order : SetIteration)
         (min_e0_eth max_e0_eth step_e0_eth : Decimal)
         (c : Sepolia.Candidate)
         (min_e0_eth' max_e0_eth' step_e0_eth' : Decimal) (t0_window : Z)
         (target_fee_eth w_token w_fee w_price : Decimal)
         (c' : GraduationFee.Candidate),
    (Sepolia.search min_e0_eth max_e0_eth step_e0_eth = Returned c ->
     Sepolia.c_k c
     = (Sepolia.TOTAL_SUPPLY + Sepolia.c_t0 c) * Sepolia.c_e0 c
     /\ 0 < Sepolia.c_k c
     /\ Sepolia.to_wei min_e0_eth <= Sepolia.c_e0 c
        <= Sepolia.to_wei max_e0_eth
     /\ (exists i : nat,
            Sepolia.c_e0 c
            = Sepolia.to_wei min_e0_eth
              + Z.of_nat i * Sepolia.to_wei step_e0_eth)
     /\ 0 <= Sepolia.c_t0 c
     /\ Z.abs (Sepolia.c_t0 c
               - Sepolia.t0_real_numerator (Sepolia.c_e0 c)
                 / Sepolia.TARGET_ETH_WEI) <= 2)
    /\ (GraduationFee.search min_e0_eth' max_e0_eth' step_e0_eth'
                             t0_window target_fee_eth
                             w_token w_fee w_price
        = Returned c' ->
        GraduationFee.c_k c'
        = (GraduationFee.TOTAL_SUPPLY + GraduationFee.c_t0 c')
          * GraduationFee.c_e0 c'
        /\ 0 < GraduationFee.c_k c'
        /\ GraduationFee.to_wei min_e0_eth' <= GraduationFee.c_e0 c'
           <= GraduationFee.to_wei max_e0_eth'
        /\ (exists i : nat,
               GraduationFee.c_e0 c'
               = GraduationFee.to_wei min_e0_eth'
                 + Z.of_nat i * GraduationFee.to_wei step_e0_eth')
        /\ 0 <= GraduationFee.c_t0 c'
        /\ Z.abs (GraduationFee.c_t0 c'
                  - GraduationFee.t0_real_numerator (GraduationFee.c_e0 c')
                    / GraduationFee.TARGET_ETH_WEI) <= t0_window
        /\ 0 < GraduationFee.c_t_at_grad c').
Proof.
  intros order a b s c a' b' s' w fee wt wf wp c'. split.
  - intros Hret.
    pose proof (SepoliaFacts.sep_returned_valid _ _ _ _ Hret) as Hvalid.
    destruct (SepoliaFacts.sep_search_returns_least a b s c Hret)
      as [[[e0 t0] [Hin Hev]] _].
    cbn [fst snd] in Hev.
    apply (SepoliaFacts.sep_in_visited a b s e0 t0 Hvalid) in Hin.
    destruct Hin as [i [Hgrid [Hmax Ht0]]].
    apply SepoliaFacts.sep_evaluate_candidate_some in Hev.
    destruct Hev as [He0 [Hpos ->]].
    cbn [Sepolia.c_k Sepolia.c_t0 Sepolia.c_e0].
    pose proof SepoliaFacts.sep_TOTAL_SUPPLY_pos as HTS.
    destruct Hvalid as [Hmin [_ Hstep]].
    split; [reflexivity |].
    split; [nia |].
    split; [nia |].
    split; [exists i; exact Hgrid |].
    split; [exact Hpos | lia].
  - intros Hret.
    pose proof (GraduationFeeFacts.fee_returned_valid
                  _ _ _ _ _ _ _ _ _ Hret) as Hvalid.
    destruct (GraduationFeeFacts.fee_search_returns_least
                _ _ _ _ _ _ _ _ _ Hret)
      as [[[e0 t0] [Hin Hev]] _].
    cbn [fst snd] in Hev.
    apply (GraduationFeeFacts.fee_in_visited
             a' b' s' w fee wt wf wp e0 t0 Hvalid) in Hin.
    destruct Hin as [i [Hgrid [Hmax Ht0]]].
    apply GraduationFeeFacts.fee_evaluate_candidate_some in Hev.
    destruct Hev as [He0 [Hpos [Hk [Hct0 [Hce0 [_ [_ [Hgrad _]]]]]]]].
    rewrite Hk, Hct0, Hce0.
    pose proof GraduationFeeFacts.fee_TOTAL_SUPPLY_pos as HTS.
    destruct Hvalid as [Hmin [_ [Hstep _]]].
    split; [reflexivity |].
    split; [nia |].
    split; [nia |].
    split; [exists i; exact Hgrid |].
    split; [exact Hpos |].
    split; [lia | exact Hgrad].
Qed.

Lemma returned_parameters_in_range_witness :
  (Sepolia.c_k sepolia_coarse_candidate
   = (Sepolia.TOTAL_SUPPLY + Sepolia.c_t0 sepolia_coarse_candidate)
     * Sepolia.c_e0 sepolia_coarse_candidate
   /\ Sepolia.to_wei (mkDecimal 21249 (-4))
      <= Sepolia.c_e0 sepolia_coarse_candidate
      <= Sepolia.to_wei (mkDecimal 21252 (-4)))
  /\ (GraduationFee.c_k graduation_coarse_candidate
      = (GraduationFee.TOTAL_SUPPLY
         + GraduationFee.c_t0 graduation_coarse_candidate)
        * GraduationFee.c_e0 graduation_coarse_candidate
      /\ GraduationFee.to_wei three_eth
         <= GraduationFee.c_e0 graduation_coarse_candidate
         <= GraduationFee.to_wei (mkDecimal 30002 (-4))).
Proof.
  pose proof (returned_parameters_in_range
                display_order
                (mkDecimal 21249 (-4)) (mkDecimal 21252 (-4))
                (mkDecimal 2 (-4)) sepolia_coarse_candidate
                three_eth (mkDecimal 30002 (-4)) (mkDecimal 2 (-4)) 1
                dec_half dec_one dec_one dec_one
                graduation_coarse_candidate) as [H1 H2].
  split.
  - destruct H1 as [Hk [_ [He0 _]]]; [vm_compute; reflexivity |].
    split; [exact Hk | exact He0].
  - destruct H2 as [Hk [_ [He0 _]]]; [vm_compute; reflexivity |].
    split; [exact Hk | exact He0].
Defined.

(** X7.  In the graduation-fee script the [token_error_wei] of the
    returned candidate is at most [t0_window]: the reserves at 8.5 ETH
    miss [TARGET_TOKENS] by no more than the distance of [t0] from its
    closed-form value.  With [t0_window = 0] the target is met
    exactly. *)
Theorem graduation_token_error_within_window :
  forall (min_e0_eth max_e0_eth step_e0_eth : Decimal) (t0_window : Z)
         (target_fee_eth w_token w_fee w_price : Decimal)
         (c : GraduationFee.Candidate),
    GraduationFee.search min_e0_eth max_e0_eth step_e0_eth t0_window
                         target_fee_eth w_token w_fee w_price
    = Returned c ->
    0 <= GraduationFee.c_token_error_wei c <= t0_window
    /\ GraduationFee.TARGET_TOKENS - t0_window
       <= GraduationFee.c_t_at_grad c
       <= GraduationFee.TARGET_TOKENS + t0_window.
Proof.
  intros a b s w fee wt wf wp c Hret.
  pose proof (GraduationFeeFacts.fee_returned_valid
                _ _ _ _ _ _ _ _ _ Hret) as Hvalid.
  destruct (GraduationFeeFacts.fee_search_returns_least
              _ _ _ _ _ _ _ _ _ Hret)
    as [[[e0 t0] [Hin Hev]] _].
  cbn [fst snd] in Hev.
  apply (GraduationFeeFacts.fee_in_visited
           a b s w fee wt wf wp e0 t0 Hvalid) in Hin.
  destruct Hin as [i [_ [_ Ht0]]].
  pose proof (graduation_candidate_error_bound _ _ _ _ _ _ _ Hev) as Hb.
  apply GraduationFeeFacts.fee_evaluate_candidate_some in Hev.
  destruct Hev as [_ [_ [_ [_ [_ [_ [_ [_ [Herr _]]]]]]]]].
  lia.
Qed.

Lemma graduation_token_error_within_window_witness :
  0 <= GraduationFee.c_token_error_wei graduation_coarse_candidate <= 1.
Proof.
  apply (graduation_token_error_within_window
           three_eth (mkDecimal 30002 (-4)) (mkDecimal 2 (-4)) 1
           dec_half dec_one dec_one dec_one graduation_coarse_candidate).
  vm_compute. reflexivity.
Defined.



(** X10.  Ties are broken by the order of the visit, in both scripts:
    [search] returns the candidate of the first visited pair that
    attains the least value.  Every candidate evaluated before it is
    strictly worse and every candidate evaluated after it is not
    better, where "worse" compares [target_error] and then [e0] in
    find_constant_product_params.py and the [score] in the graduation-fee
    script. *)
Theorem search_keeps_first_least :
  forall (order : SetIteration)
         (min_e0_eth max_e0_eth step_e0_eth : Decimal)
         (c : Sepolia.Candidate)
         (min_e0_eth' max_e0_eth' step_e0_eth' : Decimal) (t0_window : Z)
         (target_fee_eth w_token w_fee w_price : Decimal)
         (c' : GraduationFee.Candidate),
    (Sepolia.search min_e0_eth max_e0_eth step_e0_eth = Returned c ->
     exists l1 p l2,
       Sepolia.visited min_e0_eth max_e0_eth step_e0_eth = l1 ++ p :: l2
       /\ Sepolia.evaluate_candidate (fst p) (snd p) = Some c
       /\ (forall q d,
              In q l1 ->
              Sepolia.evaluate_candidate (fst q) (snd q) = Some d ->
              Sepolia.c_target_error c < Sepolia.c_target_error d
              \/ (Sepolia.c_target_error c = Sepolia.c_target_error d
                  /\ Sepolia.c_e0 c < Sepolia.c_e0 d))
       /\ (forall q d,
              In q l2 ->
              Sepolia.evaluate_candidate (fst q) (snd q) = Some d ->
              Sepolia.c_target_error c < Sepolia.c_target_error d
              \/ (Sepolia.c_target_error c = Sepolia.c_target_error d
                  /\ Sepolia.c_e0 c <= Sepolia.c_e0 d)))
    /\ (GraduationFee.search min_e0_eth' max_e0_eth' step_e0_eth'
                             t0_window target_fee_eth
                             w_token w_fee w_price
        = Returned c' ->
        exists l1 p l2,
          GraduationFee.visited min_e0_eth' max_e0_eth' step_e0_eth'
                                t0_window target_fee_eth
                                w_token w_fee w_price
          = l1 ++ p :: l2
          /\ GraduationFee.evaluate_candidate
               (fst p) (snd p) (GraduationFee.to_wei target_fee_eth)
               w_token w_fee w_price
             = Some c'
          /\ (forall q d,
                 In q l1 ->
                 GraduationFee.evaluate_candidate
                   (fst q) (snd q) (GraduationFee.to_wei target_fee_eth)
                   w_token w_fee w_price
                 = Some d ->
                 dec_ltb (GraduationFee.c_score c')
                         (GraduationFee.c_score d) = true)
          /\ (forall q d,
                 In q l2 ->
                 GraduationFee.evaluate_candidate
                   (fst q) (snd q) (GraduationFee.to_wei target_fee_eth)
                   w_token w_fee w_price
                 = Some d ->
                 dec_le (GraduationFee.c_score c')
                        (GraduationFee.c_score d))).
Proof.
  intros order a b s c a' b' s' w fee wt wf wp c'. split.
  - intros Hret.
    pose proof (SepoliaFacts.sep_returned_valid _ _ _ _ Hret) as Hvalid.
    rewrite (sepolia_search_fold order a b s Hvalid) in Hret.
    pose proof (first_least_all
                  Sepolia.evaluate_candidate SepoliaFacts.better
                  sepolia_lex_le sepolia_lex_trans sepolia_better_lex
                  sepolia_better_strict sepolia_worse_lex
                  (Sepolia.visited a b s)) as Hfirst.
    destruct (fold_left _ (Sepolia.visited a b s) None) as [c0 |];
      [| discriminate].
    injection Hret as ->. cbn [first_least] in Hfirst.
    destruct Hfirst as [l1 [p [l2 [Hl [Hp [Hbefore Hafter]]]]]].
    exists l1, p, l2.
    split; [exact Hl |]. split; [exact Hp |]. split.
    + intros q d Hin Hq. pose proof (Hbefore q d Hin Hq) as H.
      unfold sepolia_lex_le in H. lia.
    + intros q d Hin Hq. exact (Hafter q d Hin Hq).
  - intros Hret.
    pose proof (GraduationFeeFacts.fee_returned_valid
                  _ _ _ _ _ _ _ _ _ Hret) as Hvalid.
    rewrite (graduation_search_fold a' b' s' w fee wt wf wp Hvalid)
      in Hret.
    pose proof (first_least_all
                  (fun e0 t0 =>
                     GraduationFee.evaluate_candidate
                       e0 t0 (GraduationFee.to_wei fee) wt wf wp)
                  GraduationFeeFacts.better
                  GraduationFeeFacts.le_score
                  GraduationFeeFacts.le_score_trans
                  GraduationFeeFacts.better_le_score
                  (fun x y => dec_ltb_strict _ _)
                  GraduationFeeFacts.worse_le_score
                  (GraduationFee.visited a' b' s' w fee wt wf wp))
      as Hfirst.
    destruct (fold_left _ (GraduationFee.visited a' b' s' w fee wt wf wp)
                        None) as [c0 |]; [| discriminate].
    injection Hret as ->. cbn [first_least] in Hfirst.
    destruct Hfirst as [l1 [p [l2 [Hl [Hp [Hbefore Hafter]]]]]].
    exists l1, p, l2.
    split; [exact Hl |]. split; [exact Hp |]. split.
    + intros q d Hin Hq. apply dec_not_le_ltb.
      exact (Hbefore q d Hin Hq).
    + intros q d Hin Hq. exact (Hafter q d Hin Hq).
Qed.

Lemma search_keeps_first_least_witness :
  (exists l1 p l2,
      @Sepolia.visited display_order (mkDecimal 2125 (-3))
                       (mkDecimal 2125 (-3)) (mkDecimal 1 (-4))
      = l1 ++ p :: l2
      /\ Sepolia.evaluate_candidate (fst p) (snd p)
         = Some sepolia_candidate
      /\ (forall q d,
             In q l1 ->
             Sepolia.evaluate_candidate (fst q) (snd q) = Some d ->
             Sepolia.c_target_error sepolia_candidate
             < Sepolia.c_target_error d
             \/ (Sepolia.c_target_error sepolia_candidate
                 = Sepolia.c_target_error d
                 /\ Sepolia.c_e0 sepolia_candidate < Sepolia.c_e0 d))
      /\ (forall q d,
             In q l2 ->
             Sepolia.evaluate_candidate (fst q) (snd q) = Some d ->
             Sepolia.c_target_error sepolia_candidate
             < Sepolia.c_target_error d
             \/ (Sepolia.c_target_error sepolia_candidate
                 = Sepolia.c_target_error d
                 /\ Sepolia.c_e0 sepolia_candidate <= Sepolia.c_e0 d)))
  /\ (exists l1 p l2,
         GraduationFee.visited (eth_wei 3000000000000000000)
                               (eth_wei 3000000000000000000)
                               (eth_wei 1) 0 dec_half
                               dec_one dec_one dec_one
         = l1 ++ p :: l2
         /\ GraduationFee.evaluate_candidate
              (fst p) (snd p) (GraduationFee.to_wei dec_half)
              dec_one dec_one dec_one
            = Some graduation_candidate
         /\ (forall q d,
                In q l1 ->
                GraduationFee.evaluate_candidate
                  (fst q) (snd q) (GraduationFee.to_wei dec_half)
                  dec_one dec_one dec_one
                = Some d ->
                dec_ltb (GraduationFee.c_score graduation_candidate)
                        (GraduationFee.c_score d) = true)
         /\ (forall q d,
                In q l2 ->
                GraduationFee.evaluate_candidate
                  (fst q) (snd q) (GraduationFee.to_wei dec_half)
                  dec_one dec_one dec_one
                = Some d ->
                dec_le (GraduationFee.c_score graduation_candidate)
                       (GraduationFee.c_score d))).
Proof.
  pose proof (search_keeps_first_least
                display_order
                (mkDecimal 2125 (-3)) (mkDecimal 2125 (-3))
                (mkDecimal 1 (-4)) sepolia_candidate
                (eth_wei 3000000000000000000) (eth_wei 3000000000000000000)
                (eth_wei 1) 0 dec_half dec_one dec_one dec_one
                graduation_candidate) as [H1 H2].
  split.
  - apply H1. vm_compute. reflexivity.
  - apply H2. vm_compute. reflexivity.
Defined.

(** X3.  In both scripts a candidate's error at the target is bounded
    by the distance of its [t0] from the closed-form value
    [t0_real_numerator(e0) // TARGET_ETH_WEI]; at the closed-form value
    itself the reserves at 8.5 ETH are exactly [TARGET_TOKENS]. *)
Theorem candidate_error_within_t0_distance :
  forall (e0 t0 : Z) (c : Sepolia.Candidate)
         (target_fee_wei : Z) (w_token w_fee w_price : Decimal)
         (c' : GraduationFee.Candidate),
    (Sepolia.evaluate_candidate e0 t0 = Some c ->
     Sepolia.c_target_error c
     <= Z.abs (t0 - Sepolia.t0_real_numerator e0 / Sepolia.TARGET_ETH_WEI)
     /\ (t0 = Sepolia.t0_real_numerator e0 / Sepolia.TARGET_ETH_WEI ->
         Sepolia.c_t_at_target c = Sepolia.TARGET_TOKENS))
    /\ (GraduationFee.evaluate_candidate
          e0 t0 target_fee_wei w_token w_fee w_price = Some c' ->
        GraduationFee.c_token_error_wei c'
        <= Z.abs (t0 - GraduationFee.t0_real_numerator e0
                       / GraduationFee.TARGET_ETH_WEI)
        /\ (t0 = GraduationFee.t0_real_numerator e0
                 / GraduationFee.TARGET_ETH_WEI ->
            GraduationFee.c_t_at_grad c' = GraduationFee.TARGET_TOKENS)).
Proof.
  intros e0 t0 c fee wt wf wp c'. split.
  - intros Hev.
    pose proof (sepolia_candidate_error_bound e0 t0 c Hev) as Hb.
    split; [exact Hb |].
    intros Ht0. rewrite <- Ht0, Z.sub_diag in Hb.
    apply SepoliaFacts.sep_evaluate_candidate_some in Hev.
    destruct Hev as [_ [_ Hc]]. rewrite Hc in Hb |- *.
    cbn [Sepolia.c_target_error Sepolia.c_t_at_target] in *.
    simpl Z.abs in Hb at 2. lia.
  - intros Hev.
    pose proof (graduation_candidate_error_bound _ _ _ _ _ _ _ Hev) as Hb.
    split; [exact Hb |].
    intros Ht0. rewrite <- Ht0, Z.sub_diag in Hb.
    apply GraduationFeeFacts.fee_evaluate_candidate_some in Hev.
    destruct Hev as [_ [_ [_ [_ [_ [_ [_ [_ [Herr _]]]]]]]]].
    simpl Z.abs in Hb at 1. lia.
Qed.

Definition sepolia_offset_candidate : Sepolia.Candidate :=
  Eval vm_compute in
    match Sepolia.evaluate_candidate
            3000000000000000000 82352941176470588235294119 with
    | Some c => c
    | None => sepolia_candidate
    end.

Definition graduation_offset_candidate : GraduationFee.Candidate :=
  Eval vm_compute in
    match GraduationFee.evaluate_candidate
            3000000000000000000 82352941176470588235294119
            500000000000000000 dec_one dec_one dec_one with
    | Some c => c
    | None => graduation_candidate
    end.

Lemma candidate_error_within_t0_distance_witness :
  Sepolia.c_target_error sepolia_offset_candidate
  <= Z.abs (82352941176470588235294119
            - Sepolia.t0_real_numerator 3000000000000000000
              / Sepolia.TARGET_ETH_WEI)
  /\ GraduationFee.c_token_error_wei graduation_offset_candidate
     <= Z.abs (82352941176470588235294119
               - GraduationFee.t0_real_numerator 3000000000000000000
                 / GraduationFee.TARGET_ETH_WEI).
Proof.
  pose proof (candidate_error_within_t0_distance
                3000000000000000000 82352941176470588235294119
                sepolia_offset_candidate
                500000000000000000 dec_one dec_one dec_one
                graduation_offset_candidate) as [H1 H2].
  split.
  - apply H1. vm_compute. reflexivity.
  - apply H2. vm_compute. reflexivity.
Defined.

(** X1.  [to_wei] converts exactly and truncates toward zero: for a
    decimal [c * 10 ^ e] whose coefficient has at most 80, respectively
    90, digits (the context precision), [to_wei] is [c * 10 ^ (e + 18)]
    when the value has at most 18 fractional digits, and otherwise the
    integer quotient of [c] by [10 ^ (-e - 18)], rounded toward zero. *)
Theorem to_wei_truncates_toward_zero :
  forall (c e : Z),
    (Z.abs c < 10 ^ 80 ->
     Sepolia.to_wei (mkDecimal c e)
     = if -18 <=? e then c * 10 ^ (e + 18)
       else Z.quot c (10 ^ (- (e + 18))))
    /\ (Z.abs c < 10 ^ 90 ->
        GraduationFee.to_wei (mkDecimal c e)
        = if -18 <=? e then c * 10 ^ (e + 18)
          else Z.quot c (10 ^ (- (e + 18)))).
Proof.
  intros c e. split; intros Hc.
  - unfold Sepolia.to_wei, Sepolia.WAD.
    apply to_wei_model; [reflexivity | exact Hc].
  - unfold GraduationFee.to_wei, GraduationFee.WAD.
    apply to_wei_model; [reflexivity | exact Hc].
Qed.

Lemma to_wei_truncates_toward_zero_witness :
  Sepolia.to_wei (mkDecimal (-15) (-19)) = -1
  /\ GraduationFee.to_wei (mkDecimal 85 (-1)) = 8500000000000000000.
Proof.
  split.
  - rewrite (proj1 (to_wei_truncates_toward_zero (-15) (-19)))
      by (vm_compute; reflexivity).
    reflexivity.
  - rewrite (proj2 (to_wei_truncates_toward_zero 85 (-1)))
      by (vm_compute; reflexivity).
    reflexivity.
Defined.

(** [from_wei] is exact below 90 digits. *)
Lemma from_wei_exact : forall n,
    Z.abs n < 10 ^ 90 ->
    -18 <= expo (GraduationFee.from_wei n) <= 0
    /\ coeff (GraduationFee.from_wei n)
       * 10 ^ (expo (GraduationFee.from_wei n) + 18) = n
    /\ Z.abs (coeff (GraduationFee.from_wei n)) <= Z.abs n.
Proof.
  intros n Hn.
  unfold GraduationFee.from_wei, GraduationFee.WAD, GraduationFee.prec.
  unfold dec_div, dec_of_int. cbn [coeff expo].
  change (10 ^ 18 =? 0) with false. cbv iota.
  destruct (n =? 0) eqn:Hz.
  { apply Z.eqb_eq in Hz. subst n.
    rewrite dec_fix_small by (cbn [coeff]; simpl; lia).
    cbn [coeff expo]. simpl. lia. }
  apply Z.eqb_neq in Hz.
  change (Z.abs (10 ^ 18)) with (10 ^ 18).
  change (ndigits (10 ^ 18)) with 19.
  change (Z.sgn (10 ^ 18)) with 1.
  change (0 - 0) with 0.
  set (N := Z.abs n).
  assert (HN : 0 < N) by (unfold N; lia).
  pose proof (ndigits_pos N) as Hd1.
  assert (Hd : ndigits N <= 90) by (apply ndigits_le_iff; lia).
  set (shift := 19 - ndigits N + 90 + 1).
  assert (Hshift : 20 <= shift) by (unfold shift; lia).
  replace (0 <=? shift) with true by (symmetry; apply Z.leb_le; lia).
  assert (Hnum : N * 10 ^ shift = (N * 10 ^ (shift - 18)) * 10 ^ 18).
  { rewrite <- Z.mul_assoc, <- Z.pow_add_r by lia.
    replace (shift - 18 + 18) with shift by lia. reflexivity. }
  rewrite Hnum, Z.div_mul, Z.mod_mul by (simpl; lia).
  change (0 =? 0) with true. cbv iota.
  set (cq := N * 10 ^ (shift - 18)).
  assert (H10 : 0 < 10 ^ (shift - 18)) by (apply Z.pow_pos_nonneg; lia).
  pose proof (strip_zeros_spec (Z.to_nat (ndigits cq)) cq (0 - shift) 0)
    as [Hge [Hval Hideal]].
  pose proof (strip_zeros_strips
                (Z.to_nat (shift - 18)) (Z.to_nat (ndigits cq))
                cq (0 - shift) 0 N) as Hstrip.
  rewrite Z2Nat.id in Hstrip by lia.
  assert (Hdq : ndigits cq = ndigits N + (shift - 18))
    by (unfold cq; apply ndigits_shift; lia).
  specialize (Hstrip ltac:(rewrite Hdq; lia) ltac:(lia) eq_refl).
  destruct (strip_zeros (Z.to_nat (ndigits cq)) cq (0 - shift) 0)
    as [c' e'].
  cbn [fst snd] in *.
  specialize (Hideal ltac:(lia)).
  assert (Hc' : N = c' * 10 ^ (e' + 18)).
  { unfold cq in Hval.
    replace (e' - (0 - shift)) with ((e' + 18) + (shift - 18)) in Hval
      by lia.
    rewrite Z.pow_add_r, Z.mul_assoc in Hval by lia.
    apply Z.mul_cancel_r in Hval; [exact Hval | lia]. }
  assert (H10e : 0 < 10 ^ (e' + 18)) by (apply Z.pow_pos_nonneg; lia).
  assert (Hc'pos : 0 < c') by nia.
  assert (Hc'le : c' <= N) by nia.
  rewrite dec_fix_small by (cbn [coeff]; lia).
  cbn [coeff expo].
  split; [lia |]. split.
  - rewrite Z.mul_1_r, <- Z.mul_assoc, <- Hc'. unfold N.
    rewrite Z.mul_comm. apply Z.abs_sgn.
  - rewrite Z.mul_1_r, Z.abs_mul, (Z.abs_eq c') by lia.
    fold N. assert (0 <= Z.abs (Z.sgn n) <= 1) by lia. nia.
Qed.

(** X2.  [from_wei] and [to_wei] of the graduation-fee script are
    inverse on amounts below 90 digits: [from_wei(n)] denotes
    [n / 10 ** 18] exactly, with at most 18 fractional digits, and
    [to_wei(from_wei(n)) = n]. *)
Theorem to_wei_from_wei_round_trip :
  forall n : Z,
    Z.abs n < 10 ^ 90 ->
    GraduationFee.to_wei (GraduationFee.from_wei n) = n
    /\ -18 <= expo (GraduationFee.from_wei n) <= 0
    /\ coeff (GraduationFee.from_wei n)
       * 10 ^ (expo (GraduationFee.from_wei n) + 18) = n.
Proof.
  intros n Hn.
  destruct (from_wei_exact n Hn) as [He [Hval Hle]].
  split; [| split; [exact He | exact Hval]].
  destruct (GraduationFee.from_wei n) as [cc ee]. cbn [coeff expo] in *.
  rewrite (proj2 (to_wei_truncates_toward_zero cc ee)) by lia.
  replace (-18 <=? ee) with true by (symmetry; apply Z.leb_le; lia).
  exact Hval.
Qed.

Lemma to_wei_from_wei_round_trip_witness :
  GraduationFee.to_wei (GraduationFee.from_wei (-354166666666666666))
  = -354166666666666666.
Proof.
  apply (to_wei_from_wei_round_trip (-354166666666666666)).
  vm_compute. reflexivity.
Defined.

(** X11.  The curve never gives more tokens for more ETH: for [k >= 0]
    and a positive [eth_reserves + e0], [reserves_from_eth] does not
    increase when [eth_reserves] grows, in both scripts. *)
Theorem reserves_do_not_increase_with_eth :
  forall (k t0 e0 eth eth' : Z),
    0 <= k ->
    0 < eth + e0 ->
    eth <= eth' ->
    Sepolia.reserves_from_eth k t0 e0 eth'
    <= Sepolia.reserves_from_eth k t0 e0 eth
    /\ GraduationFee.reserves_from_eth k t0 e0 eth'
       <= GraduationFee.reserves_from_eth k t0 e0 eth.
Proof.
  intros k t0 e0 eth eth' Hk Hpos Hle.
  assert (H : k / (eth' + e0) <= k / (eth + e0))
    by (apply Z.div_le_compat_l; lia).
  unfold Sepolia.reserves_from_eth, GraduationFee.reserves_from_eth. lia.
Qed.

Lemma reserves_do_not_increase_with_eth_witness :
  Sepolia.reserves_from_eth
    (Sepolia.c_k sepolia_candidate) (Sepolia.c_t0 sepolia_candidate)
    (Sepolia.c_e0 sepolia_candidate) 8500000000000000000
  <= Sepolia.reserves_from_eth
       (Sepolia.c_k sepolia_candidate) (Sepolia.c_t0 sepolia_candidate)
       (Sepolia.c_e0 sepolia_candidate) 0.
Proof.
  apply (reserves_do_not_increase_with_eth
           (Sepolia.c_k sepolia_candidate) (Sepolia.c_t0 sepolia_candidate)
           (Sepolia.c_e0 sepolia_candidate) 0 8500000000000000000).
  - vm_compute. discriminate.
  - vm_compute. reflexivity.
  - lia.
Defined.

(** ** Signs of decimals *)

Lemma round_half_even_nonneg : forall n k,
    0 <= n -> 0 <= round_half_even n k.
Proof.
  intros n k Hn. unfold round_half_even.
  assert (0 <= n / 10 ^ k).
  { destruct (Z.le_gt_cases 0 k) as [Hk | Hk].
    - apply Z.div_pos; [exact Hn | apply Z.pow_pos_nonneg; lia].
    - rewrite Z.pow_neg_r by lia. rewrite Z.div_0_r. lia. }
  destruct ((5 * 10 ^ (k - 1) <? n mod 10 ^ k)
            || ((n mod 10 ^ k =? 5 * 10 ^ (k - 1)) && Z.odd (n / 10 ^ k)));
    lia.
Qed.

Lemma dec_fix_nonneg : forall prec d,
    0 <= coeff d -> 0 <= coeff (dec_fix prec d).
Proof.
  intros prec d Hd. unfold dec_fix.
  destruct (ndigits (Z.abs (coeff d)) - prec <=? 0); [exact Hd |].
  pose proof (round_half_even_nonneg
                (Z.abs (coeff d))
                (ndigits (Z.abs (coeff d)) - prec) (Z.abs_nonneg _)) as Hq.
  assert (0 <= Z.sgn (coeff d)) by lia.
  destruct (prec <? ndigits _); cbn [coeff].
  - apply Z.mul_nonneg_nonneg; [lia |]. apply Z.div_pos; lia.
  - apply Z.mul_nonneg_nonneg; lia.
Qed.

Lemma dec_fix_pos : forall prec d,
    0 < prec -> 0 < coeff d -> 0 < coeff (dec_fix prec d).
Proof.
  intros prec d Hp Hd.
  pose proof (dec_fix_nonneg prec d ltac:(lia)).
  pose proof (dec_fix_nonzero prec d Hp ltac:(lia)). lia.
Qed.

Lemma dec_mul_nonneg : forall prec a b,
    0 <= coeff a -> 0 <= coeff b -> 0 <= coeff (dec_mul prec a b).
Proof.
  intros prec a b Ha Hb. unfold dec_mul.
  apply dec_fix_nonneg. cbn [coeff]. nia.
Qed.

Lemma dec_add_nonneg : forall prec a b,
    0 <= coeff a -> 0 <= coeff b -> 0 <= coeff (dec_add prec a b).
Proof.
  intros prec a b Ha Hb. unfold dec_add.
  apply dec_fix_nonneg. cbn [coeff].
  pose proof (Z.pow_nonneg 10 (expo a - Z.min (expo a) (expo b))
                ltac:(lia)).
  pose proof (Z.pow_nonneg 10 (expo b - Z.min (expo a) (expo b))
                ltac:(lia)).
  nia.
Qed.

Lemma dec_abs_nonneg : forall prec a, 0 <= coeff (dec_abs prec a).
Proof.
  intros prec a. unfold dec_abs. apply dec_fix_nonneg. cbn [coeff]. lia.
Qed.

Lemma dec_div_nonneg : forall prec a b,
    0 <= coeff a -> 0 < coeff b -> 0 <= coeff (dec_div prec a b).
Proof.
  intros prec a b Ha Hb. unfold dec_div.
  replace (coeff b =? 0) with false by (symmetry; apply Z.eqb_neq; lia).
  destruct (coeff a =? 0) eqn:Hz.
  { apply dec_fix_nonneg. cbn [coeff]. lia. }
  apply Z.eqb_neq in Hz.
  set (n := Z.abs (coeff a)). set (m := Z.abs (coeff b)).
  set (shift := ndigits m - ndigits n + prec + 1).
  set (num := if 0 <=? shift then n * 10 ^ shift else n).
  set (den := if 0 <=? shift then m else m * 10 ^ (- shift)).
  assert (Hnum : 0 <= num).
  { unfold num. destruct (0 <=? shift) eqn:Hs; [| unfold n; lia].
    apply Z.leb_le in Hs.
    pose proof (Z.pow_nonneg 10 shift ltac:(lia)). unfold n. nia. }
  assert (Hden : 0 < den).
  { unfold den. destruct (0 <=? shift) eqn:Hs; [unfold m; lia |].
    apply Z.leb_gt in Hs.
    assert (0 < 10 ^ (- shift)) by (apply Z.pow_pos_nonneg; lia).
    unfold m. nia. }
  assert (Hc : 0 <= num / den) by (apply Z.div_pos; lia).
  assert (Hsign : Z.sgn (coeff a) * Z.sgn (coeff b) = 1) by nia.
  rewrite Hsign.
  destruct (num mod den =? 0).
  - pose proof (strip_zeros_spec (Z.to_nat (ndigits (num / den)))
                                 (num / den)
                                 (expo a - expo b - shift)
                                 (expo a - expo b)) as [Hge [Hval _]].
    destruct (strip_zeros (Z.to_nat (ndigits (num / den))) (num / den)
                          (expo a - expo b - shift) (expo a - expo b))
      as [c' e'].
    cbn [fst snd] in Hge, Hval.
    apply dec_fix_nonneg. cbn [coeff].
    assert (0 < 10 ^ (e' - (expo a - expo b - shift)))
      by (apply Z.pow_pos_nonneg; lia).
    nia.
  - apply dec_fix_nonneg. cbn [coeff].
    destruct (num / den mod 5 =? 0); lia.
Qed.

Lemma dec_div_pos : forall prec a b,
    0 < prec -> 0 < coeff a -> 0 < coeff b ->
    0 < coeff (dec_div prec a b).
Proof.
  intros prec a b Hp Ha Hb.
  pose proof (dec_div_nonneg prec a b ltac:(lia) Hb).
  pose proof (dec_div_nonzero prec a b Hp ltac:(lia) ltac:(lia)). lia.
Qed.

(** The fields of a candidate of the graduation-fee script, in terms of
    one another. *)
Lemma graduation_candidate_fields : forall e0 t0 fee wt wf wp c,
    GraduationFee.evaluate_candidate e0 t0 fee wt wf wp = Some c ->
    GraduationFee.c_price_curve c
    = dec_div GraduationFee.prec
              (dec_of_int ((GraduationFee.TARGET_ETH_WEI + e0) ^ 2))
              (dec_of_int (GraduationFee.c_k c))
    /\ GraduationFee.c_price_uni_with_target_fee c
       = dec_div GraduationFee.prec
                 (dec_of_int (GraduationFee.TARGET_ETH_WEI - fee))
                 (dec_of_int (GraduationFee.c_t_at_grad c))
    /\ GraduationFee.c_price_deviation_ratio c
       = dec_div GraduationFee.prec
           (dec_abs GraduationFee.prec
              (dec_sub GraduationFee.prec
                 (GraduationFee.c_price_uni_with_target_fee c)
                 (GraduationFee.c_price_curve c)))
           (GraduationFee.c_price_curve c)
    /\ GraduationFee.c_fee_for_price_match_wei c
       = dec_to_int
           (dec_sub GraduationFee.prec
              (dec_of_int GraduationFee.TARGET_ETH_WEI)
              (dec_mul GraduationFee.prec
                 (dec_of_int (GraduationFee.c_t_at_grad c))
                 (GraduationFee.c_price_curve c)))
    /\ GraduationFee.c_fee_error_wei c
       = Z.abs (GraduationFee.c_fee_for_price_match_wei c - fee)
    /\ GraduationFee.c_score c
       = GraduationFee.score_candidate
           (GraduationFee.c_token_error_wei c)
           (GraduationFee.c_fee_error_wei c)
           (GraduationFee.c_price_deviation_ratio c) wt wf wp
           (GraduationFee.c_fee_for_price_match_wei c).
Proof.
  intros e0 t0 fee wt wf wp c.
  unfold GraduationFee.evaluate_candidate,
    GraduationFee.evaluate_candidate_at.
  destruct ((e0 <=? 0) || (t0 <? 0)); [discriminate |].
  destruct (negb _); [discriminate |].
  destruct (_ <=? 0); [discriminate |].
  destruct (_ <=? 0); [discriminate |].
  destruct (dec_is_zero _); [discriminate |].
  intros Heq. injection Heq as <-.
  cbn [GraduationFee.c_k GraduationFee.c_t_at_grad
       GraduationFee.c_token_error_wei
       GraduationFee.c_fee_for_price_match_wei
       GraduationFee.c_fee_error_wei GraduationFee.c_price_curve
       GraduationFee.c_price_uni_with_target_fee
       GraduationFee.c_price_deviation_ratio GraduationFee.c_score].
  repeat split; reflexivity.
Qed.

Lemma dec_value_nonneg : forall d,
    0 <= coeff d -> (0 <= dec_value d)%Q.
Proof.
  intros d Hd. unfold dec_value.
  apply Qmult_le_0_compat.
  - change 0%Q with (inject_Z 0). rewrite <- Zle_Qle. exact Hd.
  - apply Qpower_0_le. discriminate.
Qed.

Lemma dec_value_pos : forall d,
    0 < coeff d -> (0 < dec_value d)%Q.
Proof.
  intros d Hd. unfold dec_value.
  apply Qmult_lt_0_compat.
  - change 0%Q with (inject_Z 0). rewrite <- Zlt_Qlt. exact Hd.
  - apply Qpower_0_lt. reflexivity.
Qed.

Lemma dec_value_nonneg_inv : forall d,
    (0 <= dec_value d)%Q -> 0 <= coeff d.
Proof.
  intros d H.
  destruct (Z.le_gt_cases 0 (coeff d)) as [Hle | Hgt]; [exact Hle |].
  exfalso.
  pose proof (dec_value_pos (mkDecimal (- coeff d) (expo d))
                ltac:(cbn [coeff]; lia)) as Hpos.
  unfold dec_value in *. cbn [coeff expo] in Hpos.
  rewrite inject_Z_opp in Hpos.
  apply (Qlt_not_le _ _ Hpos).
  setoid_replace (- inject_Z (coeff d) * (10 # 1) ^ expo d)%Q
    with (- (inject_Z (coeff d) * (10 # 1) ^ expo d))%Q by ring.
  apply (Qopp_le_compat 0) in H. exact H.
Qed.

(** X12.  Every candidate of the graduation-fee script has positive
    prices ([price_curve], [price_uni_with_target_fee]), a non-negative
    [price_deviation_ratio] and non-negative integer errors; with
    non-negative weights its [score] is non-negative, so a score of zero
    is the best possible one. *)
Theorem graduation_candidate_signs :
  forall (e0 t0 target_fee_wei : Z) (w_token w_fee w_price : Decimal)
         (c : GraduationFee.Candidate),
    GraduationFee.evaluate_candidate
      e0 t0 target_fee_wei w_token w_fee w_price = Some c ->
    (0 < dec_value (GraduationFee.c_price_curve c))%Q
    /\ (0 < dec_value (GraduationFee.c_price_uni_with_target_fee c))%Q
    /\ (0 <= dec_value (GraduationFee.c_price_deviation_ratio c))%Q
    /\ 0 <= GraduationFee.c_token_error_wei c
    /\ 0 <= GraduationFee.c_fee_error_wei c
    /\ ((0 <= dec_value w_token)%Q ->
        (0 <= dec_value w_fee)%Q ->
        (0 <= dec_value w_price)%Q ->
        (0 <= dec_value (GraduationFee.c_score c))%Q).
Proof.
  intros e0 t0 fee wt wf wp c Hev.
  pose proof (graduation_candidate_fields _ _ _ _ _ _ _ Hev)
    as [Hpc [Hpu [Hpdr [_ [Hfe Hsc]]]]].
  pose proof (GraduationFeeFacts.fee_evaluate_candidate_some
                _ _ _ _ _ _ _ Hev)
    as [He0 [Ht0 [Hk [_ [_ [_ [_ [Hgrad [Herr [Hfee _]]]]]]]]]].
  pose proof GraduationFeeFacts.fee_TOTAL_SUPPLY_pos as HTS.
  pose proof GraduationFeeFacts.TARGET_TOKENS_pos as HTT.
  assert (HTE : 0 < GraduationFee.TARGET_ETH_WEI)
    by (rewrite GraduationFeeFacts.fee_TARGET_ETH_WEI_eq; lia).
  assert (HTF : 0 < GraduationFee.TARGET_FEE_WEI)
    by (rewrite GraduationFeeFacts.TARGET_FEE_WEI_eq; lia).
  assert (Hprec : 0 < GraduationFee.prec) by reflexivity.
  assert (Hpc0 : 0 < coeff (GraduationFee.c_price_curve c)).
  { rewrite Hpc. apply dec_div_pos; [exact Hprec | |];
      unfold dec_of_int; cbn [coeff].
    - apply Z.pow_pos_nonneg; lia.
    - rewrite Hk. nia. }
  assert (Hpu0 : 0 < coeff (GraduationFee.c_price_uni_with_target_fee c)).
  { rewrite Hpu. apply dec_div_pos; [exact Hprec | |];
      unfold dec_of_int; cbn [coeff]; lia. }
  assert (Hpdr0 : 0 <= coeff (GraduationFee.c_price_deviation_ratio c)).
  { rewrite Hpdr. apply dec_div_nonneg; [apply dec_abs_nonneg | exact Hpc0]. }
  assert (Hte : 0 <= GraduationFee.c_token_error_wei c)
    by (rewrite Herr; apply Z.abs_nonneg).
  assert (Hfe0 : 0 <= GraduationFee.c_fee_error_wei c)
    by (rewrite Hfe; apply Z.abs_nonneg).
  split; [apply dec_value_pos; exact Hpc0 |].
  split; [apply dec_value_pos; exact Hpu0 |].
  split; [apply dec_value_nonneg; exact Hpdr0 |].
  split; [exact Hte |]. split; [exact Hfe0 |].
  intros Hwt Hwf Hwp.
  apply dec_value_nonneg_inv in Hwt, Hwf, Hwp.
  apply dec_value_nonneg. rewrite Hsc.
  unfold GraduationFee.score_candidate.
  assert (Hbase :
            0 <= coeff
                   (dec_add GraduationFee.prec
                      (dec_add GraduationFee.prec
                         (dec_mul GraduationFee.prec wt
                            (dec_div GraduationFee.prec
                               (dec_of_int
                                  (GraduationFee.c_token_error_wei c))
                               (dec_of_int GraduationFee.TARGET_TOKENS)))
                         (dec_mul GraduationFee.prec wf
                            (dec_div GraduationFee.prec
                               (dec_of_int
                                  (GraduationFee.c_fee_error_wei c))
                               (dec_of_int GraduationFee.TARGET_FEE_WEI))))
                      (dec_mul GraduationFee.prec wp
                         (GraduationFee.c_price_deviation_ratio c)))).
  { apply dec_add_nonneg; [apply dec_add_nonneg |].
    - apply dec_mul_nonneg; [exact Hwt |].
      apply dec_div_nonneg; unfold dec_of_int; cbn [coeff];
        [exact Hte | exact HTT].
    - apply dec_mul_nonneg; [exact Hwf |].
      apply dec_div_nonneg; unfold dec_of_int; cbn [coeff];
        [exact Hfe0 | exact HTF].
    - apply dec_mul_nonneg; [exact Hwp | exact Hpdr0]. }
  destruct (GraduationFee.c_fee_for_price_match_wei c <? 0);
    [| exact Hbase].
  apply dec_add_nonneg; [exact Hbase | cbn [coeff]; lia].
Qed.

Lemma graduation_candidate_signs_witness :
  (0 < dec_value (GraduationFee.c_price_curve graduation_offset_candidate))%Q
  /\ (0 <= dec_value (GraduationFee.c_score graduation_offset_candidate))%Q.
Proof.
  destruct (graduation_candidate_signs
              3000000000000000000 82352941176470588235294119
              500000000000000000 dec_one dec_one dec_one
              graduation_offset_candidate)
    as [H1 [_ [_ [_ [_ H2]]]]].
  - vm_compute. reflexivity.
  - split; [exact H1 |].
    apply H2; vm_compute; discriminate.
Defined.
